(** * qwiic_scale: the NAU7802 driver and the QwiicScale calibration layer

    A shallow embedding of [NAU7802.cpp] / [NAU7802.h] and of
    [QwiicScale.cpp] / [QwiicScale.h].

    Data model (avr-gcc, the target of [EEPROM.h] and of the [F()] strings):
    [int] is 16 bits, [long] and [int32_t] are 32 bits, [float] and [double]
    are both IEEE binary32, objects are stored little-endian.

    The two collaborators that are not part of the repository are modelled
    as follows.
    - [TwoWire] (the bus): the device is an environment [Env] that answers
      the k-th transmission with a status byte, the k-th read request with
      a list of bytes and the k-th call of [millis()] with a clock value.
      Every run of the driver against every device is a run against some
      [Env].
    - [EEPROM]: a byte store indexed by address; erased cells read 0xFF. *)

From Stdlib Require Import ZArith List Bool Lia SpecFloat.
From stdpp Require Import gmap.
Import ListNotations.
Local Open Scope Z_scope.

(** ** Fixed-width integers *)

Definition uint8 (z : Z) : Z := z mod 2 ^ 8.
Definition uint32 (z : Z) : Z := z mod 2 ^ 32.
Definition int32 (z : Z) : Z := (z + 2 ^ 31) mod 2 ^ 32 - 2 ^ 31.

(** ** NAU7802.h: registers, bits, settings and error codes *)

Definition NAU7802_PU_CTRL : Z := 0x00.
Definition NAU7802_CTRL1 : Z := 0x01.
Definition NAU7802_CTRL2 : Z := 0x02.
Definition NAU7802_ADCO_B2 : Z := 0x12.

Definition NAU7802_PU_CTRL_CR : Z := 5.

Definition NAU7802_CTRL2_CALS : Z := 2.
Definition NAU7802_CTRL2_CAL_ERROR : Z := 3.

Definition NAU7802_SPS_320 : Z := 7.
Definition NAU7802_SPS_80 : Z := 3.
Definition NAU7802_SPS_40 : Z := 2.
Definition NAU7802_SPS_20 : Z := 1.
Definition NAU7802_SPS_10 : Z := 0.

Definition NAU7802_ADC : Z := 0x15.
Definition NAU7802_PGA_PWR : Z := 0x1C.

Definition NAU7802_PU_CTRL_RR : Z := 0.
Definition NAU7802_PU_CTRL_PUD : Z := 1.
Definition NAU7802_PU_CTRL_PUA : Z := 2.
Definition NAU7802_PU_CTRL_PUR : Z := 3.
Definition NAU7802_PU_CTRL_AVDDS : Z := 7.

Definition NAU7802_CTRL1_CRP : Z := 7.
Definition NAU7802_CTRL2_CHS : Z := 7.
Definition NAU7802_PGA_PWR_PGA_CAP_EN : Z := 7.

Definition NAU7802_LDO_3V3 : Z := 4.
Definition NAU7802_GAIN_128 : Z := 7.

Definition NAU7802_CHANNEL_1 : Z := 0.
Definition NAU7802_CHANNEL_2 : Z := 1.

Definition NAU7802_CAL_SUCCESS : Z := 0.
Definition NAU7802_CAL_IN_PROGRESS : Z := 1.
Definition NAU7802_CAL_FAILURE : Z := 2.

Definition error_code_t := Z.
Definition NAU7802_OK : error_code_t := 0.
Definition NAU7802_I2C_DATA_TOO_BIG_ERROR : error_code_t := -1.
Definition NAU7802_I2C_NACK_ADDR_ERROR : error_code_t := -2.
Definition NAU7802_I2C_NACK_DATA_ERROR : error_code_t := -3.
Definition NAU7802_I2C_ERROR : error_code_t := -4.
Definition NAU7802_I2C_NO_DATA_ERROR : error_code_t := -5.
Definition NAU7802_TIMEOUT_ERROR : error_code_t := -6.
Definition NAU7802_POWER_UP_ERROR : error_code_t := -7.
Definition NAU7802_CAL_AFE_ERROR : error_code_t := -8.

(** A function with an out-parameter [T *out] and an [error_code_t] result
    either fills [*out] and returns [NAU7802_OK], or returns a non-zero
    code and leaves [*out] alone. *)
Inductive result (A : Type) : Type :=
| Ok (a : A)
| Err (e : error_code_t).
Arguments Ok {A} a.
Arguments Err {A} e.

(** What a call of a function with an unbounded loop can come to. The C++
    division by zero is undefined behaviour; it is kept apart from every
    returned value. *)
Inductive outcome (A : Type) : Type :=
| Returns (a : A)
| DivisionByZero
| OutOfFuel.
Arguments Returns {A} a.
Arguments DivisionByZero {A}.
Arguments OutOfFuel {A}.

(** ** The bus and the clock *)

Record Env : Type := mkEnv {
  (** status of the k-th [endTransmission()]: 0 success, 1 data too long,
      2 NACK on address, 3 NACK on data, 4 other error *)
  endTransmission_ret : nat -> Z;
  (** bytes the device sends on the k-th [requestFrom()] *)
  requestFrom_bytes : nat -> list Z;
  (** value of the k-th [millis()] *)
  millis_at : nat -> Z
}.

Record Wire : Type := mkWire {
  txBuffer : list Z;        (* bytes queued since beginTransmission *)
  rxBuffer : list Z;        (* bytes received and not read yet *)
  n_end : nat;              (* transmissions ended so far *)
  n_req : nat;              (* read requests so far *)
  n_millis : nat;           (* clock readings so far *)
  sent : list (list Z);     (* frames put on the bus, latest first *)
  slept : Z                 (* milliseconds passed to delay() *)
}.

Definition Wire0 : Wire := mkWire [] [] 0 0 0 [] 0.

Definition M (A : Type) : Type := Wire -> A * Wire.
Definition ret {A} (a : A) : M A := fun w => (a, w).
Definition bind {A B} (c : M A) (k : A -> M B) : M B :=
  fun w => let (a, w') := c w in k a w'.

Notation "'do' x <- c ; k" := (bind c (fun x => k))
  (at level 10, x name, c at level 100, k at level 200).
Notation "c ;; k" := (bind c (fun _ => k))
  (at level 100, k at level 200, right associativity).

Section Driver.

Variable env : Env.

Definition beginTransmission : M unit := fun w =>
  (tt, mkWire [] (rxBuffer w) (n_end w) (n_req w) (n_millis w) (sent w) (slept w)).

Definition write (b : Z) : M unit := fun w =>
  (tt, mkWire (txBuffer w ++ [uint8 b]) (rxBuffer w) (n_end w) (n_req w)
         (n_millis w) (sent w) (slept w)).

Definition endTransmission : M Z := fun w =>
  (uint8 (endTransmission_ret env (n_end w)),
   mkWire [] (rxBuffer w) (S (n_end w)) (n_req w) (n_millis w)
     (txBuffer w :: sent w) (slept w)).

Definition requestFrom (quantity : nat) : M unit := fun w =>
  (tt, mkWire (txBuffer w)
         (map uint8 (firstn quantity (requestFrom_bytes env (n_req w))))
         (n_end w) (S (n_req w)) (n_millis w) (sent w) (slept w)).

(** [TwoWire::available()]: number of bytes left to read *)
Definition Wire_available : M Z := fun w => (Z.of_nat (length (rxBuffer w)), w).

(** [TwoWire::read()]: the next byte, or -1 when there is none *)
Definition read : M Z := fun w =>
  match rxBuffer w with
  | [] => (-1, w)
  | b :: rest =>
      (b, mkWire (txBuffer w) rest (n_end w) (n_req w) (n_millis w) (sent w) (slept w))
  end.

Definition millis : M Z := fun w =>
  (uint32 (millis_at env (n_millis w)),
   mkWire (txBuffer w) (rxBuffer w) (n_end w) (n_req w) (S (n_millis w))
     (sent w) (slept w)).

Definition delay (ms : Z) : M unit := fun w =>
  (tt, mkWire (txBuffer w) (rxBuffer w) (n_end w) (n_req w) (n_millis w)
         (sent w) (slept w + ms)).

(** ** NAU7802.cpp: register transport *)

(** The [while (tries)] loop of [i2c_write]; [value = None] is the NULL
    pointer. [ret0] is the variable [ret]: the status of the last attempt,
    returned when no try is left. *)
Fixpoint i2c_write_loop (tries : nat) (ret0 : Z) (registerAddress : Z)
    (value : option Z) : M Z :=
  match tries with
  | O => ret ret0
  | S tries' =>
      beginTransmission ;;
      write registerAddress ;;
      match value with Some v => write v | None => ret tt end ;;
      do r <- endTransmission ;
      if (r =? 1) || (r =? 2)
      then i2c_write_loop tries' r registerAddress value  (* tries--; break; *)
      else ret r                                          (* default: return ret; *)
  end.

Definition i2c_write (registerAddress : Z) (value : option Z) : M Z :=
  i2c_write_loop 3 0 registerAddress value.

(** The [if (ret == 1) ... else if (ret == 4)] chain shared by
    [getRegister], [setRegister] and [getReading]. *)
Definition i2c_error (r : Z) : option error_code_t :=
  if r =? 1 then Some NAU7802_I2C_DATA_TOO_BIG_ERROR
  else if r =? 2 then Some NAU7802_I2C_NACK_ADDR_ERROR
  else if r =? 3 then Some NAU7802_I2C_NACK_DATA_ERROR
  else if r =? 4 then Some NAU7802_I2C_ERROR
  else None.

Definition getRegister (registerAddress : Z) : M (result Z) :=
  do r <- i2c_write registerAddress None ;
  match i2c_error r with
  | Some e => ret (Err e)
  | None =>
      requestFrom 1 ;;
      do n <- Wire_available ;
      if n =? 0 then ret (Err NAU7802_I2C_NO_DATA_ERROR)
      else do b <- read ; ret (Ok (uint8 b))
  end.

Definition setRegister (registerAddress value : Z) : M error_code_t :=
  do r <- i2c_write registerAddress (Some value) ;
  match i2c_error r with
  | Some e => ret e
  | None => ret NAU7802_OK
  end.

(** ** Bit accessors *)

Definition setBit (bitNumber registerAddress : Z) : M error_code_t :=
  do r <- getRegister registerAddress ;
  match r with
  | Err e => ret e
  | Ok value => setRegister registerAddress (uint8 (Z.lor value (Z.shiftl 1 bitNumber)))
  end.

Definition clearBit (bitNumber registerAddress : Z) : M error_code_t :=
  do r <- getRegister registerAddress ;
  match r with
  | Err e => ret e
  | Ok value =>
      setRegister registerAddress (uint8 (Z.land value (Z.lnot (Z.shiftl 1 bitNumber))))
  end.

Definition getBit (bitNumber registerAddress : Z) : M (result Z) :=
  do r <- getRegister registerAddress ;
  match r with
  | Err e => ret (Err e)
  | Ok contents => ret (Ok (uint8 (Z.land contents (Z.shiftl 1 bitNumber))))
  end.

Definition available : M (result bool) :=
  do r <- getBit NAU7802_PU_CTRL_CR NAU7802_PU_CTRL ;
  match r with
  | Err e => ret (Err e)
  | Ok value => ret (Ok (negb (value =? 0)))
  end.

Definition setSampleRate (rate : Z) : M error_code_t :=
  let rate := if 7 <? rate then 7 else rate in
  do r <- getRegister NAU7802_CTRL2 ;
  match r with
  | Err e => ret e
  | Ok value =>
      let value := Z.land value 0x8F in
      let value := uint8 (Z.lor value (Z.shiftl rate 4)) in
      setRegister NAU7802_CTRL2 value
  end.

(** ** Calibration of the analog front end *)

Definition beginCalibrateAFE : M error_code_t :=
  setBit NAU7802_CTRL2_CALS NAU7802_CTRL2.

(** The function is declared to return a [NAU7802_Cal_Status] and puts the
    bus error code through that type when a read fails ([return err;]).
    The result here is the integer returned; none of the error codes, which
    are negative, converts to one of the three enumerators. *)
Definition calAFEStatus : M Z :=
  do r <- getBit NAU7802_CTRL2_CALS NAU7802_CTRL2 ;
  match r with
  | Err e => ret e
  | Ok value =>
      if negb (value =? 0) then ret NAU7802_CAL_IN_PROGRESS
      else
        do r <- getBit NAU7802_CTRL2_CAL_ERROR NAU7802_CTRL2 ;
        match r with
        | Err e => ret e
        | Ok value =>
            if negb (value =? 0) then ret NAU7802_CAL_FAILURE
            else ret NAU7802_CAL_SUCCESS
        end
  end.

(** The [while] loop of [waitForCalibrateAFE]: [fuel] bounds the number of
    times the body runs to its end. [millis()] is read only when
    [timeout_ms > 0] (the [&&] short-circuits). *)
Fixpoint waitForCalibrateAFE_loop (fuel : nat) (timeout_ms begin : Z)
    : M (outcome error_code_t) :=
  do cal_status <- calAFEStatus ;
  if cal_status =? NAU7802_CAL_IN_PROGRESS then
    do expired <-
      (if 0 <? timeout_ms
       then do now <- millis ; ret (timeout_ms <? uint32 (now - begin))
       else ret false) ;
    if expired then ret (Returns NAU7802_CAL_AFE_ERROR)
    else
      delay 1 ;;
      match fuel with
      | O => ret OutOfFuel
      | S fuel' => waitForCalibrateAFE_loop fuel' timeout_ms begin
      end
  else ret (Returns NAU7802_OK).

Definition waitForCalibrateAFE (fuel : nat) (timeout_ms : Z)
    : M (outcome error_code_t) :=
  do begin <- millis ;
  waitForCalibrateAFE_loop fuel timeout_ms begin.

Definition calibrateAFE (fuel : nat) : M (outcome error_code_t) :=
  do err <- beginCalibrateAFE ;
  if negb (err =? 0) then ret (Returns err)
  else waitForCalibrateAFE fuel 1000.

(** ** Reading pipeline *)

Definition getReading : M (result Z) :=
  do r <- i2c_write NAU7802_ADCO_B2 None ;
  match i2c_error r with
  | Some e => ret (Err e)
  | None =>
      requestFrom 3 ;;
      do n <- Wire_available ;
      if n =? 0 then ret (Err NAU7802_I2C_NO_DATA_ERROR)
      else
        do msb <- read ;
        do mid <- read ;
        do lsb <- read ;
        let valueRaw := uint32 (Z.shiftl (uint32 msb) 16) in
        let valueRaw := Z.lor valueRaw (uint32 (Z.shiftl (uint32 mid) 8)) in
        let valueRaw := Z.lor valueRaw (uint32 lsb) in
        let valueShifted := int32 (Z.shiftl valueRaw 8) in
        ret (Ok (Z.shiftr valueShifted 8))
  end.

(** [unsigned long timeout = average_size * 13;] *)
Definition getAverageReading_timeout (average_size : Z) : Z := average_size * 13.

(** The [while (samplesAquired < average_size)] loop; [Ok total] is the
    accumulator when the loop condition fails. *)
Fixpoint getAverageReading_loop (fuel : nat)
    (average_size timeout startTime total samplesAquired : Z)
    : M (outcome (result Z)) :=
  if samplesAquired <? average_size then
    do r <- available ;
    match r with
    | Err e => ret (Returns (Err e))
    | Ok ready =>
        do step <-
          (if ready then
             do v <- getReading ;
             match v with
             | Err e => ret (Err e)
             | Ok value => ret (Ok (int32 (total + value), uint8 (samplesAquired + 1)))
             end
           else ret (Ok (total, samplesAquired))) ;
        match step with
        | Err e => ret (Returns (Err e))
        | Ok (total', samplesAquired') =>
            do now <- millis ;
            if timeout <? uint32 (now - startTime)
            then ret (Returns (Err NAU7802_TIMEOUT_ERROR))
            else
              match fuel with
              | O => ret OutOfFuel
              | S fuel' =>
                  getAverageReading_loop fuel' average_size timeout startTime
                    total' samplesAquired'
              end
        end
    end
  else ret (Returns (Ok total)).

(** [average_size] is a [uint8_t], 0 to 255. The last statement divides
    a [long] by it. *)
Definition getAverageReading (fuel : nat) (average_size : Z)
    : M (outcome (result Z)) :=
  let timeout := getAverageReading_timeout average_size in
  do startTime <- millis ;
  do o <- getAverageReading_loop fuel average_size timeout startTime 0 0 ;
  match o with
  | Returns (Ok total) =>
      if average_size =? 0 then ret DivisionByZero
      else ret (Returns (Ok (Z.quot total average_size)))
  | other => ret other
  end.

(** ** Settings, power and start-up *)

Definition setChannel (channelNumber : Z) : M error_code_t :=
  if channelNumber =? NAU7802_CHANNEL_1
  then clearBit NAU7802_CTRL2_CHS NAU7802_CTRL2
  else setBit NAU7802_CTRL2_CHS NAU7802_CTRL2.

(** The [while (1)] loop of [powerUp]; [counter++ > 100] compares the
    value before the increment. *)
Fixpoint powerUp_loop (fuel : nat) (counter : Z) : M (outcome error_code_t) :=
  do r <- getBit NAU7802_PU_CTRL_PUR NAU7802_PU_CTRL ;
  match r with
  | Err e => ret (Returns e)
  | Ok value =>
      if 0 <? value then ret (Returns NAU7802_OK)
      else
        delay 1 ;;
        if 100 <? counter then ret (Returns NAU7802_POWER_UP_ERROR)
        else
          match fuel with
          | O => ret OutOfFuel
          | S fuel' => powerUp_loop fuel' (uint8 (counter + 1))
          end
  end.

Definition powerUp (fuel : nat) : M (outcome error_code_t) :=
  do err <- setBit NAU7802_PU_CTRL_PUD NAU7802_PU_CTRL ;
  if negb (err =? 0) then ret (Returns err)
  else
    do err <- setBit NAU7802_PU_CTRL_PUA NAU7802_PU_CTRL ;
    if negb (err =? 0) then ret (Returns err)
    else powerUp_loop fuel 0.

Definition powerDown : M error_code_t :=
  do err <- clearBit NAU7802_PU_CTRL_PUD NAU7802_PU_CTRL ;
  if negb (err =? 0) then ret err
  else clearBit NAU7802_PU_CTRL_PUA NAU7802_PU_CTRL.

Definition reset : M error_code_t :=
  do err <- setBit NAU7802_PU_CTRL_RR NAU7802_PU_CTRL ;
  if negb (err =? 0) then ret err
  else
    delay 1 ;;
    clearBit NAU7802_PU_CTRL_RR NAU7802_PU_CTRL.

Definition setLDO (ldoValue : Z) : M error_code_t :=
  let ldoValue := if 7 <? ldoValue then 7 else ldoValue in
  do r <- getRegister NAU7802_CTRL1 ;
  match r with
  | Err e => ret e
  | Ok value =>
      let value := Z.land value 0xC7 in
      let value := uint8 (Z.lor value (Z.shiftl ldoValue 3)) in
      do err <- setRegister NAU7802_CTRL1 value ;
      if negb (err =? 0) then ret err
      else setBit NAU7802_PU_CTRL_AVDDS NAU7802_PU_CTRL
  end.

Definition setGain (gainValue : Z) : M error_code_t :=
  let gainValue := if 7 <? gainValue then 7 else gainValue in
  do r <- getRegister NAU7802_CTRL1 ;
  match r with
  | Err e => ret e
  | Ok value =>
      let value := Z.land value 0xF8 in
      let value := uint8 (Z.lor value gainValue) in
      setRegister NAU7802_CTRL1 value
  end.


Definition setIntPolarityHigh : M error_code_t :=
  clearBit NAU7802_CTRL1_CRP NAU7802_CTRL1.

Definition setIntPolarityLow : M error_code_t :=
  setBit NAU7802_CTRL1_CRP NAU7802_CTRL1.

(** [beginTransmission(deviceAddress)] followed at once by
    [endTransmission()]: an empty frame. *)
Definition isConnected : M bool :=
  beginTransmission ;;
  do r <- endTransmission ;
  ret (r =? 0).

(** [if (err = step) return err;] followed by the rest of [begin] *)
Definition or_return (step : M error_code_t) (rest : M (outcome error_code_t))
    : M (outcome error_code_t) :=
  do err <- step ;
  if negb (err =? 0) then ret (Returns err) else rest.

Definition or_return_outcome (step rest : M (outcome error_code_t))
    : M (outcome error_code_t) :=
  do o <- step ;
  match o with
  | Returns err => if negb (err =? 0) then ret (Returns err) else rest
  | other => ret other
  end.

Definition begin (fuel : nat) (initialize : bool) : M (outcome error_code_t) :=
  do connected <- isConnected ;
  do connected <- (if connected then ret true else isConnected) ;
  if negb connected then ret (Returns NAU7802_I2C_ERROR)
  else if initialize then
    or_return reset
      (or_return_outcome (powerUp fuel)
         (or_return (setLDO NAU7802_LDO_3V3)
            (or_return (setGain NAU7802_GAIN_128)
               (or_return (setSampleRate NAU7802_SPS_80)
                  (or_return (setRegister NAU7802_ADC 0x30)
                     (or_return (setBit NAU7802_PGA_PWR_PGA_CAP_EN NAU7802_PGA_PWR)
                        (calibrateAFE fuel)))))))
  else ret (Returns NAU7802_OK).

End Driver.

(** ** Floating point: IEEE binary32 *)

Definition float : Type := spec_float.
Definition prec : Z := 24.
Definition emax : Z := 128.

Definition fsub : float -> float -> float := SFsub prec emax.
Definition fdiv : float -> float -> float := SFdiv prec emax.
Definition feq : float -> float -> bool := SFeqb.
Definition flt : float -> float -> bool := SFltb.
Definition fabs : float -> float := SFabs.
Definition isnan (f : float) : bool :=
  match f with S754_nan => true | _ => false end.

(** Conversion of an integer to [float], rounding to nearest even. *)
Definition float_of_long (z : Z) : float := binary_normalize prec emax z 0 false.

Definition float_0 : float := S754_zero false.                    (* 0.0 *)
Definition float_1 : float := S754_finite false 8388608 (-23).    (* 1.0 *)
Definition float_2 : float := S754_finite false 8388608 (-22).    (* 2.0 *)
Definition float_half : float := S754_finite false 8388608 (-24). (* 0.5 *)
Definition float_1000 : float := S754_finite false 16384000 (-14). (* 1000.0 *)
Definition float_milli : float := S754_finite false 8589935 (-33).  (* 0.001 *)

(** The object representation of a [float]: sign, 8 exponent bits, 23
    fraction bits. *)
Definition float_of_bits (b : Z) : float :=
  let s := Z.testbit b 31 in
  let e := Z.land (Z.shiftr b 23) 0xFF in
  let m := Z.land b 0x7FFFFF in
  if e =? 0 then
    match m with
    | Zpos p => S754_finite s p (-149)
    | _ => S754_zero s
    end
  else if e =? 255 then
    if m =? 0 then S754_infinity s else S754_nan
  else
    match m + 2 ^ 23 with
    | Zpos p => S754_finite s p (e - 150)
    | _ => S754_nan
    end.

(** [spec_float] has a single not-a-number, without sign or payload: for
    it the bits given here are those of the quiet not-a-number
    0x7FC00000, which need not be the bits the machine's arithmetic
    produced (a division 0.0 / 0.0 may give 0xFFC00000). For zeros,
    infinities and numbers the bits are exact. *)
Definition bits_of_float (f : float) : Z :=
  let sign (s : bool) := if s then 2 ^ 31 else 0 in
  match f with
  | S754_zero s => sign s
  | S754_infinity s => sign s + 0x7F800000
  | S754_nan => 0x7FC00000
  | S754_finite s m e =>
      if Zpos m <? 2 ^ 23 then sign s + Zpos m
      else sign s + (e + 150) * 2 ^ 23 + (Zpos m - 2 ^ 23)
  end.

(** ** EEPROM: a byte store *)

Definition EEPROM_read (ee : gmap Z Z) (idx : Z) : Z := default 0xFF (ee !! idx).

Definition EEPROM_update (idx val : Z) (ee : gmap Z Z) : gmap Z Z :=
  <[idx := uint8 val]> ee.

(** [EEPROM.get] and [EEPROM.put] at a 4-byte type: the object's bytes,
    lowest address first. *)
Definition EEPROM_get32 (ee : gmap Z Z) (idx : Z) : Z :=
  EEPROM_read ee idx + EEPROM_read ee (idx + 1) * 2 ^ 8
  + EEPROM_read ee (idx + 2) * 2 ^ 16 + EEPROM_read ee (idx + 3) * 2 ^ 24.

Definition EEPROM_put32 (idx bits : Z) (ee : gmap Z Z) : gmap Z Z :=
  EEPROM_update (idx + 3) (Z.shiftr bits 24)
    (EEPROM_update (idx + 2) (Z.shiftr bits 16)
       (EEPROM_update (idx + 1) (Z.shiftr bits 8)
          (EEPROM_update idx bits ee))).

Definition EEPROM_get_float (ee : gmap Z Z) (idx : Z) : float :=
  float_of_bits (EEPROM_get32 ee idx).
Definition EEPROM_get_long (ee : gmap Z Z) (idx : Z) : Z :=
  int32 (EEPROM_get32 ee idx).
Definition EEPROM_put_float (idx : Z) (f : float) (ee : gmap Z Z) : gmap Z Z :=
  EEPROM_put32 idx (bits_of_float f) ee.
Definition EEPROM_put_long (idx : Z) (z : Z) (ee : gmap Z Z) : gmap Z Z :=
  EEPROM_put32 idx (uint32 z) ee.

(** ** QwiicScale.h *)

Definition SCALE_OK : error_code_t := 0.
Definition SCALE_EEPROM_READ_CAL_ERROR : error_code_t := -1001.
Definition SCALE_EEPROM_READ_OFFSET_ERROR : error_code_t := -1002.
Definition SCALE_NOT_CALIBRATED_ERROR : error_code_t := -1003.

Record QwiicScale : Type := mkScale {
  useEEPROM : bool;
  calibrationDetected : bool;
  isCalibrated : bool;
  calFactorLocation : Z;
  zeroOffsetLocation : Z;
  calibrationFactor : float;
  zeroOffset : Z
}.

(** The member initialisers of the class. *)
Definition QwiicScale0 : QwiicScale := mkScale true false false 0 10 float_1 0.

Definition set_isCalibrated (b : bool) (s : QwiicScale) : QwiicScale :=
  mkScale (useEEPROM s) (calibrationDetected s) b (calFactorLocation s)
    (zeroOffsetLocation s) (calibrationFactor s) (zeroOffset s).
Definition set_calibrationDetected (b : bool) (s : QwiicScale) : QwiicScale :=
  mkScale (useEEPROM s) b (isCalibrated s) (calFactorLocation s)
    (zeroOffsetLocation s) (calibrationFactor s) (zeroOffset s).

Definition setCalibrationFactor (newCalFactor : float) (s : QwiicScale) : QwiicScale :=
  mkScale (useEEPROM s) (calibrationDetected s) (isCalibrated s) (calFactorLocation s)
    (zeroOffsetLocation s) newCalFactor (zeroOffset s).
Definition getCalibrationFactor (s : QwiicScale) : float := calibrationFactor s.

Definition setZeroOffset (newZeroOffset : Z) (s : QwiicScale) : QwiicScale :=
  mkScale (useEEPROM s) (calibrationDetected s) (isCalibrated s) (calFactorLocation s)
    (zeroOffsetLocation s) (calibrationFactor s) newZeroOffset.
Definition getZeroOffset (s : QwiicScale) : Z := zeroOffset s.

Definition setCalFactorLocation (eeprom_location : Z) (s : QwiicScale) : QwiicScale :=
  mkScale (useEEPROM s) (calibrationDetected s) (isCalibrated s) eeprom_location
    (zeroOffsetLocation s) (calibrationFactor s) (zeroOffset s).
(** [void setZeroOffsetLocation(int eeprom_location)
      {calFactorLocation = eeprom_location;}] *)
Definition setZeroOffsetLocation (eeprom_location : Z) (s : QwiicScale) : QwiicScale :=
  mkScale (useEEPROM s) (calibrationDetected s) (isCalibrated s) eeprom_location
    (zeroOffsetLocation s) (calibrationFactor s) (zeroOffset s).
Definition getZeroOffsetLocation (s : QwiicScale) : Z := zeroOffsetLocation s.

(** ** QwiicScale.cpp *)

Definition storeCalibration (s : QwiicScale) (ee : gmap Z Z) : gmap Z Z :=
  let ee := EEPROM_put_float (calFactorLocation s) (getCalibrationFactor s) ee in
  EEPROM_put_long (zeroOffsetLocation s) (getZeroOffset s) ee.

Definition readCalibration (s : QwiicScale) (ee : gmap Z Z)
    : error_code_t * QwiicScale * gmap Z Z :=
  let settingCalibrationFactor := EEPROM_get_float ee (calFactorLocation s) in
  if feq settingCalibrationFactor (float_of_long 0xFFFFFFFF)
     || isnan settingCalibrationFactor
  then
    let s := set_isCalibrated false s in
    let s := set_calibrationDetected false s in
    let s := setZeroOffset 0 s in
    let s := setCalibrationFactor float_1 s in
    let ee := EEPROM_put_float (calFactorLocation s) (calibrationFactor s) ee in
    (SCALE_EEPROM_READ_CAL_ERROR, s, ee)
  else
    let s := setCalibrationFactor settingCalibrationFactor s in
    let settingZeroOffset := EEPROM_get_long ee (zeroOffsetLocation s) in
    if (uint32 settingZeroOffset =? 0xFFFFFFFF)
       || isnan (float_of_long settingZeroOffset)
    then
      let s := set_isCalibrated false s in
      let s := set_calibrationDetected false s in
      let s := setZeroOffset 0 s in
      let s := setCalibrationFactor float_1 s in
      let ee := EEPROM_put_long (zeroOffsetLocation s) (zeroOffset s) ee in
      let ee := EEPROM_put_float (calFactorLocation s) (calibrationFactor s) ee in
      (SCALE_EEPROM_READ_OFFSET_ERROR, s, ee)
    else
      let s := setZeroOffset settingZeroOffset s in
      let s := set_calibrationDetected true s in
      let s :=
        if (zeroOffset s =? 0) || flt (fsub (calibrationFactor s) float_1) float_milli
        then set_calibrationDetected false (set_isCalibrated false s)
        else set_isCalibrated true s in
      (SCALE_OK, s, ee).

Section Scale.

Variable env : Env.

Definition getAverageWeight (fuel : nat) (average_size : Z) (allow_negative : bool)
    (s : QwiicScale) : M (outcome (result float)) :=
  if negb (isCalibrated s) then ret (Returns (Err SCALE_NOT_CALIBRATED_ERROR))
  else
    do o <- getAverageReading env fuel average_size ;
    match o with
    | Returns (Err e) => ret (Returns (Err e))
    | Returns (Ok avg_reading) =>
        let avg_reading :=
          if negb allow_negative && (avg_reading <? zeroOffset s)
          then zeroOffset s else avg_reading in
        ret (Returns (Ok (fdiv (float_of_long (int32 (avg_reading - zeroOffset s)))
                            (calibrationFactor s))))
    | DivisionByZero => ret DivisionByZero
    | OutOfFuel => ret OutOfFuel
    end.

(** [calculateZeroOffset] and [calculateCalibrationFactor] work on the
    object, the store and the bus; what they return comes with the object
    and the store as they leave them. *)
Definition calculateZeroOffset (fuel : nat) (average_size : Z)
    (s : QwiicScale) (ee : gmap Z Z)
    : M (outcome (error_code_t * QwiicScale * gmap Z Z)) :=
  do o <- getAverageReading env fuel average_size ;
  match o with
  | Returns (Err e) => ret (Returns (e, set_isCalibrated false s, ee))
  | Returns (Ok avg_offset) =>
      let s := setZeroOffset avg_offset s in
      let ee := if useEEPROM s then storeCalibration s ee else ee in
      ret (Returns (SCALE_OK, s, ee))
  | DivisionByZero => ret DivisionByZero
  | OutOfFuel => ret OutOfFuel
  end.

Definition calculateCalibrationFactor (fuel : nat) (calibration_weight_grams : float)
    (average_size : Z) (s : QwiicScale) (ee : gmap Z Z)
    : M (outcome (error_code_t * QwiicScale * gmap Z Z)) :=
  do o <- getAverageReading env fuel average_size ;
  match o with
  | Returns (Err e) => ret (Returns (e, set_isCalibrated false s, ee))
  | Returns (Ok avg_reading) =>
      let newCalFactor :=
        fdiv (float_of_long (int32 (avg_reading - zeroOffset s)))
             calibration_weight_grams in
      let s := setCalibrationFactor newCalFactor s in
      let ee := if useEEPROM s then storeCalibration s ee else ee in
      let s := set_isCalibrated true s in
      ret (Returns (SCALE_OK, s, ee))
  | DivisionByZero => ret DivisionByZero
  | OutOfFuel => ret OutOfFuel
  end.

End Scale.

(** * Vocabulary of the statements *)

(** ** Runs on the bus *)

(** The status byte of the k-th transmission after state [w]. *)
Definition status_after (env : Env) (w : Wire) (k : nat) : Z :=
  uint8 (endTransmission_ret env (n_end w + k)%nat).

(** The frame [i2c_write] queues for one attempt. *)
Definition frame (registerAddress : Z) (value : option Z) : list Z :=
  match value with
  | Some v => [uint8 registerAddress; uint8 v]
  | None => [uint8 registerAddress]
  end.

(** State after [n] attempts of [i2c_write]. *)
Definition after_attempts (n : nat) (registerAddress : Z) (value : option Z)
    (w : Wire) : Wire :=
  mkWire [] (rxBuffer w) (n_end w + n)%nat (n_req w) (n_millis w)
    (repeat (frame registerAddress value) n ++ sent w) (slept w).

(** The statuses on which the [switch] of [i2c_write] tries again. *)
Definition retried (r : Z) : bool := (r =? 1) || (r =? 2).

(** State after a register read that was acknowledged at the first
    attempt and answered. *)
Definition after_read (registerAddress : Z) (w : Wire) : Wire :=
  mkWire [] [] (n_end w + 1)%nat (S (n_req w)) (n_millis w)
    ([uint8 registerAddress] :: sent w) (slept w).

(** Elapsed time seen by the check of pass [j] of a loop that read its
    start time in state [w] and reads the clock once per pass:
    [millis() - begin] on [uint32_t]. *)
Definition elapsed (env : Env) (w : Wire) (j : nat) : Z :=
  uint32 (uint32 (millis_at env (n_millis w + 1 + j))
          - uint32 (millis_at env (n_millis w))).

(** ** What a poll of the calibration status meets *)

(** The device acknowledges transmission [a] and answers read request [b]
    with a CTRL2 byte whose CALS bit is set. *)
Definition calibrating_at (env : Env) (a b : nat) : Prop :=
  uint8 (endTransmission_ret env a) = 0 /\
  exists byte rest, requestFrom_bytes env b = byte :: rest /\
                    Z.testbit byte NAU7802_CTRL2_CALS = true.

Definition always_calibrating (env : Env) (w : Wire) : Prop :=
  forall j : nat, calibrating_at env (n_end w + j) (n_req w + j).

(** The device acknowledges transmissions [a] and [a + 1]; the first CTRL2
    byte has CALS clear, the second has CAL_ERR set. *)
Definition failed_at (env : Env) (a b : nat) : Prop :=
  uint8 (endTransmission_ret env a) = 0 /\
  uint8 (endTransmission_ret env (a + 1)) = 0 /\
  exists byte1 rest1 byte2 rest2,
    requestFrom_bytes env b = byte1 :: rest1 /\
    Z.testbit byte1 NAU7802_CTRL2_CALS = false /\
    requestFrom_bytes env (S b) = byte2 :: rest2 /\
    Z.testbit byte2 NAU7802_CTRL2_CAL_ERROR = true.

(** Transmission [a] ends with a status that [i2c_write] returns at once
    and that the driver maps to the error code [e]. *)
Definition transport_error_at (env : Env) (a : nat) (e : error_code_t) : Prop :=
  retried (uint8 (endTransmission_ret env a)) = false /\
  i2c_error (uint8 (endTransmission_ret env a)) = Some e.

(** State of the wait started in [w0] after [j] passes of its loop; the
    clock is read in the loop only when [reads]. *)
Definition wait_inv (w0 : Wire) (reads : bool) (j : nat) (w : Wire) : Prop :=
  n_end w = (n_end w0 + j)%nat /\ n_req w = (n_req w0 + j)%nat /\
  n_millis w = (n_millis w0 + 1 + (if reads then j else 0))%nat /\
  slept w = slept w0 + Z.of_nat j.

(** ** Samples *)

(** The value of a 24-bit two's-complement pattern [u]. *)
Definition sign_extend24 (u : Z) : Z := if u <? 2 ^ 23 then u else u - 2 ^ 24.

(** Conversions per second selected by the CRS field of CTRL2
    ([NAU7802_SPS_Values]). *)
Definition samples_per_second (rate : Z) : Z :=
  if rate =? NAU7802_SPS_320 then 320
  else if rate =? NAU7802_SPS_80 then 80
  else if rate =? NAU7802_SPS_40 then 40
  else if rate =? NAU7802_SPS_20 then 20
  else if rate =? NAU7802_SPS_10 then 10
  else 0.

(** ** Persisted fields *)

(** A persisted field is valid when it is neither the all-ones sentinel
    nor not-a-number: the negation of the two tests of [readCalibration]. *)
Definition valid_factor (f : float) : Prop :=
  feq f (float_of_long 0xFFFFFFFF) = false /\ isnan f = false.
Definition valid_offset (z : Z) : Prop :=
  (uint32 z =? 0xFFFFFFFF) = false /\ isnan (float_of_long z) = false.

(** ** Concrete devices and records *)

(** Every transmission ends with status [r]; nothing is ever sent back. *)
Definition env_status (r : Z) : Env := mkEnv (fun _ => r) (fun _ => []) (fun _ => 0).

(** CTRL2 always reads 0x08: CALS clear, CAL_ERR set. *)
Definition env_failed : Env := mkEnv (fun _ => 0) (fun _ => [0x08]) (fun _ => 0).

(** CTRL2 reads 0x04 (CALS set) three times, then 0x08; the clock ticks
    once per reading. *)
Definition env_fails_later : Env :=
  mkEnv (fun _ => 0)
        (fun k => if (k <? 3)%nat then [0x04] else [0x08])
        (fun k => Z.of_nat k).

(** CTRL2 reads 0x04 three times, then the bus reports a NACK on data. *)
Definition env_nack_later : Env :=
  mkEnv (fun k => if (k <? 3)%nat then 0 else 3)
        (fun _ => [0x04])
        (fun k => Z.of_nat k).

(** CTRL2 always reads 0x04: CALS set; the clock ticks once per reading. *)
Definition env_calibrating : Env :=
  mkEnv (fun _ => 0) (fun _ => [0x04]) (fun k => Z.of_nat k).

(** Every read request is answered with [bytes]. *)
Definition env_sample (bytes : list Z) : Env :=
  mkEnv (fun _ => 0) (fun _ => bytes) (fun k => Z.of_nat k).

(** CTRL2 = 0x30 when the sample rate is set, no conversion ready
    afterwards; the clock shows 0 at the first reading and 14 from then
    on. *)
Definition env_slow : Env :=
  mkEnv (fun _ => 0)
        (fun k => match k with O => [0x30] | _ => [0x00] end)
        (fun k => match k with O => 0 | _ => 14 end).

(** A conversion is always ready (PU_CTRL = 0x20) and always reads
    [bytes]; the clock stands still. *)
Definition env_weigh (bytes : list Z) : Env :=
  mkEnv (fun _ => 0) (fun k => if Nat.even k then [0x20] else bytes) (fun _ => 0).

Definition scale_1000_2 : QwiicScale := mkScale true true true 0 10 float_2 1000.

Definition ee_1000_2 : gmap Z Z :=
  storeCalibration (setCalibrationFactor float_2 (setZeroOffset 1000 QwiicScale0)) ∅.

(** The factor cells are erased; the zero offset cells hold 12345. *)
Definition ee_offset_only : gmap Z Z := EEPROM_put_long 10 12345 ∅.

(** ** Further vocabulary: bit fields and register reads *)

(** The [width] bits of [v] from bit [lo] upwards. *)
Definition bits_field (v lo width : Z) : Z := (v / 2 ^ lo) mod 2 ^ width.

(** The settings are [uint8_t] values above which the setters clamp. *)
Definition clamp7 (x : Z) : Z := if 7 <? x then 7 else x.

(** The device acknowledges transmission [a] and answers read request [b]
    with a byte whose bit [bitNumber] is [bit]. *)
Definition reads_bit_at (env : Env) (a b : nat) (bitNumber : Z) (bit : bool) : Prop :=
  uint8 (endTransmission_ret env a) = 0 /\
  exists byte rest, requestFrom_bytes env b = byte :: rest /\
                    Z.testbit byte bitNumber = bit.

(** Every byte value, for checks by enumeration. *)
Definition all_bytes : list Z := map Z.of_nat (seq 0 256).

(** The device acknowledges transmissions [a] and [a + 1]; the first CTRL2
    byte has CALS clear, the second has CAL_ERR clear. *)
Definition succeeded_at (env : Env) (a b : nat) : Prop :=
  uint8 (endTransmission_ret env a) = 0 /\
  uint8 (endTransmission_ret env (a + 1)) = 0 /\
  exists byte1 rest1 byte2 rest2,
    requestFrom_bytes env b = byte1 :: rest1 /\
    Z.testbit byte1 NAU7802_CTRL2_CALS = false /\
    requestFrom_bytes env (S b) = byte2 :: rest2 /\
    Z.testbit byte2 NAU7802_CTRL2_CAL_ERROR = false.

(** CTRL2 reads 0x04 (CALS set) three times, then 0x00; the clock ticks
    once per reading. *)
Definition env_succeeds_later : Env :=
  mkEnv (fun _ => 0)
        (fun k => if (k <? 3)%nat then [0x04] else [0x00])
        (fun k => Z.of_nat k).

(** PU_CTRL reads 0x06 (PUD and PUA set, PUR clear) until read request
    [n], and 0x0E (PUR set) from then on. *)
Definition env_power (n : nat) : Env :=
  mkEnv (fun _ => 0)
        (fun k => if (k <? n)%nat then [0x06] else [0x0E])
        (fun _ => 0).

(** ** Further vocabulary: transport errors *)

(** Status with which transmission [i] ends. *)
Definition status_at (env : Env) (i : nat) : Z := uint8 (endTransmission_ret env i).

(** Number of transmissions [i2c_write] makes when its first one is
    transmission [a]: a status 1 or 2 is tried again, twice at most. *)
Definition attempts_at (env : Env) (a : nat) : nat :=
  if retried (status_at env a) then
    if retried (status_at env (a + 1)) then 3%nat else 2%nat
  else 1%nat.

(** The status [i2c_write] comes back with: that of its last
    transmission. *)
Definition final_status_at (env : Env) (a : nat) : Z :=
  status_at env (a + attempts_at env a - 1).

(** A frame sent from transmission [a] on fails with the error [e]: the
    last status is one of 1, 2 (after three attempts), 3 and 4. *)
Definition send_fails_at (env : Env) (a : nat) (e : error_code_t) : Prop :=
  i2c_error (final_status_at env a) = Some e.

(** A read that starts at transmission [a] and read request [b] fails with
    the error [e]: the address frame fails, or it goes through and the
    device delivers no byte. *)
Definition read_fails_at (env : Env) (a b : nat) (e : error_code_t) : Prop :=
  send_fails_at env a e \/
  (i2c_error (final_status_at env a) = None /\
   requestFrom_bytes env b = [] /\ e = NAU7802_I2C_NO_DATA_ERROR).

(** State after the address frames of a read of [registerAddress] and its
    read request, when the device delivered nothing or the one byte was
    taken. *)
Definition after_request (env : Env) (registerAddress : Z) (w : Wire) : Wire :=
  mkWire [] [] (n_end w + attempts_at env (n_end w))%nat (S (n_req w)) (n_millis w)
    (repeat [uint8 registerAddress] (attempts_at env (n_end w)) ++ sent w) (slept w).

(** State in which a failed read of [registerAddress] leaves the bus: only
    address frames have gone out, and the read request is made only when
    the address went through. *)
Definition after_failed_read (env : Env) (registerAddress : Z) (w : Wire) : Wire :=
  match i2c_error (final_status_at env (n_end w)) with
  | Some _ => after_attempts (attempts_at env (n_end w)) registerAddress None w
  | None => after_request env registerAddress w
  end.

(** The first transmission (the address of a read) is acknowledged and
    answered with 0x00; every later one ends with status [r]. *)
Definition env_write_status (r : Z) : Env :=
  mkEnv (fun k => match k with O => 0 | _ => r end) (fun _ => [0x00]) (fun _ => 0).

(** CTRL2 = 0x30 when the sample rate is set, no conversion ready
    afterwards; the clock advances 6 ms per reading. *)
Definition env_slow_ticking : Env :=
  mkEnv (fun _ => 0)
        (fun k => match k with O => [0x30] | _ => [0x00] end)
        (fun k => 6 * Z.of_nat k).

(** ** Further vocabulary: runs of the averaging loop *)

(** The device acknowledges transmission [a] and answers read request [b]
    with three bytes that make the sample [v]. *)
Definition sample_at (env : Env) (a b : nat) (v : Z) : Prop :=
  uint8 (endTransmission_ret env a) = 0 /\
  exists b2 b1 b0 rest,
    requestFrom_bytes env b = b2 :: b1 :: b0 :: rest /\
    0 <= b2 < 256 /\ 0 <= b1 < 256 /\ 0 <= b0 < 256 /\
    v = sign_extend24 (b2 * 2 ^ 16 + b1 * 2 ^ 8 + b0).

(** One pass of the loop of [getAverageReading] that meets no error: the
    poll of the CR bit at transmission [a] and read request [b] finds it
    [ready]; when it is set the sample [v] is read next. *)
Definition pass_at (env : Env) (a b : nat) (ready : bool) (v : Z) : Prop :=
  reads_bit_at env a b NAU7802_PU_CTRL_CR ready /\
  (ready = true -> sample_at env (a + 1) (b + 1) v).

(** Number of passes before pass [j] that found a conversion ready. *)
Fixpoint ready_count (ready : nat -> bool) (j : nat) : nat :=
  match j with
  | O => O
  | S j' => (ready_count ready j' + (if ready j' then 1 else 0))%nat
  end.

(** Sum of the first [n] samples. *)
Fixpoint sum_first (v : nat -> Z) (n : nat) : Z :=
  match n with
  | O => 0
  | S n' => sum_first v n' + v n'
  end.

(** State of the averaging started in [w0] at the beginning of pass [j],
    with the accumulator [total]. *)
Definition average_inv (w0 : Wire) (ready : nat -> bool) (v : nat -> Z)
    (j : nat) (total : Z) (w : Wire) : Prop :=
  n_end w = (n_end w0 + j + ready_count ready j)%nat /\
  n_req w = (n_req w0 + j + ready_count ready j)%nat /\
  n_millis w = (n_millis w0 + 1 + j)%nat /\
  total = sum_first v (ready_count ready j) /\
  - Z.of_nat (ready_count ready j) * 2 ^ 23 <= total
    <= Z.of_nat (ready_count ready j) * 2 ^ 23.

(** A conversion is ready at every second poll; the samples read are 100,
    200, 300, ... (two low bytes of [100 * (i + 1)]); the clock ticks once
    per reading. Read requests alternate between polls and samples. *)
Definition env_every_second : Env :=
  mkEnv (fun _ => 0)
        (fun k =>
           match (k mod 3)%nat with
           | 0%nat => [0x00]
           | 1%nat => [0x20]
           | _ => let x := 100 * (Z.of_nat (k / 3) + 1) in [0; x / 256; x mod 256]
           end)
        (fun k => Z.of_nat k).

(** ** Further vocabulary: floats *)

(** A number, as opposed to an infinity or not-a-number. *)
Definition is_finite (f : float) : bool :=
  match f with
  | S754_zero _ | S754_finite _ _ _ => true
  | _ => false
  end.

(** Every transmission is acknowledged from transmission [n] on, none
    before; nothing is ever sent back. *)
Definition env_present_from (n : nat) : Env :=
  mkEnv (fun k => if (k <? n)%nat then 2 else 0) (fun _ => []) (fun _ => 0).

(** The four cells of the field at [a] are erased. *)
Definition erased_at (ee : gmap Z Z) (a : Z) : Prop :=
  forall i, 0 <= i < 4 -> EEPROM_read ee (a + i) = 0xFF.

(** The two persisted fields do not share a cell. *)
Definition fields_apart (s : QwiicScale) : Prop :=
  calFactorLocation s + 4 <= zeroOffsetLocation s \/
  zeroOffsetLocation s + 4 <= calFactorLocation s.

(** * Properties *)

(** ** Fixed-width integers and bits *)

Lemma uint8_range z : 0 <= uint8 z < 256.
Proof. unfold uint8. apply Z.mod_pos_bound. lia. Qed.

Lemma uint8_small z : 0 <= z < 256 -> uint8 z = z.
Proof. intros H. unfold uint8. apply Z.mod_small. lia. Qed.

Lemma uint8_idem z : uint8 (uint8 z) = uint8 z.
Proof. apply uint8_small, uint8_range. Qed.

Lemma uint32_small z : 0 <= z < 2 ^ 32 -> uint32 z = z.
Proof. intros H. unfold uint32. now apply Z.mod_small. Qed.

Lemma int32_range z : - 2 ^ 31 <= int32 z < 2 ^ 31.
Proof. unfold int32. pose proof (Z.mod_pos_bound (z + 2 ^ 31) (2 ^ 32)). lia. Qed.

Lemma land_bit x k :
  0 <= k -> Z.land x (Z.shiftl 1 k) = if Z.testbit x k then 2 ^ k else 0.
Proof.
  intros Hk. rewrite Z.shiftl_1_l. apply Z.bits_inj'. intros n Hn.
  rewrite Z.land_spec, Z.pow2_bits_eqb by lia.
  destruct (Z.eqb_spec k n) as [->|Hne].
  - destruct (Z.testbit x n); cbn.
    + now rewrite Z.pow2_bits_true.
    + now rewrite Z.testbit_0_l.
  - rewrite andb_false_r. destruct (Z.testbit x k).
    + rewrite Z.pow2_bits_false; auto.
    + now rewrite Z.testbit_0_l.
Qed.

Lemma uint8_testbit x k : 0 <= k < 8 -> Z.testbit (uint8 x) k = Z.testbit x k.
Proof. intros Hk. unfold uint8. apply Z.mod_pow2_bits_low. lia. Qed.

Lemma getBit_value x k :
  0 <= k < 8 ->
  uint8 (Z.land (uint8 x) (Z.shiftl 1 k)) = if Z.testbit x k then 2 ^ k else 0.
Proof.
  intros Hk. rewrite land_bit, uint8_testbit by lia.
  destruct (Z.testbit x k); [|reflexivity].
  apply uint8_small. split; [apply Z.pow_nonneg; lia|].
  change 256 with (2 ^ 8). apply Z.pow_lt_mono_r; lia.
Qed.

Lemma lor_disjoint_add hi lo k :
  0 <= k -> 0 <= lo < 2 ^ k -> Z.lor (hi * 2 ^ k) lo = hi * 2 ^ k + lo.
Proof.
  intros Hk Hlo.
  assert (Hland : Z.land (hi * 2 ^ k) lo = 0).
  { apply Z.bits_inj'. intros n Hn. rewrite Z.land_spec, Z.bits_0.
    destruct (Z.lt_ge_cases n k) as [Hlt|Hge].
    - rewrite Z.mul_pow2_bits_low by lia. reflexivity.
    - rewrite <- (Z.mod_small lo (2 ^ k)) by lia.
      rewrite Z.mod_pow2_bits_high by lia. apply andb_false_r. }
  rewrite <- Z.lxor_lor by assumption. symmetry. now apply Z.add_nocarry_lxor.
Qed.

(** ** Register transport *)

Lemma i2c_write_spec env registerAddress value w :
  i2c_write env registerAddress value w =
  if retried (status_after env w 0) then
    if retried (status_after env w 1) then
      (status_after env w 2, after_attempts 3 registerAddress value w)
    else (status_after env w 1, after_attempts 2 registerAddress value w)
  else (status_after env w 0, after_attempts 1 registerAddress value w).
Proof.
  unfold i2c_write, status_after, after_attempts, retried, frame.
  replace (n_end w + 0)%nat with (n_end w) by lia.
  replace (n_end w + 1)%nat with (S (n_end w)) by lia.
  replace (n_end w + 2)%nat with (S (S (n_end w))) by lia.
  replace (n_end w + 3)%nat with (S (S (S (n_end w)))) by lia.
  destruct value;
  repeat (cbn [i2c_write_loop bind beginTransmission write endTransmission
            ret txBuffer rxBuffer n_end n_req n_millis sent slept app repeat];
          try match goal with
          | |- context [if ?c then _ else _] => destruct c
          end); reflexivity.
Qed.

Lemma getRegister_spec env registerAddress w :
  getRegister env registerAddress w =
  let (r, w1) := i2c_write env registerAddress None w in
  match i2c_error r with
  | Some e => (Err e, w1)
  | None =>
      match map uint8 (firstn 1 (requestFrom_bytes env (n_req w1))) with
      | [] => (Err NAU7802_I2C_NO_DATA_ERROR,
               mkWire (txBuffer w1) [] (n_end w1) (S (n_req w1)) (n_millis w1)
                 (sent w1) (slept w1))
      | b :: rest => (Ok (uint8 b),
               mkWire (txBuffer w1) rest (n_end w1) (S (n_req w1)) (n_millis w1)
                 (sent w1) (slept w1))
      end
  end.
Proof.
  unfold getRegister, bind. destruct (i2c_write env registerAddress None w) as [r w1].
  destruct (i2c_error r); [reflexivity|].
  unfold requestFrom, Wire_available, read, ret;
    cbn [rxBuffer txBuffer n_end n_req n_millis sent slept].
  destruct (map uint8 (firstn 1 (requestFrom_bytes env (n_req w1)))); reflexivity.
Qed.

Lemma getRegister_ack env registerAddress w b rest :
  status_after env w 0 = 0 ->
  requestFrom_bytes env (n_req w) = b :: rest ->
  getRegister env registerAddress w = (Ok (uint8 b), after_read registerAddress w).
Proof.
  intros Hs Hb. rewrite getRegister_spec, i2c_write_spec, Hs.
  cbn [retried Z.eqb orb i2c_error after_attempts n_req]. rewrite Hb.
  cbn [firstn map]. rewrite uint8_idem. reflexivity.
Qed.

Lemma getRegister_error env registerAddress w e :
  transport_error_at env (n_end w) e ->
  getRegister env registerAddress w = (Err e, after_attempts 1 registerAddress None w).
Proof.
  intros [Hr He]. rewrite getRegister_spec, i2c_write_spec. unfold status_after.
  rewrite Nat.add_0_r, Hr, He. reflexivity.
Qed.

Lemma i2c_error_negative r e : i2c_error r = Some e -> e < 0.
Proof.
  unfold i2c_error.
  repeat match goal with
  | |- context [if ?c then _ else _] => destruct c
  end; intros [= <-]; reflexivity || discriminate.
Qed.

(** C4 (code defect). The claim has the two negative-acknowledgement
    statuses retried up to 3 times and every other status surfaced at once.
    The [switch] of [i2c_write] retries on the statuses 1 and 2, which the
    driver itself names data-too-big and NACK-on-address: a NACK on data
    (status 3) at the first attempt is surfaced after that single
    transmission, and a data-too-big status is retried, the error coming
    out after three transmissions. *)
Theorem getRegister_retry_classes env registerAddress w :
  (status_after env w 0 = 3 ->
   getRegister env registerAddress w =
   (Err NAU7802_I2C_NACK_DATA_ERROR, after_attempts 1 registerAddress None w)) /\
  (status_after env w 0 = 1 -> status_after env w 1 = 1 -> status_after env w 2 = 1 ->
   getRegister env registerAddress w =
   (Err NAU7802_I2C_DATA_TOO_BIG_ERROR, after_attempts 3 registerAddress None w)).
Proof.
  split.
  - intros H0. rewrite getRegister_spec, i2c_write_spec, H0. reflexivity.
  - intros H0 H1 H2. rewrite getRegister_spec, i2c_write_spec, H0, H1, H2. reflexivity.
Qed.

Lemma getRegister_retry_classes_witness :
  (status_after (env_status 3) Wire0 0 = 3 /\
   getRegister (env_status 3) NAU7802_CTRL2 Wire0 =
     (Err NAU7802_I2C_NACK_DATA_ERROR, after_attempts 1 NAU7802_CTRL2 None Wire0)) /\
  (status_after (env_status 1) Wire0 2 = 1 /\
   getRegister (env_status 1) NAU7802_CTRL2 Wire0 =
     (Err NAU7802_I2C_DATA_TOO_BIG_ERROR, after_attempts 3 NAU7802_CTRL2 None Wire0)).
Proof.
  split; (split; [reflexivity|]).
  - apply (proj1 (getRegister_retry_classes (env_status 3) NAU7802_CTRL2 Wire0)).
    reflexivity.
  - apply (proj2 (getRegister_retry_classes (env_status 1) NAU7802_CTRL2 Wire0));
      reflexivity.
Defined.

(** The other two retry facts: a NACK on the address is retried, a generic
    bus error is not. *)
Lemma i2c_write_nack_addr_retried env registerAddress value w :
  status_after env w 0 = 2 -> status_after env w 1 = 2 ->
  i2c_write env registerAddress value w =
  (status_after env w 2, after_attempts 3 registerAddress value w).
Proof. intros H0 H1. rewrite i2c_write_spec, H0, H1. reflexivity. Qed.

Lemma i2c_write_bus_error_immediate env registerAddress value w :
  status_after env w 0 = 4 ->
  i2c_write env registerAddress value w = (4, after_attempts 1 registerAddress value w).
Proof. intros H0. rewrite i2c_write_spec, H0. reflexivity. Qed.

(** ** Bit accessors *)

Lemma getBit_ack env bitNumber registerAddress w b rest :
  0 <= bitNumber < 8 ->
  status_after env w 0 = 0 ->
  requestFrom_bytes env (n_req w) = b :: rest ->
  getBit env bitNumber registerAddress w =
  (Ok (if Z.testbit b bitNumber then 2 ^ bitNumber else 0), after_read registerAddress w).
Proof.
  intros Hk Hs Hb. unfold getBit, bind. rewrite (getRegister_ack _ _ _ _ _ Hs Hb).
  unfold ret. rewrite getBit_value by lia. reflexivity.
Qed.

Lemma getBit_error env bitNumber registerAddress w e :
  transport_error_at env (n_end w) e ->
  getBit env bitNumber registerAddress w
  = (Err e, after_attempts 1 registerAddress None w).
Proof. intros H. unfold getBit, bind. rewrite (getRegister_error _ _ _ _ H). reflexivity. Qed.

(** ** Calibration state machine *)

Lemma calAFEStatus_in_progress env w :
  calibrating_at env (n_end w) (n_req w) ->
  calAFEStatus env w = (NAU7802_CAL_IN_PROGRESS, after_read NAU7802_CTRL2 w).
Proof.
  intros [Hs (b & rest & Hb & Hbit)]. unfold calAFEStatus, bind.
  rewrite (getBit_ack env _ _ w b rest); [| unfold NAU7802_CTRL2_CALS; lia
    | unfold status_after; now rewrite Nat.add_0_r | assumption].
  rewrite Hbit. reflexivity.
Qed.

Lemma calAFEStatus_failed env w :
  failed_at env (n_end w) (n_req w) ->
  fst (calAFEStatus env w) = NAU7802_CAL_FAILURE.
Proof.
  intros (Hs1 & Hs2 & b1 & rest1 & b2 & rest2 & Hb1 & Hbit1 & Hb2 & Hbit2).
  unfold calAFEStatus, bind.
  rewrite (getBit_ack env _ _ w b1 rest1); [| unfold NAU7802_CTRL2_CALS; lia
    | unfold status_after; now rewrite Nat.add_0_r | assumption].
  rewrite Hbit1. cbn [Z.eqb negb].
  rewrite (getBit_ack env _ _ _ b2 rest2); [| unfold NAU7802_CTRL2_CAL_ERROR; lia
    | unfold status_after; cbn [after_read n_end]; now rewrite Nat.add_0_r
    | assumption].
  rewrite Hbit2. reflexivity.
Qed.

Lemma calAFEStatus_transport_error env w e :
  transport_error_at env (n_end w) e ->
  fst (calAFEStatus env w) = e.
Proof.
  intros H. unfold calAFEStatus, bind. rewrite (getBit_error _ _ _ _ _ H). reflexivity.
Qed.

Lemma waitForCalibrateAFE_loop_eq env fuel timeout_ms begin :
  waitForCalibrateAFE_loop env fuel timeout_ms begin =
  (do cal_status <- calAFEStatus env ;
   if cal_status =? NAU7802_CAL_IN_PROGRESS then
     do expired <-
       (if 0 <? timeout_ms
        then do now <- millis env ; ret (timeout_ms <? uint32 (now - begin))
        else ret false) ;
     if expired then ret (Returns NAU7802_CAL_AFE_ERROR)
     else
       delay 1 ;;
       match fuel with
       | O => ret OutOfFuel
       | S fuel' => waitForCalibrateAFE_loop env fuel' timeout_ms begin
       end
   else ret (Returns NAU7802_OK)).
Proof. destruct fuel; reflexivity. Qed.

(** Whatever the polls report, the wait returns only [NAU7802_OK] or, with
    a timeout given, [NAU7802_CAL_AFE_ERROR]. *)
Lemma waitForCalibrateAFE_loop_returns env timeout_ms begin fuel :
  forall w e,
  fst (waitForCalibrateAFE_loop env fuel timeout_ms begin w) = Returns e ->
  e = NAU7802_OK \/ (e = NAU7802_CAL_AFE_ERROR /\ 0 < timeout_ms).
Proof.
  induction fuel as [|fuel IH]; intros w e; rewrite waitForCalibrateAFE_loop_eq;
    unfold bind; destruct (calAFEStatus env w) as [st w1];
    (destruct (st =? NAU7802_CAL_IN_PROGRESS);
     [|cbn; intros [= <-]; now left]);
    destruct (Z.ltb_spec 0 timeout_ms) as [Hpos|Hzero];
    unfold millis, ret, delay; cbn [fst snd];
    try (destruct (timeout_ms <? _); cbn [fst];
         [intros [= <-]; right; split; [reflexivity|assumption]|]);
    try discriminate; try apply IH.
Qed.

Lemma waitForCalibrateAFE_returns env timeout_ms fuel w e :
  fst (waitForCalibrateAFE env fuel timeout_ms w) = Returns e ->
  e = NAU7802_OK \/ (e = NAU7802_CAL_AFE_ERROR /\ 0 < timeout_ms).
Proof.
  unfold waitForCalibrateAFE, bind, millis. apply waitForCalibrateAFE_loop_returns.
Qed.

Section WaitLoop.

Variables (env : Env) (w0 : Wire) (timeout_ms : Z) (k : nat).
Hypothesis Hcal :
  forall j, (j < k)%nat -> calibrating_at env (n_end w0 + j) (n_req w0 + j).
Hypothesis Hbefore :
  0 < timeout_ms -> forall j, (j < k)%nat -> elapsed env w0 j <= timeout_ms.

(** The first [k] passes of the loop poll, find the calibration running
    and the time not over, and sleep. *)
Lemma wait_loop_skip :
  forall d j fuel w, (j + d = k)%nat -> (d <= fuel)%nat ->
  wait_inv w0 (0 <? timeout_ms) j w ->
  exists w', wait_inv w0 (0 <? timeout_ms) k w' /\
    waitForCalibrateAFE_loop env fuel timeout_ms
      (uint32 (millis_at env (n_millis w0))) w
    = waitForCalibrateAFE_loop env (fuel - d) timeout_ms
        (uint32 (millis_at env (n_millis w0))) w'.
Proof.
  induction d as [|d IH]; intros j fuel w Hj Hfuel Hinv.
  - exists w. replace k with j by lia. rewrite Nat.sub_0_r. split; [assumption|reflexivity].
  - destruct fuel as [|fuel]; [lia|].
    destruct Hinv as (He & Hr & Hm & Hs).
    rewrite waitForCalibrateAFE_loop_eq. unfold bind at 1.
    rewrite calAFEStatus_in_progress by (rewrite He, Hr; apply Hcal; lia).
    cbn [Z.eqb NAU7802_CAL_IN_PROGRESS Pos.eqb]. unfold bind at 1.
    destruct (Z.ltb_spec 0 timeout_ms) as [Hpos|Hzero].
    + unfold bind at 1. unfold millis, ret. cbn [after_read n_millis]. rewrite Hm.
      change (uint32 (uint32 (millis_at env (n_millis w0 + 1 + j))
                      - uint32 (millis_at env (n_millis w0))))
        with (elapsed env w0 j).
      destruct (Z.ltb_spec timeout_ms (elapsed env w0 j)) as [Hlt|_].
      { specialize (Hbefore Hpos j ltac:(lia)). lia. }
      unfold bind, delay. cbn [txBuffer rxBuffer n_end n_req n_millis sent slept after_read].
      apply (IH (S j)); [lia | lia |].
      unfold wait_inv; cbn [n_end n_req n_millis slept]. rewrite He, Hr, Hs.
      repeat split; lia.
    + unfold bind, ret, delay.
      cbn [txBuffer rxBuffer n_end n_req n_millis sent slept after_read].
      apply (IH (S j)); [lia | lia |].
      unfold wait_inv; cbn [n_end n_req n_millis slept]. rewrite He, Hr, Hs, Hm.
      repeat split; lia.
Qed.

(** The wait as a whole, up to pass [k]. *)
Lemma wait_skip fuel :
  (k <= fuel)%nat ->
  exists w', wait_inv w0 (0 <? timeout_ms) k w' /\
    waitForCalibrateAFE env fuel timeout_ms w0
    = waitForCalibrateAFE_loop env (fuel - k) timeout_ms
        (uint32 (millis_at env (n_millis w0))) w'.
Proof.
  intros Hfuel. unfold waitForCalibrateAFE, bind, millis.
  apply (wait_loop_skip k 0%nat); [lia | assumption |].
  unfold wait_inv; cbn [n_end n_req n_millis slept].
  destruct (0 <? timeout_ms); repeat split; lia.
Qed.

End WaitLoop.

(** C1 (code defect). The claim has a wait in which a poll reports the
    Failed state return a calibration-failure error, and a transport error
    met while polling come out unchanged. [waitForCalibrateAFE] stores the
    status of each poll in [cal_status] and never looks at it once the loop
    is left: after any number [k] of polls that found the calibration
    running, a poll that reports [NAU7802_CAL_FAILURE], or one that fails
    with the transport error [e], makes the wait return [NAU7802_OK]. *)
Theorem waitForCalibrateAFE_failure_gives_ok env w timeout_ms (k fuel : nat) e :
  (forall j, (j < k)%nat -> calibrating_at env (n_end w + j) (n_req w + j)) ->
  (0 < timeout_ms -> forall j, (j < k)%nat -> elapsed env w j <= timeout_ms) ->
  failed_at env (n_end w + k) (n_req w + k) \/
  transport_error_at env (n_end w + k) e ->
  (k <= fuel)%nat ->
  fst (waitForCalibrateAFE env fuel timeout_ms w) = Returns NAU7802_OK.
Proof.
  intros Hcal Hbefore Hpoll Hfuel.
  destruct (wait_skip env w timeout_ms k Hcal Hbefore fuel Hfuel)
    as (w' & (He & Hr & _ & _) & ->).
  rewrite waitForCalibrateAFE_loop_eq. unfold bind.
  destruct (calAFEStatus env w') as [st w1] eqn:Hst.
  assert (Hne : (st =? NAU7802_CAL_IN_PROGRESS) = false).
  { apply Z.eqb_neq. replace st with (fst (calAFEStatus env w')) by now rewrite Hst.
    destruct Hpoll as [Hfailed | Herr].
    - rewrite calAFEStatus_failed by (rewrite He, Hr; assumption). discriminate.
    - rewrite (calAFEStatus_transport_error env w' e) by (rewrite He; assumption).
      destruct Herr as [_ Herr]. apply i2c_error_negative in Herr.
      unfold NAU7802_CAL_IN_PROGRESS. lia. }
  rewrite Hne. reflexivity.
Qed.

Lemma env_fails_later_calibrating j :
  (j < 3)%nat -> calibrating_at env_fails_later (n_end Wire0 + j) (n_req Wire0 + j).
Proof.
  intros Hj. split; [reflexivity|]. exists 0x04, []. split; [|reflexivity].
  cbn [requestFrom_bytes env_fails_later n_req Wire0 Nat.add].
  destruct (Nat.ltb_spec j 3); [reflexivity | lia].
Qed.

Lemma env_nack_later_calibrating j :
  (j < 3)%nat -> calibrating_at env_nack_later (n_end Wire0 + j) (n_req Wire0 + j).
Proof.
  intros Hj. split; [|exists 0x04, []; split; reflexivity].
  cbn [endTransmission_ret env_nack_later n_end Wire0 Nat.add].
  destruct (Nat.ltb_spec j 3); [reflexivity | lia].
Qed.

Lemma elapsed_ticking bytes status j :
  (j < 1000)%nat ->
  elapsed (mkEnv status bytes (fun k => Z.of_nat k)) Wire0 j = Z.of_nat j + 1.
Proof.
  intros Hj. unfold elapsed, uint32; cbn [millis_at n_millis Wire0].
  change (2 ^ 32) with 4294967296. Z.to_euclidean_division_equations. lia.
Qed.

Lemma waitForCalibrateAFE_failure_gives_ok_witness :
  (failed_at env_fails_later 3 3 /\
   fst (waitForCalibrateAFE env_fails_later 3 1000 Wire0) = Returns NAU7802_OK) /\
  (transport_error_at env_nack_later 3 NAU7802_I2C_NACK_DATA_ERROR /\
   fst (waitForCalibrateAFE env_nack_later 3 1000 Wire0) = Returns NAU7802_OK).
Proof.
  assert (Hf : failed_at env_fails_later 3 3).
  { split; [reflexivity|]. split; [reflexivity|].
    exists 0x08, [], 0x08, []. repeat split; reflexivity. }
  assert (Ht : transport_error_at env_nack_later 3 NAU7802_I2C_NACK_DATA_ERROR)
    by (split; reflexivity).
  split; (split; [assumption|]).
  - apply (waitForCalibrateAFE_failure_gives_ok env_fails_later Wire0 1000 3 3 0).
    + apply env_fails_later_calibrating.
    + intros _ j Hj. unfold env_fails_later. rewrite elapsed_ticking; lia.
    + left. exact Hf.
    + lia.
  - apply (waitForCalibrateAFE_failure_gives_ok env_nack_later Wire0 1000 3 3
             NAU7802_I2C_NACK_DATA_ERROR).
    + apply env_nack_later_calibrating.
    + intros _ j Hj. unfold env_nack_later. rewrite elapsed_ticking; lia.
    + right. exact Ht.
    + lia.
Defined.

(** The same through the synchronous entry point: the device reports a
    failed calibration and [calibrateAFE] returns [NAU7802_OK]. *)
Example calibrateAFE_failed_device :
  fst (calAFEStatus env_failed Wire0) = NAU7802_CAL_FAILURE /\
  fst (calibrateAFE env_failed 0 Wire0) = Returns NAU7802_OK.
Proof. split; vm_compute; reflexivity. Qed.

Lemma env_calibrating_always w : always_calibrating env_calibrating w.
Proof. intros j. split; [reflexivity|]. exists 0x04, []. split; reflexivity. Qed.

(** C2 (as amended). While every poll finds the calibration running:
    with [timeout_ms > 0] the wait returns at the first pass [k] whose
    clock reading shows more than [timeout_ms] elapsed, after [k + 1] polls
    and [k] sleeps of 1 ms, and what it returns is [NAU7802_CAL_AFE_ERROR],
    the one error code the driver has for the calibration of the front
    end, which differs from [NAU7802_OK]; with [timeout_ms = 0] it never
    returns, whatever the number of passes allowed. *)
Theorem waitForCalibrateAFE_timeout env w timeout_ms :
  always_calibrating env w ->
  (0 < timeout_ms ->
   forall (k fuel : nat),
   (forall j, (j < k)%nat -> elapsed env w j <= timeout_ms) ->
   timeout_ms < elapsed env w k ->
   (k <= fuel)%nat ->
   exists w', waitForCalibrateAFE env fuel timeout_ms w
              = (Returns NAU7802_CAL_AFE_ERROR, w') /\
              n_end w' = (n_end w + k + 1)%nat /\ slept w' = slept w + Z.of_nat k) /\
  NAU7802_CAL_AFE_ERROR <> NAU7802_OK /\
  (timeout_ms = 0 ->
   forall fuel, fst (waitForCalibrateAFE env fuel timeout_ms w) = OutOfFuel).
Proof.
  intros Hcal. split; [|split; [discriminate|]].
  - intros Hpos k fuel Hbefore Hat Hfuel.
    destruct (wait_skip env w timeout_ms k (fun j _ => Hcal j) (fun _ => Hbefore)
                fuel Hfuel) as (w' & Hinv & ->).
    destruct (Z.ltb_spec 0 timeout_ms) as [_|]; [|lia].
    destruct Hinv as (He & Hr & Hm & Hs).
    rewrite waitForCalibrateAFE_loop_eq. unfold bind.
    rewrite calAFEStatus_in_progress by (rewrite He, Hr; apply Hcal).
    cbn [Z.eqb NAU7802_CAL_IN_PROGRESS Pos.eqb].
    destruct (Z.ltb_spec 0 timeout_ms) as [_|]; [|lia].
    unfold millis, ret. cbn [after_read n_millis]. rewrite Hm.
    change (uint32 (uint32 (millis_at env (n_millis w + 1 + k))
                    - uint32 (millis_at env (n_millis w))))
      with (elapsed env w k).
    destruct (Z.ltb_spec timeout_ms (elapsed env w k)) as [_|]; [|lia].
    eexists. split; [reflexivity|]. cbn [n_end slept after_read].
    rewrite He, Hs. split; lia.
  - intros -> fuel.
    destruct (wait_skip env w 0 fuel (fun j _ => Hcal j)
                (fun H => False_ind _ (Z.lt_irrefl 0 H)) fuel (Nat.le_refl fuel))
      as (w' & (He & Hr & _ & _) & ->).
    rewrite Nat.sub_diag, waitForCalibrateAFE_loop_eq. unfold bind.
    rewrite calAFEStatus_in_progress by (rewrite He, Hr; apply Hcal).
    reflexivity.
Qed.

Lemma waitForCalibrateAFE_timeout_witness :
  always_calibrating env_calibrating Wire0 /\
  (exists w', waitForCalibrateAFE env_calibrating 100 100 Wire0
              = (Returns NAU7802_CAL_AFE_ERROR, w') /\
              n_end w' = 101%nat /\ slept w' = 100) /\
  (forall fuel, fst (waitForCalibrateAFE env_calibrating fuel 0 Wire0) = OutOfFuel).
Proof.
  split; [apply env_calibrating_always|]. split.
  - apply (proj1 (waitForCalibrateAFE_timeout env_calibrating Wire0 100
                    (env_calibrating_always Wire0)) ltac:(lia) 100%nat 100%nat).
    + intros j Hj. unfold env_calibrating. rewrite elapsed_ticking; lia.
    + unfold env_calibrating. rewrite elapsed_ticking; lia.
    + lia.
  - apply (proj2 (proj2 (waitForCalibrateAFE_timeout env_calibrating Wire0 0
                           (env_calibrating_always Wire0)))).
    reflexivity.
Defined.

(** C2 as stated does not hold: with the calibration running for ever and
    a timeout of 100 ms, the code that comes back is the calibration error
    code itself, not a code apart from it. *)
Lemma waitForCalibrateAFE_timeout_not_distinct :
  always_calibrating env_calibrating Wire0 /\
  fst (waitForCalibrateAFE env_calibrating 200 100 Wire0)
  = Returns NAU7802_CAL_AFE_ERROR /\
  ~ (exists e, fst (waitForCalibrateAFE env_calibrating 200 100 Wire0) = Returns e /\
               e <> NAU7802_CAL_AFE_ERROR /\ e <> NAU7802_OK).
Proof.
  assert (H : fst (waitForCalibrateAFE env_calibrating 200 100 Wire0)
              = Returns NAU7802_CAL_AFE_ERROR) by (vm_compute; reflexivity).
  split; [apply env_calibrating_always|]. split; [exact H|].
  intros (e & He & Hne & _). rewrite H in He. injection He as <-. now apply Hne.
Qed.

(** ** Reading pipeline *)

Lemma decode24 b2 b1 b0 :
  0 <= b2 < 256 -> 0 <= b1 < 256 -> 0 <= b0 < 256 ->
  Z.shiftr
    (int32 (Z.shiftl
              (Z.lor (Z.lor (uint32 (Z.shiftl (uint32 b2) 16))
                            (uint32 (Z.shiftl (uint32 b1) 8)))
                     (uint32 b0)) 8)) 8
  = sign_extend24 (b2 * 2 ^ 16 + b1 * 2 ^ 8 + b0).
Proof.
  intros H2 H1 H0.
  rewrite !Z.shiftl_mul_pow2, Z.shiftr_div_pow2 by lia.
  rewrite (uint32_small b2), (uint32_small b1), (uint32_small b0) by lia.
  rewrite (uint32_small (b2 * 2 ^ 16)), (uint32_small (b1 * 2 ^ 8)) by lia.
  rewrite (lor_disjoint_add b2 (b1 * 2 ^ 8) 16) by lia.
  replace (b2 * 2 ^ 16 + b1 * 2 ^ 8) with ((b2 * 2 ^ 8 + b1) * 2 ^ 8) by ring.
  rewrite (lor_disjoint_add _ b0 8) by lia.
  set (u := (b2 * 2 ^ 8 + b1) * 2 ^ 8 + b0).
  assert (Hu : 0 <= u < 2 ^ 24) by (unfold u; lia).
  unfold int32, sign_extend24. clearbody u.
  destruct (Z.ltb_spec u (2 ^ 23)); Z.to_euclidean_division_equations; lia.
Qed.

Lemma sign_extend24_range u :
  0 <= u < 2 ^ 24 -> - 2 ^ 23 <= sign_extend24 u <= 2 ^ 23 - 1.
Proof. intros Hu. unfold sign_extend24. destruct (Z.ltb_spec u (2 ^ 23)); lia. Qed.

Lemma getReading_ack env w b2 b1 b0 rest :
  status_after env w 0 = 0 ->
  requestFrom_bytes env (n_req w) = b2 :: b1 :: b0 :: rest ->
  0 <= b2 < 256 -> 0 <= b1 < 256 -> 0 <= b0 < 256 ->
  getReading env w =
  (Ok (sign_extend24 (b2 * 2 ^ 16 + b1 * 2 ^ 8 + b0)), after_read NAU7802_ADCO_B2 w).
Proof.
  intros Hs Hb H2 H1 H0. unfold getReading, bind. rewrite i2c_write_spec, Hs.
  cbn [retried Z.eqb orb i2c_error]. unfold requestFrom, Wire_available, read, ret.
  cbn [after_attempts txBuffer rxBuffer n_end n_req n_millis sent slept]. rewrite Hb.
  cbn [firstn map length rxBuffer txBuffer n_end n_req n_millis sent slept].
  match goal with
  | |- context [Z.of_nat ?n =? 0] => destruct (Z.eqb_spec (Z.of_nat n) 0); [lia|]
  end.
  cbn [rxBuffer txBuffer n_end n_req n_millis sent slept].
  rewrite !uint8_small by assumption.
  rewrite decode24 by assumption. reflexivity.
Qed.

(** Whatever the bus delivers, a value that [getReading] hands out fits
    24 bits. *)
Lemma getReading_range env w v :
  fst (getReading env w) = Ok v -> - 2 ^ 23 <= v <= 2 ^ 23 - 1.
Proof.
  unfold getReading, bind. destruct (i2c_write env NAU7802_ADCO_B2 None w) as [r w1].
  destruct (i2c_error r); [discriminate|].
  unfold requestFrom, Wire_available, ret. cbn [rxBuffer].
  destruct (_ =? 0); [discriminate|].
  unfold read.
  repeat match goal with
  | |- context [match rxBuffer ?x with _ => _ end] =>
      let l := fresh "l" in
      remember (rxBuffer x) as l eqn:Hl; cbn [rxBuffer] in Hl; subst l
  | |- context [match ?l with [] => _ | _ :: _ => _ end] => destruct l
  end;
  cbn [fst]; intros [= <-]; rewrite Z.shiftr_div_pow2 by lia;
  match goal with
  | |- context [int32 ?x] => pose proof (int32_range x)
  end; Z.to_euclidean_division_equations; lia.
Qed.

(** C5. When the burst read is acknowledged and delivers the bytes
    [b2 b1 b0], [getReading] returns the value of the 24-bit two's
    complement pattern [b2 b1 b0], most significant byte first, and that
    value lies in [-2^23, 2^23 - 1]; every value [getReading] returns lies
    in that range; and the four patterns 7F FF FF, 80 00 00, FF FF FF and
    00 00 01 give 8388607, -8388608, -1 and 1. *)
Theorem getReading_sign_extends :
  (forall env w b2 b1 b0 rest,
     status_after env w 0 = 0 ->
     requestFrom_bytes env (n_req w) = b2 :: b1 :: b0 :: rest ->
     0 <= b2 < 256 -> 0 <= b1 < 256 -> 0 <= b0 < 256 ->
     exists v, fst (getReading env w) = Ok v /\
               v = sign_extend24 (b2 * 2 ^ 16 + b1 * 2 ^ 8 + b0) /\
               - 2 ^ 23 <= v <= 2 ^ 23 - 1) /\
  (forall env w v, fst (getReading env w) = Ok v -> - 2 ^ 23 <= v <= 2 ^ 23 - 1) /\
  fst (getReading (env_sample [0x7F; 0xFF; 0xFF]) Wire0) = Ok 8388607 /\
  fst (getReading (env_sample [0x80; 0x00; 0x00]) Wire0) = Ok (-8388608) /\
  fst (getReading (env_sample [0xFF; 0xFF; 0xFF]) Wire0) = Ok (-1) /\
  fst (getReading (env_sample [0x00; 0x00; 0x01]) Wire0) = Ok 1.
Proof.
  split; [|split; [exact getReading_range | repeat split; vm_compute; reflexivity]].
  intros env w b2 b1 b0 rest Hs Hb H2 H1 H0.
  rewrite (getReading_ack env w b2 b1 b0 rest) by assumption.
  eexists. split; [reflexivity|]. split; [reflexivity|].
  apply sign_extend24_range. lia.
Qed.

Lemma getReading_sign_extends_witness :
  status_after (env_sample [0x12; 0x34; 0x56]) Wire0 0 = 0 /\
  exists v, fst (getReading (env_sample [0x12; 0x34; 0x56]) Wire0) = Ok v /\
            v = sign_extend24 (0x12 * 2 ^ 16 + 0x34 * 2 ^ 8 + 0x56) /\
            - 2 ^ 23 <= v <= 2 ^ 23 - 1.
Proof.
  split; [reflexivity|].
  apply (proj1 getReading_sign_extends (env_sample [0x12; 0x34; 0x56]) Wire0
           0x12 0x34 0x56 []); try reflexivity; lia.
Defined.

Lemma getAverageReading_loop_eq env fuel average_size timeout startTime total samplesAquired :
  getAverageReading_loop env fuel average_size timeout startTime total samplesAquired =
  if samplesAquired <? average_size then
    do r <- available env ;
    match r with
    | Err e => ret (Returns (Err e))
    | Ok ready =>
        do step <-
          (if ready then
             do v <- getReading env ;
             match v with
             | Err e => ret (Err e)
             | Ok value => ret (Ok (int32 (total + value), uint8 (samplesAquired + 1)))
             end
           else ret (Ok (total, samplesAquired))) ;
        match step with
        | Err e => ret (Returns (Err e))
        | Ok (total', samplesAquired') =>
            do now <- millis env ;
            if timeout <? uint32 (now - startTime)
            then ret (Returns (Err NAU7802_TIMEOUT_ERROR))
            else
              match fuel with
              | O => ret OutOfFuel
              | S fuel' =>
                  getAverageReading_loop env fuel' average_size timeout startTime
                    total' samplesAquired'
              end
        end
    end
  else ret (Returns (Ok total)).
Proof. destruct fuel; reflexivity. Qed.

(** C3 (code defect). The claim has [getAverageReading] answer an
    [average_size] of 0 with an error and never divide. The function has
    no test of [average_size]: with 0 the loop is not entered and
    [total / average_size] is evaluated with a zero divisor, on every
    device and after a single reading of the clock. *)
Theorem getAverageReading_zero_divides env fuel w :
  getAverageReading env fuel 0 w = (DivisionByZero, snd (millis env w)).
Proof.
  unfold getAverageReading, bind, millis. cbn [snd].
  rewrite getAverageReading_loop_eq. reflexivity.
Qed.

(** With a positive size the division is never by zero. *)
Lemma getAverageReading_positive_no_division_by_zero env fuel average_size w :
  0 < average_size ->
  fst (getAverageReading env fuel average_size w) <> DivisionByZero.
Proof.
  intros Hpos. unfold getAverageReading, bind.
  destruct (millis env w) as [startTime w1].
  assert (Hloop : forall f t s tot smp w2,
            fst (getAverageReading_loop env f average_size t s tot smp w2)
            <> DivisionByZero).
  { induction f as [|f IH]; intros t s tot smp w2;
      rewrite getAverageReading_loop_eq; unfold bind, ret;
      (destruct (smp <? average_size); [|discriminate]);
      (destruct (available env w2) as [[ready|e] w3]; [|discriminate]);
      (destruct ready;
       [destruct (getReading env w3) as [[value|e] w4]; [|discriminate]|]);
      unfold millis; cbn [fst snd];
      (destruct (t <? _); [discriminate|]); try discriminate; apply IH. }
  specialize (Hloop fuel (getAverageReading_timeout average_size) startTime 0 0 w1).
  destruct (getAverageReading_loop _ _ _ _ _ _ _ _) as [[[total|e]| |] w2];
    cbn [fst] in *; try congruence; try discriminate.
  destruct (Z.eqb_spec average_size 0); [lia | discriminate].
Qed.

(** C8 as stated does not hold: the device is set to 10 conversions per
    second (CRS = 000 is what goes to CTRL2), so the first conversion is
    due after 100 ms; the call for one sample gives up when the clock
    shows 14 ms, exactly as it does with the device set to 80. *)
Lemma getAverageReading_budget_ignores_rate :
  let w10 := snd (setSampleRate env_slow NAU7802_SPS_10 Wire0) in
  let w80 := snd (setSampleRate env_slow NAU7802_SPS_80 Wire0) in
  hd [] (sent w10) = [NAU7802_CTRL2; 0x00] /\
  hd [] (sent w80) = [NAU7802_CTRL2; 0x30] /\
  elapsed env_slow w10 0 = 14 /\
  14 * samples_per_second NAU7802_SPS_10 < 1000 /\
  fst (getAverageReading env_slow 10 1 w10) = Returns (Err NAU7802_TIMEOUT_ERROR) /\
  fst (getAverageReading env_slow 10 1 w80) = Returns (Err NAU7802_TIMEOUT_ERROR) /\
  getAverageReading_timeout 1 = 13.
Proof. cbv zeta. repeat split; vm_compute; reflexivity. Qed.

(** ** Floating point and EEPROM cells *)

Example float_constants :
  float_of_long 1 = float_1 /\ float_of_long 2 = float_2 /\
  float_of_long 1000 = float_1000 /\ fdiv float_1 float_2 = float_half /\
  fdiv float_1 float_1000 = float_milli /\
  bits_of_float float_1 = 0x3F800000 /\ float_of_bits 0x3F800000 = float_1 /\
  float_of_bits (bits_of_float float_2) = float_2 /\
  float_of_bits (bits_of_float float_half) = float_half /\
  float_of_bits (bits_of_float float_milli) = float_milli /\
  float_of_bits (bits_of_float float_1000) = float_1000 /\
  float_of_bits 0xFFFFFFFF = S754_nan.
Proof. repeat split; vm_compute; reflexivity. Qed.

Lemma flt_fabs x y : flt (fabs x) y = true -> flt x y = true.
Proof.
  unfold flt, fabs, SFltb.
  destruct x as [[]|[]| |[] mx ex], y as [[]|[]| |[] my ey]; cbn; congruence.
Qed.

Lemma EEPROM_read_update_eq i v (ee : gmap Z Z) :
  EEPROM_read (EEPROM_update i v ee) i = uint8 v.
Proof. unfold EEPROM_read, EEPROM_update. now rewrite lookup_insert_eq. Qed.

Lemma EEPROM_read_update_ne i j v (ee : gmap Z Z) :
  i <> j -> EEPROM_read (EEPROM_update i v ee) j = EEPROM_read ee j.
Proof. intros H. unfold EEPROM_read, EEPROM_update. now rewrite lookup_insert_ne. Qed.

Lemma EEPROM_get32_put32_disjoint a b bits (ee : gmap Z Z) :
  a + 4 <= b \/ b + 4 <= a ->
  EEPROM_get32 (EEPROM_put32 a bits ee) b = EEPROM_get32 ee b.
Proof.
  intros H. unfold EEPROM_get32, EEPROM_put32.
  rewrite !EEPROM_read_update_ne by lia. reflexivity.
Qed.

Lemma EEPROM_get32_put32_same a bits (ee : gmap Z Z) :
  EEPROM_get32 (EEPROM_put32 a bits ee) a = uint32 bits.
Proof.
  unfold EEPROM_get32, EEPROM_put32.
  rewrite (EEPROM_read_update_eq (a + 3)).
  rewrite (EEPROM_read_update_ne (a + 3) (a + 2)), (EEPROM_read_update_eq (a + 2)) by lia.
  rewrite (EEPROM_read_update_ne (a + 3) (a + 1)), (EEPROM_read_update_ne (a + 2) (a + 1)),
    (EEPROM_read_update_eq (a + 1)) by lia.
  rewrite (EEPROM_read_update_ne (a + 3) a), (EEPROM_read_update_ne (a + 2) a),
    (EEPROM_read_update_ne (a + 1) a), (EEPROM_read_update_eq a) by lia.
  unfold uint8, uint32. rewrite !Z.shiftr_div_pow2 by lia.
  change (2 ^ 8) with 256. change (2 ^ 16) with 65536. change (2 ^ 24) with 16777216.
  change (2 ^ 32) with 4294967296.
  Z.to_euclidean_division_equations. lia.
Qed.

Lemma EEPROM_get_long_put_long a z (ee : gmap Z Z) :
  EEPROM_get_long (EEPROM_put_long a z ee) a = int32 z.
Proof.
  unfold EEPROM_get_long, EEPROM_put_long. rewrite EEPROM_get32_put32_same.
  unfold int32, uint32. Z.to_euclidean_division_equations. lia.
Qed.

(** ** Weight and calibration layer *)

(** C9. For a scale marked calibrated with [zeroOffset = 1000] and
    [calibrationFactor = 2.0], and [allow_negative = false]: when the
    average of the raw readings is 900, [getAverageWeight] returns
    [SCALE_OK] with the weight 0.0; when it is 3000, with the weight
    1000.0. *)
Theorem getAverageWeight_clamps_and_scales env fuel average_size s w w' :
  isCalibrated s = true ->
  zeroOffset s = 1000 ->
  calibrationFactor s = float_2 ->
  (getAverageReading env fuel average_size w = (Returns (Ok 900), w') ->
   getAverageWeight env fuel average_size false s w = (Returns (Ok float_0), w')) /\
  (getAverageReading env fuel average_size w = (Returns (Ok 3000), w') ->
   getAverageWeight env fuel average_size false s w = (Returns (Ok float_1000), w')).
Proof.
  intros Hcal Hz Hf.
  split; intros Havg; unfold getAverageWeight, bind; rewrite Hcal; cbn [negb];
    rewrite Havg, Hz, Hf; vm_compute; reflexivity.
Qed.

Lemma getAverageWeight_clamps_and_scales_witness :
  (fst (getAverageReading (env_weigh [0x00; 0x03; 0x84]) 5 1 Wire0) = Returns (Ok 900) /\
   fst (getAverageWeight (env_weigh [0x00; 0x03; 0x84]) 5 1 false scale_1000_2 Wire0)
   = Returns (Ok float_0)) /\
  (fst (getAverageReading (env_weigh [0x00; 0x0B; 0xB8]) 5 1 Wire0) = Returns (Ok 3000) /\
   fst (getAverageWeight (env_weigh [0x00; 0x0B; 0xB8]) 5 1 false scale_1000_2 Wire0)
   = Returns (Ok float_1000)).
Proof.
  split; (split; [vm_compute; reflexivity|]).
  - rewrite (proj1 (getAverageWeight_clamps_and_scales
                      (env_weigh [0x00; 0x03; 0x84]) 5 1 scale_1000_2 Wire0
                      (snd (getAverageReading (env_weigh [0x00; 0x03; 0x84]) 5 1 Wire0))
                      eq_refl eq_refl eq_refl));
      vm_compute; reflexivity.
  - rewrite (proj2 (getAverageWeight_clamps_and_scales
                      (env_weigh [0x00; 0x0B; 0xB8]) 5 1 scale_1000_2 Wire0
                      (snd (getAverageReading (env_weigh [0x00; 0x0B; 0xB8]) 5 1 Wire0))
                      eq_refl eq_refl eq_refl));
      vm_compute; reflexivity.
Defined.

(** Before any calibration the weight is refused, whatever the device
    does. *)
Lemma getAverageWeight_not_calibrated env fuel average_size allow_negative s w :
  isCalibrated s = false ->
  getAverageWeight env fuel average_size allow_negative s w
  = (Returns (Err SCALE_NOT_CALIBRATED_ERROR), w).
Proof. intros H. unfold getAverageWeight. rewrite H. reflexivity. Qed.

(** C6 (as amended). When both persisted fields read back valid,
    [readCalibration] returns [SCALE_OK], takes both values over and
    leaves the store alone; the record is marked not calibrated as soon as
    one of the two looks like its default, that is when [zeroOffset] is
    exactly zero or when the factor is within 0.001 of 1.0; it is marked
    calibrated when [zeroOffset] is not zero and the factor minus 1.0 is
    not below 0.001. *)
Theorem readCalibration_isCalibrated s ee :
  let f := EEPROM_get_float ee (calFactorLocation s) in
  let z := EEPROM_get_long ee (zeroOffsetLocation s) in
  valid_factor f -> valid_offset z ->
  exists s', readCalibration s ee = (SCALE_OK, s', ee) /\
             calibrationFactor s' = f /\ zeroOffset s' = z /\
             (z = 0 \/ flt (fabs (fsub f float_1)) float_milli = true ->
              isCalibrated s' = false) /\
             (z <> 0 -> flt (fsub f float_1) float_milli = false ->
              isCalibrated s' = true).
Proof.
  intros f z [Hf1 Hf2] [Hz1 Hz2]. unfold readCalibration.
  fold f. rewrite Hf1, Hf2. cbn [orb setCalibrationFactor zeroOffsetLocation].
  fold z. rewrite Hz1, Hz2. clearbody f z.
  cbn [orb setZeroOffset setCalibrationFactor set_calibrationDetected set_isCalibrated
         zeroOffset calibrationFactor useEEPROM calibrationDetected isCalibrated
         calFactorLocation zeroOffsetLocation].
  eexists. split; [reflexivity|].
  destruct (Z.eqb_spec z 0) as [Hz|Hz]; cbn [orb].
  - do 2 (split; [reflexivity|]). split; [reflexivity | intros Hne; contradiction].
  - destruct (flt (fsub f float_1) float_milli) eqn:Hlt;
      do 2 (split; [reflexivity|]); split.
    + reflexivity.
    + intros _ Hfalse. discriminate.
    + intros [Hzero|Habs]; [contradiction|]. apply flt_fabs in Habs. congruence.
    + reflexivity.
Qed.

Lemma readCalibration_isCalibrated_witness :
  valid_factor (EEPROM_get_float ee_1000_2 0) /\
  valid_offset (EEPROM_get_long ee_1000_2 10) /\
  exists s', readCalibration QwiicScale0 ee_1000_2 = (SCALE_OK, s', ee_1000_2) /\
             calibrationFactor s' = EEPROM_get_float ee_1000_2 0 /\
             zeroOffset s' = EEPROM_get_long ee_1000_2 10 /\
             (EEPROM_get_long ee_1000_2 10 = 0 \/
              flt (fabs (fsub (EEPROM_get_float ee_1000_2 0) float_1)) float_milli = true ->
              isCalibrated s' = false) /\
             (EEPROM_get_long ee_1000_2 10 <> 0 ->
              flt (fsub (EEPROM_get_float ee_1000_2 0) float_1) float_milli = false ->
              isCalibrated s' = true).
Proof.
  assert (Hf : valid_factor (EEPROM_get_float ee_1000_2 0))
    by (split; vm_compute; reflexivity).
  assert (Hz : valid_offset (EEPROM_get_long ee_1000_2 10))
    by (split; vm_compute; reflexivity).
  split; [exact Hf|]. split; [exact Hz|].
  exact (readCalibration_isCalibrated QwiicScale0 ee_1000_2 Hf Hz).
Defined.

(** C6 as stated does not hold: a record with zero offset 1000 and the
    factor 1.0, and a record with zero offset 0 and the factor 2.0, both
    read back valid and both are marked not calibrated. *)
Lemma readCalibration_either_default_not_calibrated :
  let ee1 := storeCalibration (setZeroOffset 1000 QwiicScale0) ∅ in
  let ee2 := storeCalibration (setCalibrationFactor float_2 QwiicScale0) ∅ in
  (valid_factor (EEPROM_get_float ee1 0) /\ valid_offset (EEPROM_get_long ee1 10) /\
   EEPROM_get_float ee1 0 = float_1 /\ EEPROM_get_long ee1 10 = 1000 /\
   isCalibrated (snd (fst (readCalibration QwiicScale0 ee1))) = false) /\
  (valid_factor (EEPROM_get_float ee2 0) /\ valid_offset (EEPROM_get_long ee2 10) /\
   EEPROM_get_float ee2 0 = float_2 /\ EEPROM_get_long ee2 10 = 0 /\
   isCalibrated (snd (fst (readCalibration QwiicScale0 ee2))) = false).
Proof.
  cbv zeta. unfold valid_factor, valid_offset. repeat split; vm_compute; reflexivity.
Qed.

(** The test on the factor has no absolute value: a factor of 0.5 is
    taken for the default as well. *)
Example readCalibration_factor_below_one :
  let ee :=
    storeCalibration (setCalibrationFactor float_half (setZeroOffset 1000 QwiicScale0)) ∅ in
  fst (fst (readCalibration QwiicScale0 ee)) = SCALE_OK /\
  isCalibrated (snd (fst (readCalibration QwiicScale0 ee))) = false.
Proof. cbv zeta. split; vm_compute; reflexivity. Qed.

(** C7 (code defect). The claim has [readCalibration], on a factor field
    that reads back as not-a-number or as the sentinel, reset both fields
    in memory, rewrite both persisted fields and return the error of the
    factor field. The branch resets both fields in memory and returns
    [SCALE_EEPROM_READ_CAL_ERROR], and writes the default factor only: the
    cells of the zero offset keep what they held. (The branch for an
    invalid zero offset writes both fields.) *)
Theorem readCalibration_bad_factor_keeps_offset_field s ee :
  let f := EEPROM_get_float ee (calFactorLocation s) in
  isnan f = true \/ feq f (float_of_long 0xFFFFFFFF) = true ->
  calFactorLocation s + 4 <= zeroOffsetLocation s \/
  zeroOffsetLocation s + 4 <= calFactorLocation s ->
  exists s' ee',
    readCalibration s ee = (SCALE_EEPROM_READ_CAL_ERROR, s', ee') /\
    zeroOffset s' = 0 /\ calibrationFactor s' = float_1 /\ isCalibrated s' = false /\
    EEPROM_get_float ee' (calFactorLocation s) = float_1 /\
    EEPROM_get_long ee' (zeroOffsetLocation s) = EEPROM_get_long ee (zeroOffsetLocation s).
Proof.
  intros f Hbad Hloc. unfold readCalibration. fold f.
  assert (Hc : feq f (float_of_long 0xFFFFFFFF) || isnan f = true).
  { destruct Hbad as [-> | ->]; [apply orb_true_r | reflexivity]. }
  rewrite Hc. clearbody f.
  cbn [setZeroOffset setCalibrationFactor set_calibrationDetected set_isCalibrated
         zeroOffset calibrationFactor useEEPROM calibrationDetected isCalibrated
         calFactorLocation zeroOffsetLocation].
  eexists. eexists. split; [reflexivity|]. do 3 (split; [reflexivity|]). split.
  - unfold EEPROM_get_float, EEPROM_put_float.
    rewrite EEPROM_get32_put32_same. reflexivity.
  - unfold EEPROM_get_long, EEPROM_put_float.
    rewrite EEPROM_get32_put32_disjoint by assumption. reflexivity.
Qed.

Lemma readCalibration_bad_factor_keeps_offset_field_witness :
  isnan (EEPROM_get_float ee_offset_only 0) = true /\
  EEPROM_get_long ee_offset_only 10 = 12345 /\
  exists s' ee',
    readCalibration QwiicScale0 ee_offset_only = (SCALE_EEPROM_READ_CAL_ERROR, s', ee') /\
    zeroOffset s' = 0 /\ calibrationFactor s' = float_1 /\ isCalibrated s' = false /\
    EEPROM_get_float ee' 0 = float_1 /\
    EEPROM_get_long ee' 10 = EEPROM_get_long ee_offset_only 10.
Proof.
  split; [vm_compute; reflexivity|]. split; [vm_compute; reflexivity|].
  apply (readCalibration_bad_factor_keeps_offset_field QwiicScale0 ee_offset_only).
  - left. vm_compute. reflexivity.
  - left. vm_compute. congruence.
Defined.

(** The sibling branch: an invalid zero offset has both fields written. *)
Lemma readCalibration_bad_offset_rewrites_both s ee :
  let f := EEPROM_get_float ee (calFactorLocation s) in
  let z := EEPROM_get_long ee (zeroOffsetLocation s) in
  valid_factor f -> uint32 z = 0xFFFFFFFF ->
  readCalibration s ee =
  (SCALE_EEPROM_READ_OFFSET_ERROR,
   mkScale (useEEPROM s) false false (calFactorLocation s) (zeroOffsetLocation s) float_1 0,
   EEPROM_put_float (calFactorLocation s) float_1
     (EEPROM_put_long (zeroOffsetLocation s) 0 ee)).
Proof.
  intros f z [Hf1 Hf2] Hz. unfold readCalibration. fold f. rewrite Hf1, Hf2.
  cbn [orb setCalibrationFactor zeroOffsetLocation]. fold z. rewrite Hz.
  reflexivity.
Qed.

(** On erased cells the first two loads report the factor, then the zero
    offset; the third finds the defaults. *)
Example readCalibration_erased_store :
  let '(e1, s1, ee1) := readCalibration QwiicScale0 ∅ in
  let '(e2, s2, ee2) := readCalibration s1 ee1 in
  let '(e3, s3, ee3) := readCalibration s2 ee2 in
  e1 = SCALE_EEPROM_READ_CAL_ERROR /\ EEPROM_get_long ee1 10 = -1 /\
  e2 = SCALE_EEPROM_READ_OFFSET_ERROR /\ EEPROM_get_long ee2 10 = 0 /\
  e3 = SCALE_OK /\ isCalibrated s3 = false.
Proof. vm_compute. repeat split; reflexivity. Qed.

(** C10 (code defect). The claim has [setZeroOffsetLocation x] move the
    place where [storeCalibration] writes the zero offset to [x] and leave
    the place of the factor alone. The setter assigns [calFactorLocation]:
    the zero offset stays where it was and is written there, and it is the
    factor that moves to [x] and is written there. *)
Theorem setZeroOffsetLocation_moves_calFactorLocation x s ee :
  let s' := setZeroOffsetLocation x s in
  let ee' := storeCalibration s' ee in
  zeroOffsetLocation s' = zeroOffsetLocation s /\
  calFactorLocation s' = x /\
  EEPROM_get_long ee' (zeroOffsetLocation s) = int32 (zeroOffset s) /\
  (x + 4 <= zeroOffsetLocation s \/ zeroOffsetLocation s + 4 <= x ->
   EEPROM_get32 ee' x = uint32 (bits_of_float (calibrationFactor s))).
Proof.
  cbv zeta. split; [reflexivity|]. split; [reflexivity|].
  unfold storeCalibration, getZeroOffset, getCalibrationFactor.
  cbn [setZeroOffsetLocation zeroOffsetLocation calFactorLocation zeroOffset
         calibrationFactor].
  split.
  - apply EEPROM_get_long_put_long.
  - intros Hloc. unfold EEPROM_put_long, EEPROM_put_float.
    rewrite EEPROM_get32_put32_disjoint by lia. apply EEPROM_get32_put32_same.
Qed.

Lemma setZeroOffsetLocation_moves_calFactorLocation_witness :
  let s' := setZeroOffsetLocation 20 scale_1000_2 in
  let ee' := storeCalibration s' ∅ in
  zeroOffsetLocation s' = 10 /\
  calFactorLocation s' = 20 /\
  EEPROM_get_long ee' 10 = 1000 /\
  EEPROM_get32 ee' 20 = 0x40000000.
Proof.
  cbv zeta.
  destruct (setZeroOffsetLocation_moves_calFactorLocation 20 scale_1000_2 ∅)
    as (H1 & H2 & H3 & H4).
  split; [exact H1|]. split; [exact H2|]. split.
  - etransitivity; [exact H3|]. vm_compute. reflexivity.
  - etransitivity; [apply H4; right; vm_compute; congruence|]. vm_compute. reflexivity.
Defined.

(** After [setZeroOffsetLocation 20] the zero offset is still written at
    10 and it is the factor that lands at 20. *)
Example setZeroOffsetLocation_20 :
  let ee := storeCalibration (setZeroOffsetLocation 20 scale_1000_2) ∅ in
  EEPROM_get_long ee 10 = 1000 /\
  EEPROM_get_float ee 20 = float_2 /\
  EEPROM_get_float ee 0 = S754_nan.
Proof. cbv zeta. repeat split; vm_compute; reflexivity. Qed.

(** After [setZeroOffsetLocation 10] the two fields share their cells and
    the factor is lost. *)
Example setZeroOffsetLocation_10_overlaps :
  let s := setZeroOffsetLocation 10 scale_1000_2 in
  let ee := storeCalibration s ∅ in
  calFactorLocation s = zeroOffsetLocation s /\
  EEPROM_get_long ee 10 = 1000 /\
  EEPROM_get_float ee (calFactorLocation s) <> float_2.
Proof. cbv zeta. repeat split; vm_compute; congruence. Qed.

(** * Further properties *)

(** ** Register transport *)

(** X1. [i2c_write] puts the same frame on the bus between one and three
    times and returns the status of the last transmission; every earlier
    transmission ended with status 1 or 2, and it stops before the third
    only on a status other than these. *)
Theorem i2c_write_attempts env registerAddress value w :
  exists n : nat,
    (1 <= n <= 3)%nat /\
    i2c_write env registerAddress value w
    = (status_after env w (n - 1), after_attempts n registerAddress value w) /\
    (forall j, (j < n - 1)%nat -> retried (status_after env w j) = true) /\
    ((n < 3)%nat -> retried (status_after env w (n - 1)) = false).
Proof.
  rewrite i2c_write_spec.
  destruct (retried (status_after env w 0)) eqn:H0;
    [destruct (retried (status_after env w 1)) eqn:H1|].
  - exists 3%nat. split; [lia|]. split; [reflexivity|]. split; [|lia].
    intros j Hj. assert (j = 0 \/ j = 1)%nat as [-> | ->] by lia; assumption.
  - exists 2%nat. split; [lia|]. split; [reflexivity|]. split; [|intros _; exact H1].
    intros j Hj. assert (j = 0)%nat as -> by lia. assumption.
  - exists 1%nat. split; [lia|]. split; [reflexivity|]. split; [|intros _; exact H0].
    intros j Hj. lia.
Qed.

(** X2. [setRegister] reports success whenever the transmission ends with
    a status that is none of 1, 2, 3, 4: with 0, and as well with any other
    value the bus library may return. One frame [register, value] has gone
    out. *)
Theorem setRegister_unlisted_status_is_ok env registerAddress value w :
  status_after env w 0 <> 1 -> status_after env w 0 <> 2 ->
  status_after env w 0 <> 3 -> status_after env w 0 <> 4 ->
  setRegister env registerAddress value w
  = (NAU7802_OK, after_attempts 1 registerAddress (Some value) w).
Proof.
  intros H1 H2 H3 H4. unfold setRegister, bind. rewrite i2c_write_spec.
  unfold retried, i2c_error.
  destruct (Z.eqb_spec (status_after env w 0) 1); [contradiction|].
  destruct (Z.eqb_spec (status_after env w 0) 2); [contradiction|].
  cbn [orb].
  destruct (Z.eqb_spec (status_after env w 0) 1); [contradiction|].
  destruct (Z.eqb_spec (status_after env w 0) 2); [contradiction|].
  destruct (Z.eqb_spec (status_after env w 0) 3); [contradiction|].
  destruct (Z.eqb_spec (status_after env w 0) 4); [contradiction|].
  reflexivity.
Qed.

Lemma setRegister_unlisted_status_is_ok_witness :
  status_after (env_status 5) Wire0 0 = 5 /\
  setRegister (env_status 5) NAU7802_CTRL1 0x27 Wire0
  = (NAU7802_OK, after_attempts 1 NAU7802_CTRL1 (Some 0x27) Wire0).
Proof.
  split; [reflexivity|].
  apply (setRegister_unlisted_status_is_ok (env_status 5) NAU7802_CTRL1 0x27 Wire0);
    vm_compute; congruence.
Defined.

Lemma setRegister_ack env registerAddress value w :
  status_after env w 0 = 0 ->
  setRegister env registerAddress value w
  = (NAU7802_OK, after_attempts 1 registerAddress (Some value) w).
Proof.
  intros H. unfold setRegister, bind. rewrite i2c_write_spec, H. reflexivity.
Qed.

(** X3. When the address goes out acknowledged and the device sends no
    byte back, [getRegister] returns [NAU7802_I2C_NO_DATA_ERROR], after
    one transmission and one read request. *)
Theorem getRegister_no_data env registerAddress w :
  status_after env w 0 = 0 ->
  requestFrom_bytes env (n_req w) = [] ->
  getRegister env registerAddress w
  = (Err NAU7802_I2C_NO_DATA_ERROR,
     mkWire [] [] (n_end w + 1)%nat (S (n_req w)) (n_millis w)
       ([uint8 registerAddress] :: sent w) (slept w)).
Proof.
  intros Hs Hb. rewrite getRegister_spec, i2c_write_spec, Hs.
  cbn [retried Z.eqb orb i2c_error after_attempts n_req]. rewrite Hb. reflexivity.
Qed.

Lemma getRegister_no_data_witness :
  getRegister (env_status 0) NAU7802_CTRL2 Wire0
  = (Err NAU7802_I2C_NO_DATA_ERROR,
     mkWire [] [] 1%nat 1%nat 0%nat [[uint8 NAU7802_CTRL2]] 0).
Proof.
  apply (getRegister_no_data (env_status 0) NAU7802_CTRL2 Wire0); reflexivity.
Defined.

(** ** Bit accessors *)

Lemma status_after_after_read env registerAddress w k :
  status_after env (after_read registerAddress w) k = status_after env w (S k).
Proof.
  unfold status_after. cbn [after_read n_end]. do 2 f_equal. lia.
Qed.

Lemma status_after_after_attempts env n registerAddress value w k :
  status_after env (after_attempts n registerAddress value w) k
  = status_after env w (n + k).
Proof.
  unfold status_after. cbn [after_attempts n_end]. do 2 f_equal. lia.
Qed.

Lemma reads_bit_getBit env w bitNumber registerAddress bit :
  0 <= bitNumber < 8 ->
  reads_bit_at env (n_end w) (n_req w) bitNumber bit ->
  getBit env bitNumber registerAddress w
  = (Ok (if bit then 2 ^ bitNumber else 0), after_read registerAddress w).
Proof.
  intros Hk [Hs (b & rest & Hb & Hbit)].
  rewrite (getBit_ack env bitNumber registerAddress w b rest Hk);
    [now rewrite Hbit | unfold status_after; now rewrite Nat.add_0_r | assumption].
Qed.

(** X4. What [getBit] hands back is the register byte masked with the
    bit, not a 0 or 1: [2 ^ bitNumber] when the bit is set in the byte
    read, 0 when it is clear. *)
Theorem getBit_returns_mask env bitNumber registerAddress w b rest :
  0 <= bitNumber < 8 ->
  status_after env w 0 = 0 ->
  requestFrom_bytes env (n_req w) = b :: rest ->
  fst (getBit env bitNumber registerAddress w)
  = Ok (if Z.testbit b bitNumber then 2 ^ bitNumber else 0).
Proof.
  intros Hk Hs Hb. now rewrite (getBit_ack env bitNumber registerAddress w b rest).
Qed.

Lemma getBit_returns_mask_witness :
  fst (getBit (env_sample [0x28]) NAU7802_PU_CTRL_CR NAU7802_PU_CTRL Wire0) = Ok 32.
Proof.
  apply (getBit_returns_mask (env_sample [0x28]) NAU7802_PU_CTRL_CR NAU7802_PU_CTRL
           Wire0 0x28 []); [unfold NAU7802_PU_CTRL_CR; lia | reflexivity | reflexivity].
Defined.

Lemma lor_bit_testbit x k j :
  0 <= k -> 0 <= j ->
  Z.testbit (Z.lor x (Z.shiftl 1 k)) j = Z.testbit x j || (k =? j).
Proof.
  intros Hk Hj. rewrite Z.lor_spec, Z.shiftl_1_l, Z.pow2_bits_eqb by lia. reflexivity.
Qed.

Lemma land_lnot_bit_testbit x k j :
  0 <= k -> 0 <= j ->
  Z.testbit (Z.land x (Z.lnot (Z.shiftl 1 k))) j = Z.testbit x j && negb (k =? j).
Proof.
  intros Hk Hj.
  rewrite Z.land_spec, Z.lnot_spec, Z.shiftl_1_l, Z.pow2_bits_eqb by lia. reflexivity.
Qed.

Lemma setBit_ack env bitNumber registerAddress w b rest :
  status_after env w 0 = 0 -> status_after env w 1 = 0 ->
  requestFrom_bytes env (n_req w) = b :: rest ->
  setBit env bitNumber registerAddress w
  = (NAU7802_OK,
     after_attempts 1 registerAddress
       (Some (uint8 (Z.lor (uint8 b) (Z.shiftl 1 bitNumber))))
       (after_read registerAddress w)).
Proof.
  intros Hs0 Hs1 Hb. unfold setBit, bind.
  rewrite (getRegister_ack _ _ _ _ _ Hs0 Hb).
  now rewrite setRegister_ack by (rewrite status_after_after_read; exact Hs1).
Qed.

Lemma clearBit_ack env bitNumber registerAddress w b rest :
  status_after env w 0 = 0 -> status_after env w 1 = 0 ->
  requestFrom_bytes env (n_req w) = b :: rest ->
  clearBit env bitNumber registerAddress w
  = (NAU7802_OK,
     after_attempts 1 registerAddress
       (Some (uint8 (Z.land (uint8 b) (Z.lnot (Z.shiftl 1 bitNumber)))))
       (after_read registerAddress w)).
Proof.
  intros Hs0 Hs1 Hb. unfold clearBit, bind.
  rewrite (getRegister_ack _ _ _ _ _ Hs0 Hb).
  now rewrite setRegister_ack by (rewrite status_after_after_read; exact Hs1).
Qed.

Lemma set_bit_value b bitNumber :
  0 <= bitNumber < 8 ->
  let v := uint8 (Z.lor (uint8 b) (Z.shiftl 1 bitNumber)) in
  Z.testbit v bitNumber = true /\
  (forall j, 0 <= j < 8 -> j <> bitNumber -> Z.testbit v j = Z.testbit b j).
Proof.
  intros Hk v. unfold v. split.
  - rewrite uint8_testbit, lor_bit_testbit, Z.eqb_refl by lia. apply orb_true_r.
  - intros j Hj Hne. rewrite uint8_testbit, lor_bit_testbit, uint8_testbit by lia.
    destruct (Z.eqb_spec bitNumber j); [congruence | apply orb_false_r].
Qed.

Lemma clear_bit_value b bitNumber :
  0 <= bitNumber < 8 ->
  let v := uint8 (Z.land (uint8 b) (Z.lnot (Z.shiftl 1 bitNumber))) in
  Z.testbit v bitNumber = false /\
  (forall j, 0 <= j < 8 -> j <> bitNumber -> Z.testbit v j = Z.testbit b j).
Proof.
  intros Hk v. unfold v. split.
  - rewrite uint8_testbit, land_lnot_bit_testbit, Z.eqb_refl by lia. apply andb_false_r.
  - intros j Hj Hne. rewrite uint8_testbit, land_lnot_bit_testbit, uint8_testbit by lia.
    destruct (Z.eqb_spec bitNumber j); [congruence | apply andb_true_r].
Qed.

(** X5. [setBit] is a read-modify-write: with both transactions
    acknowledged it writes back the byte it read with the bit set and the
    seven other bits as they were, and returns [NAU7802_OK]. *)
Theorem setBit_read_modify_write env bitNumber registerAddress w b rest :
  0 <= bitNumber < 8 ->
  status_after env w 0 = 0 -> status_after env w 1 = 0 ->
  requestFrom_bytes env (n_req w) = b :: rest ->
  exists v,
    setBit env bitNumber registerAddress w
    = (NAU7802_OK,
       after_attempts 1 registerAddress (Some v) (after_read registerAddress w)) /\
    0 <= v < 256 /\
    Z.testbit v bitNumber = true /\
    (forall j, 0 <= j < 8 -> j <> bitNumber -> Z.testbit v j = Z.testbit b j).
Proof.
  intros Hk Hs0 Hs1 Hb. eexists.
  split; [exact (setBit_ack env bitNumber registerAddress w b rest Hs0 Hs1 Hb)|].
  split; [apply uint8_range | exact (set_bit_value b bitNumber Hk)].
Qed.

Lemma setBit_read_modify_write_witness :
  exists v,
    setBit (env_sample [0x28]) NAU7802_PU_CTRL_PUD NAU7802_PU_CTRL Wire0
    = (NAU7802_OK,
       after_attempts 1 NAU7802_PU_CTRL (Some v) (after_read NAU7802_PU_CTRL Wire0)) /\
    0 <= v < 256 /\
    Z.testbit v NAU7802_PU_CTRL_PUD = true /\
    (forall j, 0 <= j < 8 -> j <> NAU7802_PU_CTRL_PUD -> Z.testbit v j = Z.testbit 0x28 j).
Proof.
  apply (setBit_read_modify_write (env_sample [0x28]) NAU7802_PU_CTRL_PUD
           NAU7802_PU_CTRL Wire0 0x28 []);
    [unfold NAU7802_PU_CTRL_PUD; lia | reflexivity | reflexivity | reflexivity].
Defined.

(** X6. [clearBit] likewise writes back the byte it read with the bit
    cleared and the seven other bits as they were. *)
Theorem clearBit_read_modify_write env bitNumber registerAddress w b rest :
  0 <= bitNumber < 8 ->
  status_after env w 0 = 0 -> status_after env w 1 = 0 ->
  requestFrom_bytes env (n_req w) = b :: rest ->
  exists v,
    clearBit env bitNumber registerAddress w
    = (NAU7802_OK,
       after_attempts 1 registerAddress (Some v) (after_read registerAddress w)) /\
    0 <= v < 256 /\
    Z.testbit v bitNumber = false /\
    (forall j, 0 <= j < 8 -> j <> bitNumber -> Z.testbit v j = Z.testbit b j).
Proof.
  intros Hk Hs0 Hs1 Hb. eexists.
  split; [exact (clearBit_ack env bitNumber registerAddress w b rest Hs0 Hs1 Hb)|].
  split; [apply uint8_range | exact (clear_bit_value b bitNumber Hk)].
Qed.

Lemma clearBit_read_modify_write_witness :
  exists v,
    clearBit (env_sample [0x28]) NAU7802_PU_CTRL_CR NAU7802_PU_CTRL Wire0
    = (NAU7802_OK,
       after_attempts 1 NAU7802_PU_CTRL (Some v) (after_read NAU7802_PU_CTRL Wire0)) /\
    0 <= v < 256 /\
    Z.testbit v NAU7802_PU_CTRL_CR = false /\
    (forall j, 0 <= j < 8 -> j <> NAU7802_PU_CTRL_CR -> Z.testbit v j = Z.testbit 0x28 j).
Proof.
  apply (clearBit_read_modify_write (env_sample [0x28]) NAU7802_PU_CTRL_CR
           NAU7802_PU_CTRL Wire0 0x28 []);
    [unfold NAU7802_PU_CTRL_CR; lia | reflexivity | reflexivity | reflexivity].
Defined.

(** *** Transport errors in general *)

Lemma i2c_write_final env registerAddress value w :
  i2c_write env registerAddress value w =
  (final_status_at env (n_end w),
   after_attempts (attempts_at env (n_end w)) registerAddress value w).
Proof.
  rewrite i2c_write_spec. unfold final_status_at, attempts_at, status_after, status_at.
  rewrite Nat.add_0_r.
  destruct (retried (uint8 (endTransmission_ret env (n_end w))));
    [destruct (retried (uint8 (endTransmission_ret env (n_end w + 1))))|].
  - replace (n_end w + 3 - 1)%nat with (n_end w + 2)%nat by lia. reflexivity.
  - replace (n_end w + 2 - 1)%nat with (n_end w + 1)%nat by lia. reflexivity.
  - replace (n_end w + 1 - 1)%nat with (n_end w) by lia. reflexivity.
Qed.

Lemma attempts_at_range env a : (1 <= attempts_at env a <= 3)%nat.
Proof.
  unfold attempts_at.
  destruct (retried (status_at env a)); [destruct (retried (status_at env (a + 1)))|]; lia.
Qed.

Lemma transport_error_send_fails env a e :
  transport_error_at env a e -> send_fails_at env a e /\ attempts_at env a = 1%nat.
Proof.
  intros [Hr He]. unfold send_fails_at, final_status_at, attempts_at, status_at.
  rewrite Hr. replace (a + 1 - 1)%nat with a by lia. split; [exact He | reflexivity].
Qed.

Lemma send_fails_negative env a e : send_fails_at env a e -> e < 0.
Proof. apply i2c_error_negative. Qed.

Lemma read_fails_negative env a b e : read_fails_at env a b e -> e < 0.
Proof.
  intros [H | (_ & _ & ->)]; [exact (send_fails_negative _ _ _ H) | reflexivity].
Qed.

Lemma getRegister_fails env registerAddress w e :
  read_fails_at env (n_end w) (n_req w) e ->
  getRegister env registerAddress w = (Err e, after_failed_read env registerAddress w).
Proof.
  intros H. rewrite getRegister_spec, i2c_write_final. unfold after_failed_read.
  destruct H as [H | (H & Hb & ->)]; unfold send_fails_at in *; rewrite H.
  - reflexivity.
  - cbn [after_attempts n_req]. rewrite Hb. reflexivity.
Qed.

Lemma getRegister_reads env registerAddress w b rest :
  i2c_error (final_status_at env (n_end w)) = None ->
  requestFrom_bytes env (n_req w) = b :: rest ->
  getRegister env registerAddress w = (Ok (uint8 b), after_request env registerAddress w).
Proof.
  intros H Hb. rewrite getRegister_spec, i2c_write_final, H.
  cbn [after_attempts n_req]. rewrite Hb. cbn [firstn map]. rewrite uint8_idem.
  reflexivity.
Qed.

(** The errors of [getRegister] are these and no others. *)
Lemma getRegister_fails_only env registerAddress w e :
  fst (getRegister env registerAddress w) = Err e ->
  read_fails_at env (n_end w) (n_req w) e.
Proof.
  rewrite getRegister_spec, i2c_write_final. unfold read_fails_at, send_fails_at.
  destruct (i2c_error (final_status_at env (n_end w))) as [e'|] eqn:He.
  - cbn [fst]. intros [= <-]. now left.
  - cbn [after_attempts n_req].
    destruct (requestFrom_bytes env (n_req w)) as [|b rest] eqn:Hb; cbn [firstn map fst].
    + intros [= <-]. right. repeat split.
    + discriminate.
Qed.

Lemma setRegister_fails env registerAddress value w e :
  send_fails_at env (n_end w) e ->
  setRegister env registerAddress value w
  = (e, after_attempts (attempts_at env (n_end w)) registerAddress (Some value) w).
Proof.
  intros H. unfold setRegister, bind. rewrite i2c_write_final.
  unfold send_fails_at in H. rewrite H. reflexivity.
Qed.

Lemma setBit_fails env bitNumber registerAddress w e :
  read_fails_at env (n_end w) (n_req w) e ->
  setBit env bitNumber registerAddress w = (e, after_failed_read env registerAddress w).
Proof.
  intros H. unfold setBit, bind. now rewrite (getRegister_fails _ _ _ _ H).
Qed.

Lemma clearBit_fails env bitNumber registerAddress w e :
  read_fails_at env (n_end w) (n_req w) e ->
  clearBit env bitNumber registerAddress w = (e, after_failed_read env registerAddress w).
Proof.
  intros H. unfold clearBit, bind. now rewrite (getRegister_fails _ _ _ _ H).
Qed.

Lemma getBit_fails env bitNumber registerAddress w e :
  read_fails_at env (n_end w) (n_req w) e ->
  getBit env bitNumber registerAddress w = (Err e, after_failed_read env registerAddress w).
Proof.
  intros H. unfold getBit, bind. now rewrite (getRegister_fails _ _ _ _ H).
Qed.

Lemma after_failed_read_frames env registerAddress w :
  sent (after_failed_read env registerAddress w)
  = repeat [uint8 registerAddress] (attempts_at env (n_end w)) ++ sent w /\
  slept (after_failed_read env registerAddress w) = slept w /\
  n_millis (after_failed_read env registerAddress w) = n_millis w.
Proof.
  unfold after_failed_read, after_request, after_attempts, frame.
  destruct (i2c_error _); repeat split.
Qed.

(** X7. A read-modify-write is given up when the read fails: whatever
    way the read of the register fails (status 3 or 4, status 1 or 2 still
    after three attempts, or no byte delivered), [setBit] and [clearBit]
    return the error of the read, and what has gone out is one to three
    one-byte address frames and no write. *)
Theorem setBit_clearBit_read_error env bitNumber registerAddress w e :
  read_fails_at env (n_end w) (n_req w) e ->
  setBit env bitNumber registerAddress w
  = (e, after_failed_read env registerAddress w) /\
  clearBit env bitNumber registerAddress w
  = (e, after_failed_read env registerAddress w) /\
  sent (after_failed_read env registerAddress w)
  = repeat [uint8 registerAddress] (attempts_at env (n_end w)) ++ sent w /\
  (1 <= attempts_at env (n_end w) <= 3)%nat.
Proof.
  intros H. split; [now apply setBit_fails|]. split; [now apply clearBit_fails|].
  split; [apply after_failed_read_frames | apply attempts_at_range].
Qed.

Lemma setBit_clearBit_read_error_witness :
  (read_fails_at (env_status 2) 0 0 NAU7802_I2C_NACK_ADDR_ERROR /\
   setBit (env_status 2) NAU7802_CTRL2_CALS NAU7802_CTRL2 Wire0
   = (NAU7802_I2C_NACK_ADDR_ERROR, after_attempts 3 NAU7802_CTRL2 None Wire0)) /\
  (read_fails_at (env_sample []) 0 0 NAU7802_I2C_NO_DATA_ERROR /\
   clearBit (env_sample []) NAU7802_CTRL2_CALS NAU7802_CTRL2 Wire0
   = (NAU7802_I2C_NO_DATA_ERROR, mkWire [] [] 1 1 0 [[NAU7802_CTRL2]] 0)).
Proof.
  assert (H2 : read_fails_at (env_status 2) 0 0 NAU7802_I2C_NACK_ADDR_ERROR)
    by (left; reflexivity).
  assert (H5 : read_fails_at (env_sample []) 0 0 NAU7802_I2C_NO_DATA_ERROR)
    by (right; repeat split).
  split; (split; [assumption|]).
  - exact (proj1 (setBit_clearBit_read_error (env_status 2) NAU7802_CTRL2_CALS
                    NAU7802_CTRL2 Wire0 NAU7802_I2C_NACK_ADDR_ERROR H2)).
  - exact (proj1 (proj2 (setBit_clearBit_read_error (env_sample []) NAU7802_CTRL2_CALS
                           NAU7802_CTRL2 Wire0 NAU7802_I2C_NO_DATA_ERROR H5))).
Defined.

(** ** Settings *)

Lemma forall_bytes (P : Z -> bool) :
  forallb P all_bytes = true -> forall b, 0 <= b < 256 -> P b = true.
Proof.
  intros H b Hb. rewrite forallb_forall in H. apply H. unfold all_bytes.
  apply in_map_iff. exists (Z.to_nat b). split; [lia|]. apply in_seq. lia.
Qed.

Lemma forall_settings_bytes (P : Z -> Z -> bool) :
  forallb (fun r => forallb (P r) all_bytes) (firstn 8 all_bytes) = true ->
  forall r b, 0 <= r <= 7 -> 0 <= b < 256 -> P r b = true.
Proof.
  intros H r b Hr Hb. rewrite forallb_forall in H.
  apply (forall_bytes (P r)); [|assumption]. apply H.
  assert (Hin : r = 0 \/ r = 1 \/ r = 2 \/ r = 3 \/ r = 4 \/ r = 5 \/ r = 6 \/ r = 7)
    by lia.
  cbn. intuition (subst; auto 10).
Qed.

Lemma clamp7_range x : 0 <= x -> 0 <= clamp7 x <= 7.
Proof. intros Hx. unfold clamp7. destruct (Z.ltb_spec 7 x); lia. Qed.

Lemma sample_rate_byte r b :
  0 <= r <= 7 -> 0 <= b < 256 ->
  let v := uint8 (Z.lor (Z.land b 0x8F) (Z.shiftl r 4)) in
  bits_field v 4 3 = r /\ bits_field v 0 4 = bits_field b 0 4 /\
  bits_field v 7 1 = bits_field b 7 1.
Proof.
  intros Hr Hb.
  pose proof (forall_settings_bytes
    (fun r b => let v := uint8 (Z.lor (Z.land b 0x8F) (Z.shiftl r 4)) in
                (bits_field v 4 3 =? r) && (bits_field v 0 4 =? bits_field b 0 4)
                && (bits_field v 7 1 =? bits_field b 7 1))
    ltac:(vm_compute; reflexivity) r b Hr Hb) as H.
  cbv beta zeta in H. apply andb_prop in H as [H H3]. apply andb_prop in H as [H1 H2].
  cbv zeta. repeat split; now apply Z.eqb_eq.
Qed.

Lemma gain_byte g b :
  0 <= g <= 7 -> 0 <= b < 256 ->
  let v := uint8 (Z.lor (Z.land b 0xF8) g) in
  bits_field v 0 3 = g /\ bits_field v 3 5 = bits_field b 3 5.
Proof.
  intros Hg Hb.
  pose proof (forall_settings_bytes
    (fun g b => let v := uint8 (Z.lor (Z.land b 0xF8) g) in
                (bits_field v 0 3 =? g) && (bits_field v 3 5 =? bits_field b 3 5))
    ltac:(vm_compute; reflexivity) g b Hg Hb) as H.
  cbv beta zeta in H. apply andb_prop in H as [H1 H2].
  cbv zeta. split; now apply Z.eqb_eq.
Qed.

Lemma ldo_byte l b :
  0 <= l <= 7 -> 0 <= b < 256 ->
  let v := uint8 (Z.lor (Z.land b 0xC7) (Z.shiftl l 3)) in
  bits_field v 3 3 = l /\ bits_field v 0 3 = bits_field b 0 3 /\
  bits_field v 6 2 = bits_field b 6 2.
Proof.
  intros Hl Hb.
  pose proof (forall_settings_bytes
    (fun l b => let v := uint8 (Z.lor (Z.land b 0xC7) (Z.shiftl l 3)) in
                (bits_field v 3 3 =? l) && (bits_field v 0 3 =? bits_field b 0 3)
                && (bits_field v 6 2 =? bits_field b 6 2))
    ltac:(vm_compute; reflexivity) l b Hl Hb) as H.
  cbv beta zeta in H. apply andb_prop in H as [H H3]. apply andb_prop in H as [H1 H2].
  cbv zeta. repeat split; now apply Z.eqb_eq.
Qed.

(** X8. [setSampleRate] clamps a rate (a byte) above 7 to 7 and, with both
    transactions acknowledged, writes CTRL2 back with the rate in bits
    4 to 6 and the other five bits as they were read. *)
Theorem setSampleRate_writes_field env rate w b rest :
  0 <= rate <= 255 ->
  status_after env w 0 = 0 -> status_after env w 1 = 0 ->
  requestFrom_bytes env (n_req w) = b :: rest ->
  exists v,
    setSampleRate env rate w
    = (NAU7802_OK,
       after_attempts 1 NAU7802_CTRL2 (Some v) (after_read NAU7802_CTRL2 w)) /\
    bits_field v 4 3 = clamp7 rate /\
    bits_field v 0 4 = bits_field (uint8 b) 0 4 /\
    bits_field v 7 1 = bits_field (uint8 b) 7 1.
Proof.
  intros [Hrate _] Hs0 Hs1 Hb. unfold setSampleRate, bind.
  rewrite (getRegister_ack _ _ _ _ _ Hs0 Hb). fold (clamp7 rate).
  rewrite setRegister_ack by (rewrite status_after_after_read; exact Hs1).
  eexists. split; [reflexivity|].
  exact (sample_rate_byte (clamp7 rate) (uint8 b) (clamp7_range rate Hrate)
           (uint8_range b)).
Qed.

Lemma setSampleRate_writes_field_witness :
  exists v,
    setSampleRate (env_sample [0xB5]) 200 Wire0
    = (NAU7802_OK,
       after_attempts 1 NAU7802_CTRL2 (Some v) (after_read NAU7802_CTRL2 Wire0)) /\
    bits_field v 4 3 = clamp7 200 /\
    bits_field v 0 4 = bits_field (uint8 0xB5) 0 4 /\
    bits_field v 7 1 = bits_field (uint8 0xB5) 7 1.
Proof.
  apply (setSampleRate_writes_field (env_sample [0xB5]) 200 Wire0 0xB5 []);
    [lia | reflexivity | reflexivity | reflexivity].
Defined.

(** X9. [setGain] clamps a gain above 7 to 7 and writes CTRL1 back with
    the gain in bits 0 to 2 and the upper five bits as they were read. *)
Theorem setGain_writes_field env gainValue w b rest :
  0 <= gainValue <= 255 ->
  status_after env w 0 = 0 -> status_after env w 1 = 0 ->
  requestFrom_bytes env (n_req w) = b :: rest ->
  exists v,
    setGain env gainValue w
    = (NAU7802_OK,
       after_attempts 1 NAU7802_CTRL1 (Some v) (after_read NAU7802_CTRL1 w)) /\
    bits_field v 0 3 = clamp7 gainValue /\
    bits_field v 3 5 = bits_field (uint8 b) 3 5.
Proof.
  intros [Hgain _] Hs0 Hs1 Hb. unfold setGain, bind.
  rewrite (getRegister_ack _ _ _ _ _ Hs0 Hb). fold (clamp7 gainValue).
  rewrite setRegister_ack by (rewrite status_after_after_read; exact Hs1).
  eexists. split; [reflexivity|].
  exact (gain_byte (clamp7 gainValue) (uint8 b) (clamp7_range gainValue Hgain)
           (uint8_range b)).
Qed.

Lemma setGain_writes_field_witness :
  exists v,
    setGain (env_sample [0xB5]) NAU7802_GAIN_128 Wire0
    = (NAU7802_OK,
       after_attempts 1 NAU7802_CTRL1 (Some v) (after_read NAU7802_CTRL1 Wire0)) /\
    bits_field v 0 3 = clamp7 NAU7802_GAIN_128 /\
    bits_field v 3 5 = bits_field (uint8 0xB5) 3 5.
Proof.
  apply (setGain_writes_field (env_sample [0xB5]) NAU7802_GAIN_128 Wire0 0xB5 []);
    [unfold NAU7802_GAIN_128; lia | reflexivity | reflexivity | reflexivity].
Defined.

(** X10. [setLDO] clamps a value above 7 to 7, writes CTRL1 back with the
    value in bits 3 to 5 and the other five bits as they were read, and
    then turns on the AVDDS bit of PU_CTRL with a read-modify-write of its
    own. *)
Theorem setLDO_writes_field_and_enables env ldoValue w b rest b' rest' :
  0 <= ldoValue <= 255 ->
  (forall k, (k < 4)%nat -> status_after env w k = 0) ->
  requestFrom_bytes env (n_req w) = b :: rest ->
  requestFrom_bytes env (S (n_req w)) = b' :: rest' ->
  exists v v',
    setLDO env ldoValue w
    = (NAU7802_OK,
       after_attempts 1 NAU7802_PU_CTRL (Some v')
         (after_read NAU7802_PU_CTRL
            (after_attempts 1 NAU7802_CTRL1 (Some v) (after_read NAU7802_CTRL1 w)))) /\
    bits_field v 3 3 = clamp7 ldoValue /\
    bits_field v 0 3 = bits_field (uint8 b) 0 3 /\
    bits_field v 6 2 = bits_field (uint8 b) 6 2 /\
    Z.testbit v' NAU7802_PU_CTRL_AVDDS = true /\
    (forall j, 0 <= j < 7 -> Z.testbit v' j = Z.testbit b' j).
Proof.
  intros [Hldo _] Hs Hb Hb'. unfold setLDO, bind.
  rewrite (getRegister_ack _ _ _ _ _ (Hs 0%nat ltac:(lia)) Hb). fold (clamp7 ldoValue).
  rewrite setRegister_ack by (rewrite status_after_after_read; apply Hs; lia).
  cbn [Z.eqb NAU7802_OK negb].
  rewrite (setBit_ack env _ _ _ b' rest').
  - eexists. eexists. split; [reflexivity|].
    destruct (ldo_byte (clamp7 ldoValue) (uint8 b) (clamp7_range ldoValue Hldo)
                (uint8_range b)) as (H1 & H2 & H3).
    destruct (set_bit_value b' NAU7802_PU_CTRL_AVDDS ltac:(unfold NAU7802_PU_CTRL_AVDDS; lia))
      as [H4 H5].
    repeat split; try assumption.
    intros j Hj. apply H5; unfold NAU7802_PU_CTRL_AVDDS; lia.
  - rewrite status_after_after_attempts, status_after_after_read. apply Hs. lia.
  - rewrite status_after_after_attempts, status_after_after_read. apply Hs. lia.
  - exact Hb'.
Qed.

Lemma setLDO_writes_field_and_enables_witness :
  exists v v',
    setLDO (env_sample [0xB5]) NAU7802_LDO_3V3 Wire0
    = (NAU7802_OK,
       after_attempts 1 NAU7802_PU_CTRL (Some v')
         (after_read NAU7802_PU_CTRL
            (after_attempts 1 NAU7802_CTRL1 (Some v) (after_read NAU7802_CTRL1 Wire0)))) /\
    bits_field v 3 3 = clamp7 NAU7802_LDO_3V3 /\
    bits_field v 0 3 = bits_field (uint8 0xB5) 0 3 /\
    bits_field v 6 2 = bits_field (uint8 0xB5) 6 2 /\
    Z.testbit v' NAU7802_PU_CTRL_AVDDS = true /\
    (forall j, 0 <= j < 7 -> Z.testbit v' j = Z.testbit 0xB5 j).
Proof.
  apply (setLDO_writes_field_and_enables (env_sample [0xB5]) NAU7802_LDO_3V3 Wire0
           0xB5 [] 0xB5 []);
    [unfold NAU7802_LDO_3V3; lia | intros k _; reflexivity | reflexivity | reflexivity].
Defined.

(** X11. [setChannel] selects channel 1 only for the number 0
    ([NAU7802_CHANNEL_1]): it clears the CHS bit of CTRL2 then, and sets it
    for every other number, the other bits of CTRL2 staying as read. *)
Theorem setChannel_writes_CHS env channelNumber w b rest :
  0 <= channelNumber <= 255 ->
  status_after env w 0 = 0 -> status_after env w 1 = 0 ->
  requestFrom_bytes env (n_req w) = b :: rest ->
  exists v,
    setChannel env channelNumber w
    = (NAU7802_OK,
       after_attempts 1 NAU7802_CTRL2 (Some v) (after_read NAU7802_CTRL2 w)) /\
    Z.testbit v NAU7802_CTRL2_CHS = negb (channelNumber =? 0) /\
    (forall j, 0 <= j < 7 -> Z.testbit v j = Z.testbit b j).
Proof.
  intros _ Hs0 Hs1 Hb. unfold setChannel, NAU7802_CHANNEL_1.
  assert (Hk : 0 <= NAU7802_CTRL2_CHS < 8) by (unfold NAU7802_CTRL2_CHS; lia).
  destruct (channelNumber =? 0); eexists.
  - split; [exact (clearBit_ack env _ _ w b rest Hs0 Hs1 Hb)|].
    destruct (clear_bit_value b NAU7802_CTRL2_CHS Hk) as [H1 H2].
    split; [exact H1|]. intros j Hj. apply H2; unfold NAU7802_CTRL2_CHS; lia.
  - split; [exact (setBit_ack env _ _ w b rest Hs0 Hs1 Hb)|].
    destruct (set_bit_value b NAU7802_CTRL2_CHS Hk) as [H1 H2].
    split; [exact H1|]. intros j Hj. apply H2; unfold NAU7802_CTRL2_CHS; lia.
Qed.

Lemma setChannel_writes_CHS_witness :
  exists v,
    setChannel (env_sample [0x30]) 2 Wire0
    = (NAU7802_OK,
       after_attempts 1 NAU7802_CTRL2 (Some v) (after_read NAU7802_CTRL2 Wire0)) /\
    Z.testbit v NAU7802_CTRL2_CHS = negb (2 =? 0) /\
    (forall j, 0 <= j < 7 -> Z.testbit v j = Z.testbit 0x30 j).
Proof.
  apply (setChannel_writes_CHS (env_sample [0x30]) 2 Wire0 0x30 []);
    [lia | reflexivity | reflexivity | reflexivity].
Defined.



(** ** Power *)

Lemma powerUp_loop_eq env fuel counter :
  powerUp_loop env fuel counter =
  (do r <- getBit env NAU7802_PU_CTRL_PUR NAU7802_PU_CTRL ;
   match r with
   | Err e => ret (Returns e)
   | Ok value =>
       if 0 <? value then ret (Returns NAU7802_OK)
       else
         delay 1 ;;
         if 100 <? counter then ret (Returns NAU7802_POWER_UP_ERROR)
         else
           match fuel with
           | O => ret OutOfFuel
           | S fuel' => powerUp_loop env fuel' (uint8 (counter + 1))
           end
   end).
Proof. destruct fuel; reflexivity. Qed.

Lemma powerUp_loop_terminates env :
  forall fuel counter w,
  0 <= counter -> 101 <= counter + Z.of_nat fuel ->
  fst (powerUp_loop env fuel counter w) <> OutOfFuel.
Proof.
  induction fuel as [|fuel IH]; intros counter w Hc Hsum;
    rewrite powerUp_loop_eq; unfold bind;
    (destruct (getBit env NAU7802_PU_CTRL_PUR NAU7802_PU_CTRL w) as [[value|e] w1];
     [|discriminate]);
    (destruct (0 <? value); [discriminate|]);
    unfold delay, ret; cbn [fst snd];
    (destruct (Z.ltb_spec 100 counter); [discriminate|]).
  - lia.
  - rewrite uint8_small by lia. apply IH; lia.
Qed.

(** X13. [powerUp] always comes back: on every device, an allowance of
    101 further passes of its polling loop is never used up. *)
Theorem powerUp_terminates env fuel w :
  (101 <= fuel)%nat -> fst (powerUp env fuel w) <> OutOfFuel.
Proof.
  intros Hfuel. unfold powerUp, bind.
  destruct (setBit env NAU7802_PU_CTRL_PUD NAU7802_PU_CTRL w) as [err w1].
  destruct (negb (err =? 0)); [discriminate|].
  destruct (setBit env NAU7802_PU_CTRL_PUA NAU7802_PU_CTRL w1) as [err2 w2].
  destruct (negb (err2 =? 0)); [discriminate|].
  apply powerUp_loop_terminates; lia.
Qed.

Lemma powerUp_terminates_witness :
  fst (powerUp (env_power 1000) 101 Wire0) <> OutOfFuel.
Proof. apply (powerUp_terminates (env_power 1000) 101 Wire0). lia. Defined.

Section PowerUpLoop.

Variables (env : Env) (a b : nat) (s : Z) (k : nat).
Hypothesis Hk : (k <= 101)%nat.
Hypothesis Hidle :
  forall j, (j < k)%nat -> reads_bit_at env (a + j) (b + j) NAU7802_PU_CTRL_PUR false.


End PowerUpLoop.




(** X15. [reset] pulses the RR bit of PU_CTRL: with the bus acknowledging
    it writes the register with RR set, sleeps 1 ms, and writes it with RR
    clear, each time leaving the other bits as just read; when the first
    read fails, in whatever way (status 3 or 4, status 1 or 2 still after
    three attempts, or no byte delivered), it returns the error of the
    read without sleeping or writing: only address frames have gone
    out. *)
Theorem reset_pulses_RR env w :
  (forall b1 rest1 b2 rest2,
     (forall j, (j < 4)%nat -> status_after env w j = 0) ->
     requestFrom_bytes env (n_req w) = b1 :: rest1 ->
     requestFrom_bytes env (S (n_req w)) = b2 :: rest2 ->
     exists v1 v2 w',
       reset env w = (NAU7802_OK, w') /\
       sent w' = [uint8 NAU7802_PU_CTRL; v2] :: [uint8 NAU7802_PU_CTRL]
                 :: [uint8 NAU7802_PU_CTRL; v1] :: [uint8 NAU7802_PU_CTRL] :: sent w /\
       slept w' = slept w + 1 /\
       Z.testbit v1 NAU7802_PU_CTRL_RR = true /\
       Z.testbit v2 NAU7802_PU_CTRL_RR = false /\
       (forall j, 0 < j < 8 ->
          Z.testbit v1 j = Z.testbit b1 j /\ Z.testbit v2 j = Z.testbit b2 j)) /\
  (forall e,
     read_fails_at env (n_end w) (n_req w) e ->
     reset env w = (e, after_failed_read env NAU7802_PU_CTRL w) /\
     sent (after_failed_read env NAU7802_PU_CTRL w)
     = repeat [uint8 NAU7802_PU_CTRL] (attempts_at env (n_end w)) ++ sent w /\
     slept (after_failed_read env NAU7802_PU_CTRL w) = slept w).
Proof.
  split.
  - intros b1 rest1 b2 rest2 Hs Hb1 Hb2. unfold reset, bind.
    rewrite (setBit_ack env _ _ w b1 rest1) by (try apply Hs; try assumption; lia).
    cbn [Z.eqb NAU7802_OK negb]. unfold delay.
    rewrite (clearBit_ack env _ _ _ b2 rest2);
      [| unfold status_after; cbn [after_attempts after_read n_end];
         replace (n_end w + 1 + 1 + 0)%nat with (n_end w + 2)%nat by lia;
         apply (Hs 2%nat); lia
       | unfold status_after; cbn [after_attempts after_read n_end];
         replace (n_end w + 1 + 1 + 1)%nat with (n_end w + 3)%nat by lia;
         apply (Hs 3%nat); lia
       | exact Hb2].
    assert (Hk : 0 <= NAU7802_PU_CTRL_RR < 8) by (unfold NAU7802_PU_CTRL_RR; lia).
    destruct (set_bit_value b1 NAU7802_PU_CTRL_RR Hk) as [H1 H1'].
    destruct (clear_bit_value b2 NAU7802_PU_CTRL_RR Hk) as [H2 H2'].
    exists (uint8 (Z.lor (uint8 b1) (Z.shiftl 1 NAU7802_PU_CTRL_RR))),
           (uint8 (Z.land (uint8 b2) (Z.lnot (Z.shiftl 1 NAU7802_PU_CTRL_RR)))).
    eexists. split; [reflexivity|].
    split; [cbn [sent after_attempts after_read repeat app frame];
            rewrite !uint8_idem; reflexivity|].
    split; [reflexivity|].
    split; [exact H1|]. split; [exact H2|].
    intros j Hj. split; [apply H1' | apply H2']; unfold NAU7802_PU_CTRL_RR; lia.
  - intros e He. split; [|split; apply after_failed_read_frames].
    unfold reset, bind. rewrite (setBit_fails _ _ _ _ _ He).
    apply read_fails_negative in He.
    destruct (Z.eqb_spec e 0); [lia | reflexivity].
Qed.

Lemma reset_pulses_RR_witness :
  (exists v1 v2 w',
     reset (env_sample [0x06]) Wire0 = (NAU7802_OK, w') /\
     sent w' = [uint8 NAU7802_PU_CTRL; v2] :: [uint8 NAU7802_PU_CTRL]
               :: [uint8 NAU7802_PU_CTRL; v1] :: [uint8 NAU7802_PU_CTRL] :: sent Wire0 /\
     slept w' = slept Wire0 + 1 /\
     Z.testbit v1 NAU7802_PU_CTRL_RR = true /\
     Z.testbit v2 NAU7802_PU_CTRL_RR = false /\
     (forall j, 0 < j < 8 ->
        Z.testbit v1 j = Z.testbit 0x06 j /\ Z.testbit v2 j = Z.testbit 0x06 j)) /\
  reset (env_status 3) Wire0
  = (NAU7802_I2C_NACK_DATA_ERROR, after_attempts 1 NAU7802_PU_CTRL None Wire0) /\
  reset (env_status 2) Wire0
  = (NAU7802_I2C_NACK_ADDR_ERROR, after_attempts 3 NAU7802_PU_CTRL None Wire0) /\
  reset (env_sample []) Wire0
  = (NAU7802_I2C_NO_DATA_ERROR, mkWire [] [] 1 1 0 [[NAU7802_PU_CTRL]] 0).
Proof.
  split.
  - apply (proj1 (reset_pulses_RR (env_sample [0x06]) Wire0) 0x06 [] 0x06 []);
      [intros j _; reflexivity | reflexivity | reflexivity].
  - split; [|split].
    + apply (proj2 (reset_pulses_RR (env_status 3) Wire0)). left. reflexivity.
    + apply (proj2 (reset_pulses_RR (env_status 2) Wire0)). left. reflexivity.
    + apply (proj2 (reset_pulses_RR (env_sample []) Wire0)). right. repeat split.
Defined.

(** ** Calibration state machine, continued *)

Lemma calAFEStatus_succeeded env w :
  succeeded_at env (n_end w) (n_req w) ->
  calAFEStatus env w
  = (NAU7802_CAL_SUCCESS, after_read NAU7802_CTRL2 (after_read NAU7802_CTRL2 w)).
Proof.
  intros (Hs1 & Hs2 & b1 & rest1 & b2 & rest2 & Hb1 & Hbit1 & Hb2 & Hbit2).
  unfold calAFEStatus, bind.
  rewrite (getBit_ack env _ _ w b1 rest1); [| unfold NAU7802_CTRL2_CALS; lia
    | unfold status_after; now rewrite Nat.add_0_r | assumption].
  rewrite Hbit1. cbn [Z.eqb negb].
  rewrite (getBit_ack env _ _ _ b2 rest2); [| unfold NAU7802_CTRL2_CAL_ERROR; lia
    | unfold status_after; cbn [after_read n_end]; now rewrite Nat.add_0_r
    | assumption].
  rewrite Hbit2. reflexivity.
Qed.

(** X16. [waitForCalibrateAFE] returns [NAU7802_OK] at the first poll that
    finds the calibration over without error, when the polls before found
    it running and the time was not over: after [k] such polls it has
    slept [k] ms and made [k + 2] register reads. *)
Theorem waitForCalibrateAFE_success env w timeout_ms (k fuel : nat) :
  (forall j, (j < k)%nat -> calibrating_at env (n_end w + j) (n_req w + j)) ->
  (0 < timeout_ms -> forall j, (j < k)%nat -> elapsed env w j <= timeout_ms) ->
  succeeded_at env (n_end w + k) (n_req w + k) ->
  (k <= fuel)%nat ->
  exists w', waitForCalibrateAFE env fuel timeout_ms w = (Returns NAU7802_OK, w') /\
             n_req w' = (n_req w + k + 2)%nat /\ slept w' = slept w + Z.of_nat k.
Proof.
  intros Hcal Hbefore Hdone Hfuel.
  destruct (wait_skip env w timeout_ms k Hcal Hbefore fuel Hfuel)
    as (w' & (He & Hr & _ & Hs) & ->).
  rewrite waitForCalibrateAFE_loop_eq. unfold bind.
  rewrite calAFEStatus_succeeded by (rewrite He, Hr; assumption).
  eexists. split; [reflexivity|]. cbn [after_read n_req slept]. lia.
Qed.

Lemma env_succeeds_later_calibrating j :
  (j < 3)%nat -> calibrating_at env_succeeds_later (n_end Wire0 + j) (n_req Wire0 + j).
Proof.
  intros Hj. split; [reflexivity|]. exists 0x04, []. split; [|reflexivity].
  cbn [requestFrom_bytes env_succeeds_later n_req Wire0 Nat.add].
  destruct (Nat.ltb_spec j 3); [reflexivity | lia].
Qed.

Lemma waitForCalibrateAFE_success_witness :
  succeeded_at env_succeeds_later 3 3 /\
  exists w', waitForCalibrateAFE env_succeeds_later 3 1000 Wire0
             = (Returns NAU7802_OK, w') /\
             n_req w' = 5%nat /\ slept w' = 3.
Proof.
  assert (Hd : succeeded_at env_succeeds_later 3 3).
  { split; [reflexivity|]. split; [reflexivity|].
    exists 0x00, [], 0x00, []. repeat split; reflexivity. }
  split; [exact Hd|].
  apply (waitForCalibrateAFE_success env_succeeds_later Wire0 1000 3 3).
  - apply env_succeeds_later_calibrating.
  - intros _ j Hj. unfold env_succeeds_later. rewrite elapsed_ticking; lia.
  - exact Hd.
  - lia.
Defined.

(** Bus traffic reads no clock and does not sleep. *)
Lemma i2c_write_clock env registerAddress value w :
  n_millis (snd (i2c_write env registerAddress value w)) = n_millis w /\
  slept (snd (i2c_write env registerAddress value w)) = slept w.
Proof.
  rewrite i2c_write_spec.
  destruct (retried _); [destruct (retried _)|]; split; reflexivity.
Qed.

Lemma getRegister_clock env registerAddress w :
  n_millis (snd (getRegister env registerAddress w)) = n_millis w /\
  slept (snd (getRegister env registerAddress w)) = slept w.
Proof.
  rewrite getRegister_spec.
  pose proof (i2c_write_clock env registerAddress None w) as [Hm Hs].
  destruct (i2c_write env registerAddress None w) as [r w1]. cbn [snd] in Hm, Hs.
  destruct (i2c_error r); [now split|].
  destruct (map uint8 _); now split.
Qed.

Lemma getBit_clock env bitNumber registerAddress w :
  n_millis (snd (getBit env bitNumber registerAddress w)) = n_millis w /\
  slept (snd (getBit env bitNumber registerAddress w)) = slept w.
Proof.
  unfold getBit, bind.
  pose proof (getRegister_clock env registerAddress w) as H.
  destruct (getRegister env registerAddress w) as [[contents|e] w1]; exact H.
Qed.

Lemma setRegister_clock env registerAddress value w :
  n_millis (snd (setRegister env registerAddress value w)) = n_millis w /\
  slept (snd (setRegister env registerAddress value w)) = slept w.
Proof.
  unfold setRegister, bind.
  pose proof (i2c_write_clock env registerAddress (Some value) w) as H.
  destruct (i2c_write env registerAddress (Some value) w) as [r w1].
  destruct (i2c_error r); exact H.
Qed.

Lemma setBit_clock env bitNumber registerAddress w :
  n_millis (snd (setBit env bitNumber registerAddress w)) = n_millis w /\
  slept (snd (setBit env bitNumber registerAddress w)) = slept w.
Proof.
  unfold setBit, bind.
  pose proof (getRegister_clock env registerAddress w) as [Hm Hs].
  destruct (getRegister env registerAddress w) as [[contents|e] w1];
    cbn [snd] in Hm, Hs; [|now split].
  match goal with
  | |- context [setRegister env ?r ?v w1] =>
      pose proof (setRegister_clock env r v w1) as [Hm' Hs']
  end.
  split; congruence.
Qed.

Lemma calAFEStatus_clock env w :
  n_millis (snd (calAFEStatus env w)) = n_millis w /\
  slept (snd (calAFEStatus env w)) = slept w.
Proof.
  unfold calAFEStatus, bind.
  pose proof (getBit_clock env NAU7802_CTRL2_CALS NAU7802_CTRL2 w) as [Hm Hs].
  destruct (getBit env NAU7802_CTRL2_CALS NAU7802_CTRL2 w) as [[value|e] w1];
    cbn [snd] in Hm, Hs; [|now split].
  destruct (negb (value =? 0)); [now split|].
  pose proof (getBit_clock env NAU7802_CTRL2_CAL_ERROR NAU7802_CTRL2 w1) as [Hm' Hs'].
  destruct (getBit env NAU7802_CTRL2_CAL_ERROR NAU7802_CTRL2 w1) as [[value'|e] w2];
    cbn [snd] in Hm', Hs'; [destruct (negb (value' =? 0))|]; split; cbn [ret snd]; congruence.
Qed.

Section WaitTerminates.

Variables (env : Env) (w0 : Wire) (timeout_ms : Z) (K : nat).
Hypothesis Hpos : 0 < timeout_ms.
Hypothesis Hat : timeout_ms < elapsed env w0 K.

Lemma wait_loop_terminates :
  forall d j fuel w, (j + d = K)%nat -> (d <= fuel)%nat ->
  n_millis w = (n_millis w0 + 1 + j)%nat ->
  fst (waitForCalibrateAFE_loop env fuel timeout_ms
         (uint32 (millis_at env (n_millis w0))) w) <> OutOfFuel.
Proof.
  induction d as [|d IH]; intros j fuel w Hj Hfuel Hm;
    rewrite waitForCalibrateAFE_loop_eq; unfold bind;
    pose proof (calAFEStatus_clock env w) as [Hm1 _];
    destruct (calAFEStatus env w) as [st w1]; cbn [snd] in Hm1;
    (destruct (st =? NAU7802_CAL_IN_PROGRESS); [|discriminate]);
    (destruct (Z.ltb_spec 0 timeout_ms) as [_|]; [|lia]);
    unfold millis, ret; rewrite Hm1, Hm;
    change (uint32 (uint32 (millis_at env (n_millis w0 + 1 + j))
                    - uint32 (millis_at env (n_millis w0))))
      with (elapsed env w0 j).
  - replace j with K by lia.
    destruct (Z.ltb_spec timeout_ms (elapsed env w0 K)); [discriminate | lia].
  - destruct (timeout_ms <? elapsed env w0 j); [discriminate|].
    unfold delay. destruct fuel as [|fuel]; [lia|].
    apply (IH (S j)); cbn [n_millis]; lia.
Qed.

End WaitTerminates.

(** X17. With a positive timeout, [waitForCalibrateAFE] comes back
    whatever the device does, as soon as the clock moves: if the reading
    taken in pass [K] of the loop shows more than [timeout_ms] elapsed, the
    wait is over within [K + 1] passes. *)
Theorem waitForCalibrateAFE_terminates env w timeout_ms (K fuel : nat) :
  0 < timeout_ms ->
  timeout_ms < elapsed env w K ->
  (K <= fuel)%nat ->
  fst (waitForCalibrateAFE env fuel timeout_ms w) <> OutOfFuel.
Proof.
  intros Hpos Hat Hfuel. unfold waitForCalibrateAFE, bind, millis.
  apply (wait_loop_terminates env w timeout_ms K Hpos Hat K 0%nat); cbn [n_millis]; lia.
Qed.

Lemma waitForCalibrateAFE_terminates_witness :
  1000 < elapsed env_calibrating Wire0 1000 /\
  fst (waitForCalibrateAFE env_calibrating 1000 1000 Wire0) <> OutOfFuel.
Proof.
  assert (H : 1000 < elapsed env_calibrating Wire0 1000) by (vm_compute; reflexivity).
  split; [exact H|].
  apply (waitForCalibrateAFE_terminates env_calibrating Wire0 1000 1000 1000);
    [lia | exact H | lia].
Defined.

(** X18. [calibrateAFE] does not wait when the calibration could not be
    started: if the read of [beginCalibrateAFE] fails in whatever way
    (status 3 or 4, status 1 or 2 still after three attempts, or no byte
    delivered), or the read goes through and the write fails with any of
    the statuses 1 to 4, that error is returned and the clock is never
    read. *)
Theorem calibrateAFE_begin_error env fuel w e :
  (read_fails_at env (n_end w) (n_req w) e ->
   calibrateAFE env fuel w = (Returns e, after_failed_read env NAU7802_CTRL2 w) /\
   n_millis (after_failed_read env NAU7802_CTRL2 w) = n_millis w) /\
  (forall b rest,
     i2c_error (final_status_at env (n_end w)) = None ->
     requestFrom_bytes env (n_req w) = b :: rest ->
     send_fails_at env (n_end w + attempts_at env (n_end w)) e ->
     fst (calibrateAFE env fuel w) = Returns e /\
     n_millis (snd (calibrateAFE env fuel w)) = n_millis w).
Proof.
  split.
  - intros He. split; [|apply after_failed_read_frames].
    unfold calibrateAFE, beginCalibrateAFE, bind.
    rewrite (setBit_fails _ _ _ _ _ He).
    apply read_fails_negative in He.
    destruct (Z.eqb_spec e 0); [lia | reflexivity].
  - intros b rest Hs Hb He. unfold calibrateAFE, beginCalibrateAFE, setBit, bind.
    rewrite (getRegister_reads _ _ _ _ _ Hs Hb).
    rewrite (setRegister_fails env _ _ _ e) by (cbn [after_request n_end]; exact He).
    apply send_fails_negative in He.
    destruct (Z.eqb_spec e 0); [lia | split; reflexivity].
Qed.

Lemma calibrateAFE_begin_error_witness :
  calibrateAFE (env_status 3) 5 Wire0
  = (Returns NAU7802_I2C_NACK_DATA_ERROR, after_attempts 1 NAU7802_CTRL2 None Wire0) /\
  calibrateAFE (env_status 2) 5 Wire0
  = (Returns NAU7802_I2C_NACK_ADDR_ERROR, after_attempts 3 NAU7802_CTRL2 None Wire0) /\
  calibrateAFE (env_sample []) 5 Wire0
  = (Returns NAU7802_I2C_NO_DATA_ERROR, mkWire [] [] 1 1 0 [[NAU7802_CTRL2]] 0) /\
  fst (calibrateAFE (env_write_status 2) 5 Wire0) = Returns NAU7802_I2C_NACK_ADDR_ERROR /\
  n_millis (snd (calibrateAFE (env_write_status 2) 5 Wire0)) = n_millis Wire0.
Proof.
  split; [|split; [|split]].
  - apply (proj1 (calibrateAFE_begin_error (env_status 3) 5 Wire0
                    NAU7802_I2C_NACK_DATA_ERROR)). left. reflexivity.
  - apply (proj1 (calibrateAFE_begin_error (env_status 2) 5 Wire0
                    NAU7802_I2C_NACK_ADDR_ERROR)). left. reflexivity.
  - apply (proj1 (calibrateAFE_begin_error (env_sample []) 5 Wire0
                    NAU7802_I2C_NO_DATA_ERROR)). right. repeat split.
  - apply (proj2 (calibrateAFE_begin_error (env_write_status 2) 5 Wire0
                    NAU7802_I2C_NACK_ADDR_ERROR) 0x00 []); reflexivity.
Defined.

(** ** Reading pipeline, continued *)

Lemma lor_ones32 x : 0 <= x < 2 ^ 32 -> Z.lor x (2 ^ 32 - 1) = 2 ^ 32 - 1.
Proof.
  intros Hx. change (2 ^ 32 - 1) with (Z.ones 32). apply Z.bits_inj'. intros n Hn.
  rewrite Z.lor_spec. destruct (Z.lt_ge_cases n 32) as [Hlt|Hge].
  - rewrite Z.ones_spec_low by lia. apply orb_true_r.
  - rewrite Z.ones_spec_high by lia.
    rewrite <- (Z.mod_small x (2 ^ 32)) by lia.
    now rewrite Z.mod_pow2_bits_high by lia.
Qed.

Lemma uint32_range z : 0 <= uint32 z < 2 ^ 32.
Proof. unfold uint32. apply Z.mod_pos_bound. lia. Qed.

(** X19. [getReading] looks once whether anything has arrived: when the
    burst is acknowledged and delivers only one or two bytes, the missing
    bytes are read as -1 and the reading returned, with [NAU7802_OK], is
    -1 whatever the bytes delivered. *)
Theorem getReading_short_burst env w bytes :
  status_after env w 0 = 0 ->
  requestFrom_bytes env (n_req w) = bytes ->
  (length bytes = 1 \/ length bytes = 2)%nat ->
  fst (getReading env w) = Ok (-1).
Proof.
  intros Hs Hb Hlen. unfold getReading, bind. rewrite i2c_write_spec, Hs.
  cbn [retried Z.eqb orb i2c_error]. unfold requestFrom, Wire_available, read, ret.
  cbn [after_attempts txBuffer rxBuffer n_end n_req n_millis sent slept]. rewrite Hb.
  assert (Hones : forall x, Z.lor (uint32 x) (uint32 (-1)) = uint32 (-1)).
  { intros x. change (uint32 (-1)) with (2 ^ 32 - 1). apply lor_ones32, uint32_range. }
  assert (Hfinal : Z.shiftr (int32 (Z.shiftl (uint32 (-1)) 8)) 8 = -1)
    by (vm_compute; reflexivity).
  destruct bytes as [|b2 [|b1 [|b0 bytes]]]; cbn [length] in Hlen; try lia;
    cbn [firstn map length rxBuffer txBuffer n_end n_req n_millis sent slept];
    [change (Z.of_nat 1 =? 0) with false | change (Z.of_nat 2 =? 0) with false];
    cbn [rxBuffer txBuffer n_end n_req n_millis sent slept fst];
    f_equal; rewrite <- Z.lor_assoc, !Hones; exact Hfinal.
Qed.

Lemma getReading_short_burst_witness :
  fst (getReading (env_sample [0x12; 0x34]) Wire0) = Ok (-1).
Proof.
  apply (getReading_short_burst (env_sample [0x12; 0x34]) Wire0 [0x12; 0x34]);
    [reflexivity | reflexivity | right; reflexivity].
Defined.

Lemma available_reads env w ready :
  reads_bit_at env (n_end w) (n_req w) NAU7802_PU_CTRL_CR ready ->
  available env w = (Ok ready, after_read NAU7802_PU_CTRL w).
Proof.
  intros H. unfold available, bind.
  rewrite (reads_bit_getBit env w _ _ ready) by (unfold NAU7802_PU_CTRL_CR; try lia; exact H).
  destruct ready; reflexivity.
Qed.

Lemma getReading_sample env w v :
  sample_at env (n_end w) (n_req w) v ->
  getReading env w = (Ok v, after_read NAU7802_ADCO_B2 w).
Proof.
  intros (Hs & b2 & b1 & b0 & rest & Hb & H2 & H1 & H0 & ->).
  apply (getReading_ack env w b2 b1 b0 rest); try assumption.
  unfold status_after. now rewrite Nat.add_0_r.
Qed.

Lemma available_fails env w e :
  read_fails_at env (n_end w) (n_req w) e ->
  available env w = (Err e, after_failed_read env NAU7802_PU_CTRL w).
Proof.
  intros H. unfold available, bind. now rewrite (getBit_fails _ _ _ _ _ H).
Qed.

Lemma getReading_fails env w e :
  read_fails_at env (n_end w) (n_req w) e ->
  fst (getReading env w) = Err e.
Proof.
  intros H. unfold getReading, bind. rewrite i2c_write_final.
  destruct H as [H | (H & Hb & ->)]; unfold send_fails_at in *; rewrite H;
    [reflexivity|].
  unfold requestFrom, Wire_available. cbn [after_attempts n_req rxBuffer].
  rewrite Hb. reflexivity.
Qed.

Lemma sample_at_range env a b v : sample_at env a b v -> - 2 ^ 23 <= v <= 2 ^ 23 - 1.
Proof.
  intros (_ & b2 & b1 & b0 & rest & _ & H2 & H1 & H0 & ->).
  apply sign_extend24_range. lia.
Qed.

Lemma int32_small z : - 2 ^ 31 <= z < 2 ^ 31 -> int32 z = z.
Proof. intros Hz. unfold int32. Z.to_euclidean_division_equations. lia. Qed.

Section AverageRun.

Variables (env : Env) (w0 : Wire) (average_size : Z).
Variables (ready : nat -> bool) (v : nat -> Z) (k : nat).
Hypothesis Hsize : average_size <= 255.
Hypothesis Hrun :
  forall j, (j < k)%nat ->
  pass_at env (n_end w0 + j + ready_count ready j) (n_req w0 + j + ready_count ready j)
    (ready j) (v (ready_count ready j)).
Hypothesis Hmore :
  forall j, (j < k)%nat -> Z.of_nat (ready_count ready j) < average_size.
Hypothesis Hbefore :
  forall j, (j < k)%nat -> elapsed env w0 j <= average_size * 13.

(** The first [k] passes of the loop: each polls, reads the sample when
    one is ready, and finds the time not over. *)
Lemma average_loop_skip :
  forall d j fuel w, (j + d = k)%nat -> (d <= fuel)%nat ->
  average_inv w0 ready v j (sum_first v (ready_count ready j)) w ->
  exists w',
    average_inv w0 ready v k (sum_first v (ready_count ready k)) w' /\
    getAverageReading_loop env fuel average_size (average_size * 13)
      (uint32 (millis_at env (n_millis w0)))
      (sum_first v (ready_count ready j)) (Z.of_nat (ready_count ready j)) w
    = getAverageReading_loop env (fuel - d) average_size (average_size * 13)
        (uint32 (millis_at env (n_millis w0)))
        (sum_first v (ready_count ready k)) (Z.of_nat (ready_count ready k)) w'.
Proof.
  induction d as [|d IH]; intros j fuel w Hj Hfuel Hinv.
  - exists w. replace k with j by lia. rewrite Nat.sub_0_r. split; [assumption|reflexivity].
  - destruct fuel as [|fuel]; [lia|].
    destruct Hinv as (He & Hr & Hm & _ & Hbound).
    assert (Hjk : (j < k)%nat) by lia.
    pose proof (Hrun j Hjk) as [Hpoll Hsample]. pose proof (Hmore j Hjk) as Hc.
    pose proof (Hbefore j Hjk) as Hel.
    rewrite getAverageReading_loop_eq.
    destruct (Z.ltb_spec (Z.of_nat (ready_count ready j)) average_size) as [_|]; [|lia].
    unfold bind at 1. rewrite (available_reads env w (ready j)) by (rewrite He, Hr; exact Hpoll).
    cbn [Nat.sub]. replace (fuel - d)%nat with (fuel - d)%nat by reflexivity.
    destruct (ready j) eqn:Hready.
    + specialize (Hsample eq_refl).
      pose proof (sample_at_range _ _ _ _ Hsample) as Hv.
      unfold bind at 1. unfold bind at 1.
      rewrite (getReading_sample env _ (v (ready_count ready j)))
        by (cbn [after_read n_end n_req]; rewrite He, Hr;
            replace (S (n_req w0 + j + ready_count ready j))
              with (n_req w0 + j + ready_count ready j + 1)%nat by lia;
            exact Hsample).
      unfold ret at 1. unfold bind at 1. unfold millis.
      cbn [after_read n_millis]. rewrite Hm.
      change (uint32 (uint32 (millis_at env (n_millis w0 + 1 + j))
                      - uint32 (millis_at env (n_millis w0))))
        with (elapsed env w0 j).
      destruct (Z.ltb_spec (average_size * 13) (elapsed env w0 j)); [lia|].
      rewrite int32_small by lia. rewrite uint8_small by lia.
      assert (Hcnt : ready_count ready (S j) = S (ready_count ready j)).
      { cbn [ready_count]. rewrite Hready. lia. }
      replace (Z.of_nat (ready_count ready j) + 1)
        with (Z.of_nat (ready_count ready (S j))) by lia.
      replace (sum_first v (ready_count ready j) + v (ready_count ready j))
        with (sum_first v (ready_count ready (S j))) by (rewrite Hcnt; reflexivity).
      apply (IH (S j)); [lia | lia |].
      unfold average_inv. cbn [n_end n_req n_millis after_read]. rewrite He, Hr, Hcnt.
      repeat split; try lia.
      * cbn [sum_first]. lia.
      * cbn [sum_first]. lia.
    + unfold bind at 1. unfold ret at 1. unfold bind at 1. unfold millis.
      cbn [after_read n_millis]. rewrite Hm.
      change (uint32 (uint32 (millis_at env (n_millis w0 + 1 + j))
                      - uint32 (millis_at env (n_millis w0))))
        with (elapsed env w0 j).
      destruct (Z.ltb_spec (average_size * 13) (elapsed env w0 j)); [lia|].
      assert (Hcnt : ready_count ready (S j) = ready_count ready j).
      { cbn [ready_count]. rewrite Hready. lia. }
      rewrite <- Hcnt.
      apply (IH (S j)); [lia | lia |].
      unfold average_inv. cbn [n_end n_req n_millis after_read]. rewrite He, Hr, Hcnt.
      repeat split; lia.
Qed.

(** The call as a whole, up to pass [k]. *)
Lemma average_skip fuel :
  (k <= fuel)%nat ->
  exists w',
    average_inv w0 ready v k (sum_first v (ready_count ready k)) w' /\
    getAverageReading_loop env fuel average_size (average_size * 13)
      (uint32 (millis_at env (n_millis w0))) 0 0 (snd (millis env w0))
    = getAverageReading_loop env (fuel - k) average_size (average_size * 13)
        (uint32 (millis_at env (n_millis w0)))
        (sum_first v (ready_count ready k)) (Z.of_nat (ready_count ready k)) w'.
Proof.
  intros Hfuel.
  apply (average_loop_skip k 0%nat fuel (snd (millis env w0))); [lia | assumption |].
  unfold average_inv, millis. cbn [snd n_end n_req n_millis ready_count sum_first].
  repeat split; lia.
Qed.

End AverageRun.

(** ** The time allowed for averaging *)

Lemma getAverageReading_times_out_at env w average_size ready v (k fuel : nat) :
  average_size <= 255 ->
  (forall j, (j <= k)%nat ->
     pass_at env (n_end w + j + ready_count ready j) (n_req w + j + ready_count ready j)
       (ready j) (v (ready_count ready j))) ->
  (forall j, (j <= k)%nat -> Z.of_nat (ready_count ready j) < average_size) ->
  (forall j, (j < k)%nat -> elapsed env w j <= average_size * 13) ->
  average_size * 13 < elapsed env w k ->
  (k <= fuel)%nat ->
  exists w',
    getAverageReading env fuel average_size w
    = (Returns (Err NAU7802_TIMEOUT_ERROR), w') /\
    n_millis w' = (n_millis w + k + 2)%nat /\
    n_end w' = (n_end w + S k + ready_count ready (S k))%nat /\
    n_req w' = (n_req w + S k + ready_count ready (S k))%nat.
Proof.
  intros Hsize Hrun Hmore Hbefore Hat Hfuel.
  unfold getAverageReading, getAverageReading_timeout, bind.
  change (millis env w) with (uint32 (millis_at env (n_millis w)), snd (millis env w)).
  destruct (average_skip env w average_size ready v k Hsize
              (fun j Hj => Hrun j ltac:(lia)) (fun j Hj => Hmore j ltac:(lia))
              Hbefore fuel Hfuel) as (w' & (He & Hr & Hm & _ & _) & ->).
  rewrite getAverageReading_loop_eq.
  pose proof (Hmore k (le_n _)) as Hc. pose proof (Hrun k (le_n _)) as [Hpoll Hsample].
  destruct (Z.ltb_spec (Z.of_nat (ready_count ready k)) average_size); [|lia].
  unfold bind at 1. rewrite (available_reads env w' (ready k)) by (rewrite He, Hr; exact Hpoll).
  cbn [ready_count].
  destruct (ready k).
  - unfold bind at 1. unfold bind at 1.
    rewrite (getReading_sample env _ (v (ready_count ready k)))
      by (cbn [after_read n_end n_req]; rewrite He, Hr;
          replace (S (n_req w + k + ready_count ready k))
            with (n_req w + k + ready_count ready k + 1)%nat by lia;
          apply Hsample; reflexivity).
    unfold ret at 1. unfold bind at 1. unfold millis.
    cbn [after_read n_millis]. rewrite Hm.
    change (uint32 (uint32 (millis_at env (n_millis w + 1 + k))
                    - uint32 (millis_at env (n_millis w))))
      with (elapsed env w k).
    destruct (Z.ltb_spec (average_size * 13) (elapsed env w k)); [|lia].
    eexists. split; [reflexivity|].
    cbn [n_millis n_end n_req after_read]. rewrite He, Hr. repeat split; lia.
  - unfold bind at 1. unfold ret at 1. unfold bind at 1. unfold millis.
    cbn [after_read n_millis]. rewrite Hm.
    change (uint32 (uint32 (millis_at env (n_millis w + 1 + k))
                    - uint32 (millis_at env (n_millis w))))
      with (elapsed env w k).
    destruct (Z.ltb_spec (average_size * 13) (elapsed env w k)); [|lia].
    eexists. split; [reflexivity|].
    cbn [n_millis n_end n_req after_read]. rewrite He, Hr. repeat split; lia.
Qed.

(** C8 (as amended). The time allowed for collecting the samples is
    [average_size * 13] ms, the figure for 80 conversions per second,
    whatever rate [setSampleRate] has put on the device before. In a run
    that meets no error, conversions being ready or not in any order, the
    checks of passes 0 to [k - 1] find at most [average_size * 13] ms
    elapsed and let the call go on, and the check of pass [k], the first
    to find more, ends it with [NAU7802_TIMEOUT_ERROR]: the call has then
    made [k + 1] polls, read the samples that were ready in these passes,
    and read the clock [k + 2] times (once at the start and once in each
    pass). *)
Theorem getAverageReading_budget_is_fixed env rate w0 average_size ready v (k fuel : nat) :
  let w := snd (setSampleRate env rate w0) in
  average_size <= 255 ->
  (forall j, (j <= k)%nat ->
     pass_at env (n_end w + j + ready_count ready j) (n_req w + j + ready_count ready j)
       (ready j) (v (ready_count ready j))) ->
  (forall j, (j <= k)%nat -> Z.of_nat (ready_count ready j) < average_size) ->
  (forall j, (j < k)%nat -> elapsed env w j <= average_size * 13) ->
  average_size * 13 < elapsed env w k ->
  (k <= fuel)%nat ->
  exists w',
    getAverageReading env fuel average_size w
    = (Returns (Err NAU7802_TIMEOUT_ERROR), w') /\
    n_millis w' = (n_millis w + k + 2)%nat /\
    n_end w' = (n_end w + S k + ready_count ready (S k))%nat /\
    n_req w' = (n_req w + S k + ready_count ready (S k))%nat.
Proof. intros w. apply getAverageReading_times_out_at. Qed.

Lemma getAverageReading_budget_is_fixed_witness :
  let w := snd (setSampleRate env_slow_ticking NAU7802_SPS_10 Wire0) in
  (elapsed env_slow_ticking w 0 = 6 /\ elapsed env_slow_ticking w 1 = 12 /\
   elapsed env_slow_ticking w 2 = 18) /\
  exists w',
    getAverageReading env_slow_ticking 2 1 w = (Returns (Err NAU7802_TIMEOUT_ERROR), w') /\
    n_millis w' = (n_millis w + 2 + 2)%nat /\
    n_end w' = (n_end w + 3 + ready_count (fun _ => false) 3)%nat /\
    n_req w' = (n_req w + 3 + ready_count (fun _ => false) 3)%nat.
Proof.
  cbv zeta. split; [repeat split; vm_compute; reflexivity|].
  apply (getAverageReading_budget_is_fixed env_slow_ticking NAU7802_SPS_10 Wire0 1
           (fun _ => false) (fun _ => 0) 2 2).
  - lia.
  - intros j Hj. assert (Hcases : (j = 0 \/ j = 1 \/ j = 2)%nat) by lia.
    destruct Hcases as [-> | [-> | ->]];
      (split; [split; [reflexivity | exists 0x00, []; split; reflexivity]
              | intros H; discriminate H]).
  - intros j Hj. assert (Hcases : (j = 0 \/ j = 1 \/ j = 2)%nat) by lia.
    destruct Hcases as [-> | [-> | ->]]; vm_compute; reflexivity.
  - intros j Hj. assert (Hcases : (j = 0 \/ j = 1)%nat) by lia.
    destruct Hcases as [-> | ->]; vm_compute; congruence.
  - vm_compute. reflexivity.
  - lia.
Defined.

(** X20. [getAverageReading] returns the average of the samples: in a run
    without errors in which the polls find a conversion ready or not in any
    order, [average_size] samples have been read after [P] passes and the
    time allowed is not over in any of them, the value handed out is the
    sum of these samples divided by [average_size], rounded towards zero.
    ([average_size] is a [uint8_t], so it is at most 255 and the 32-bit
    accumulator does not overflow.) *)
Theorem getAverageReading_averages env w average_size ready v (P fuel : nat) :
  0 < average_size <= 255 ->
  (forall j, (j < P)%nat ->
     pass_at env (n_end w + j + ready_count ready j) (n_req w + j + ready_count ready j)
       (ready j) (v (ready_count ready j))) ->
  (forall j, (j < P)%nat -> Z.of_nat (ready_count ready j) < average_size) ->
  Z.of_nat (ready_count ready P) = average_size ->
  (forall j, (j < P)%nat -> elapsed env w j <= average_size * 13) ->
  (P <= fuel)%nat ->
  exists w',
    getAverageReading env fuel average_size w
    = (Returns (Ok (Z.quot (sum_first v (ready_count ready P)) average_size)), w') /\
    n_req w' = (n_req w + P + ready_count ready P)%nat.
Proof.
  intros Hsize Hrun Hmore Hfull Hbefore Hfuel.
  unfold getAverageReading, getAverageReading_timeout, bind.
  change (millis env w) with (uint32 (millis_at env (n_millis w)), snd (millis env w)).
  destruct (average_skip env w average_size ready v P ltac:(lia) Hrun Hmore Hbefore
              fuel Hfuel) as (w' & (He & Hr & Hm & _ & _) & ->).
  rewrite getAverageReading_loop_eq.
  destruct (Z.ltb_spec (Z.of_nat (ready_count ready P)) average_size); [lia|].
  unfold ret. destruct (Z.eqb_spec average_size 0); [lia|].
  eexists. split; [reflexivity | exact Hr].
Qed.

Ltac solve_pass_at :=
  split;
  [ split; [reflexivity | eexists; eexists; split; reflexivity]
  | first
      [ intros H; vm_compute in H; discriminate H
      | intros _; split; [reflexivity|]; do 4 eexists; split; [reflexivity|];
        repeat split; vm_compute; first [reflexivity | congruence] ] ].

Lemma env_every_second_pass j :
  (j < 6)%nat ->
  pass_at env_every_second (n_end Wire0 + j + ready_count Nat.odd j)
    (n_req Wire0 + j + ready_count Nat.odd j) (Nat.odd j)
    (100 * (Z.of_nat (ready_count Nat.odd j) + 1)).
Proof.
  intros Hj.
  assert (Hcases : (j = 0 \/ j = 1 \/ j = 2 \/ j = 3 \/ j = 4 \/ j = 5)%nat) by lia.
  destruct Hcases as [-> | [-> | [-> | [-> | [-> | ->]]]]]; solve_pass_at.
Qed.

Lemma getAverageReading_averages_witness :
  exists w',
    getAverageReading env_every_second 6 3 Wire0
    = (Returns (Ok (Z.quot (sum_first (fun i => 100 * (Z.of_nat i + 1)) 3) 3)), w') /\
    n_req w' = 9%nat.
Proof.
  apply (getAverageReading_averages env_every_second Wire0 3 Nat.odd
           (fun i => 100 * (Z.of_nat i + 1)) 6 6).
  - lia.
  - apply env_every_second_pass.
  - intros j Hj.
    assert (Hcases : (j = 0 \/ j = 1 \/ j = 2 \/ j = 3 \/ j = 4 \/ j = 5)%nat) by lia.
    destruct Hcases as [-> | [-> | [-> | [-> | [-> | ->]]]]]; vm_compute; reflexivity.
  - reflexivity.
  - intros j Hj. unfold env_every_second. rewrite elapsed_ticking; lia.
  - lia.
Defined.



(** X22. The first error ends the averaging with that error: in a run
    whose passes before pass [k] meet no error, if the poll of pass [k]
    fails, or finds a conversion ready and the read of the sample fails,
    with the error [e], [getAverageReading] returns [e]. The failure may
    be any the driver knows: status 3 or 4, status 1 or 2 still after
    three attempts, or no byte delivered. *)
Theorem getAverageReading_transport_error env w average_size ready v (k fuel : nat) e :
  average_size <= 255 ->
  (forall j, (j < k)%nat ->
     pass_at env (n_end w + j + ready_count ready j) (n_req w + j + ready_count ready j)
       (ready j) (v (ready_count ready j))) ->
  (forall j, (j <= k)%nat -> Z.of_nat (ready_count ready j) < average_size) ->
  (forall j, (j < k)%nat -> elapsed env w j <= average_size * 13) ->
  read_fails_at env (n_end w + k + ready_count ready k)
    (n_req w + k + ready_count ready k) e \/
  (reads_bit_at env (n_end w + k + ready_count ready k) (n_req w + k + ready_count ready k)
     NAU7802_PU_CTRL_CR true /\
   read_fails_at env (n_end w + k + ready_count ready k + 1)
     (n_req w + k + ready_count ready k + 1) e) ->
  (k <= fuel)%nat ->
  fst (getAverageReading env fuel average_size w) = Returns (Err e).
Proof.
  intros Hsize Hrun Hmore Hbefore Herr Hfuel.
  unfold getAverageReading, getAverageReading_timeout, bind.
  change (millis env w) with (uint32 (millis_at env (n_millis w)), snd (millis env w)).
  destruct (average_skip env w average_size ready v k Hsize Hrun
              (fun j Hj => Hmore j ltac:(lia)) Hbefore fuel Hfuel)
    as (w' & (He & Hr & Hm & _ & _) & ->).
  rewrite getAverageReading_loop_eq.
  pose proof (Hmore k (le_n _)) as Hc.
  destruct (Z.ltb_spec (Z.of_nat (ready_count ready k)) average_size); [|lia].
  unfold bind at 1.
  destruct Herr as [Hpoll | [Hpoll Hread]].
  - rewrite (available_fails env w' e) by (rewrite He, Hr; exact Hpoll). reflexivity.
  - rewrite (available_reads env w' true) by (rewrite He, Hr; exact Hpoll).
    unfold bind at 1. unfold bind at 1.
    pose proof (getReading_fails env (after_read NAU7802_PU_CTRL w') e) as Hfail.
    cbn [after_read n_end n_req] in Hfail. rewrite He, Hr in Hfail.
    replace (S (n_req w + k + ready_count ready k))
      with (n_req w + k + ready_count ready k + 1)%nat in Hfail by lia.
    specialize (Hfail Hread).
    destruct (getReading env (after_read NAU7802_PU_CTRL w')) as [r w2].
    cbn [fst] in Hfail. subst r. reflexivity.
Qed.

Lemma getAverageReading_transport_error_witness :
  fst (getAverageReading (env_status 4) 0 8 Wire0) = Returns (Err NAU7802_I2C_ERROR) /\
  fst (getAverageReading (env_status 2) 0 8 Wire0)
  = Returns (Err NAU7802_I2C_NACK_ADDR_ERROR) /\
  fst (getAverageReading (env_sample []) 0 8 Wire0)
  = Returns (Err NAU7802_I2C_NO_DATA_ERROR) /\
  fst (getAverageReading (env_weigh []) 0 8 Wire0)
  = Returns (Err NAU7802_I2C_NO_DATA_ERROR).
Proof.
  split; [|split; [|split]].
  - apply (getAverageReading_transport_error (env_status 4) Wire0 8 (fun _ => false)
             (fun _ => 0) 0 0 NAU7802_I2C_ERROR);
      [lia | intros j Hj; lia | intros j Hj; replace j with 0%nat by lia; reflexivity
       | intros j Hj; lia | left; left; reflexivity | lia].
  - apply (getAverageReading_transport_error (env_status 2) Wire0 8 (fun _ => false)
             (fun _ => 0) 0 0 NAU7802_I2C_NACK_ADDR_ERROR);
      [lia | intros j Hj; lia | intros j Hj; replace j with 0%nat by lia; reflexivity
       | intros j Hj; lia | left; left; reflexivity | lia].
  - apply (getAverageReading_transport_error (env_sample []) Wire0 8 (fun _ => false)
             (fun _ => 0) 0 0 NAU7802_I2C_NO_DATA_ERROR);
      [lia | intros j Hj; lia | intros j Hj; replace j with 0%nat by lia; reflexivity
       | intros j Hj; lia | left; right; repeat split | lia].
  - apply (getAverageReading_transport_error (env_weigh []) Wire0 8 (fun _ => false)
             (fun _ => 0) 0 0 NAU7802_I2C_NO_DATA_ERROR);
      [lia | intros j Hj; lia | intros j Hj; replace j with 0%nat by lia; reflexivity
       | intros j Hj; lia | | lia].
    right. split.
    + split; [reflexivity|]. exists 0x20, []. split; reflexivity.
    + right. repeat split.
Defined.

Lemma average_loop_range env average_size timeout startTime :
  average_size <= 255 ->
  forall fuel total samplesAquired w result,
  0 <= samplesAquired <= average_size ->
  - samplesAquired * 2 ^ 23 <= total <= samplesAquired * (2 ^ 23 - 1) ->
  fst (getAverageReading_loop env fuel average_size timeout startTime total
         samplesAquired w) = Returns (Ok result) ->
  - average_size * 2 ^ 23 <= result <= average_size * (2 ^ 23 - 1).
Proof.
  intros Hsize. induction fuel as [|fuel IH]; intros total samples w result Hc Ht;
    rewrite getAverageReading_loop_eq;
    (destruct (Z.ltb_spec samples average_size) as [Hlt|Hge];
     [|cbn [ret fst]; intros [= <-]; assert (samples = average_size) by lia; subst; lia]);
    unfold bind;
    (destruct (available env w) as [[rdy|e] w1]; [|discriminate]);
    (destruct rdy;
     [destruct (getReading env w1) as [[value|e] w2] eqn:Hread; [|discriminate];
      apply (f_equal fst) in Hread; cbn [fst] in Hread;
      pose proof (getReading_range env w1 value Hread) as Hv|]);
    unfold ret, millis; cbn [fst snd];
    (destruct (timeout <? _); [discriminate|]); try discriminate.
  - rewrite int32_small, uint8_small by lia. apply IH; lia.
  - apply IH; lia.
Qed.

Lemma getAverageReading_in_range env fuel average_size w avg :
  0 < average_size <= 255 ->
  fst (getAverageReading env fuel average_size w) = Returns (Ok avg) ->
  - 2 ^ 23 <= avg <= 2 ^ 23 - 1.
Proof.
  intros Hsize. unfold getAverageReading, bind.
  destruct (millis env w) as [startTime w1].
  pose proof (average_loop_range env average_size
                (getAverageReading_timeout average_size) startTime ltac:(lia)
                fuel 0 0 w1) as Hloop.
  destruct (getAverageReading_loop _ _ _ _ _ _ _ _) as [[[total|e]| |] w2];
    cbn [fst] in *; try discriminate.
  specialize (Hloop total ltac:(lia) ltac:(lia) eq_refl).
  destruct (Z.eqb_spec average_size 0); [lia|]. cbn [ret fst]. intros [= <-].
  split.
  - replace (- 2 ^ 23) with (Z.quot (- (2 ^ 23 * average_size)) average_size)
      by (rewrite Z.quot_opp_l, Z.quot_mul by lia; reflexivity).
    apply Z.quot_le_mono; lia.
  - replace (2 ^ 23 - 1) with (Z.quot ((2 ^ 23 - 1) * average_size) average_size)
      by (rewrite Z.quot_mul by lia; reflexivity).
    apply Z.quot_le_mono; lia.
Qed.

(** X23. Whatever the device does, an average that [getAverageReading]
    hands out for an [average_size] from 1 to 255 lies in the range of the
    samples, [-2^23, 2^23 - 1]. *)
Theorem getAverageReading_range env fuel average_size w avg :
  0 < average_size <= 255 ->
  fst (getAverageReading env fuel average_size w) = Returns (Ok avg) ->
  - 2 ^ 23 <= avg <= 2 ^ 23 - 1.
Proof. apply getAverageReading_in_range. Qed.

Lemma getAverageReading_range_witness :
  fst (getAverageReading (env_weigh [0x80; 0x00; 0x00]) 5 2 Wire0)
  = Returns (Ok (- 2 ^ 23)) /\
  - 2 ^ 23 <= - 2 ^ 23 <= 2 ^ 23 - 1.
Proof.
  assert (H : fst (getAverageReading (env_weigh [0x80; 0x00; 0x00]) 5 2 Wire0)
              = Returns (Ok (- 2 ^ 23))) by (vm_compute; reflexivity).
  split; [exact H|].
  apply (getAverageReading_range (env_weigh [0x80; 0x00; 0x00]) 5 2 Wire0 (- 2 ^ 23));
    [lia | exact H].
Defined.

(** ** Floating point, continued *)

Lemma shr_1_nonneg mrs : 0 <= shr_m mrs -> 0 <= shr_m (shr_1 mrs).
Proof.
  destruct mrs as [m r s]. cbn [shr_m]. intros Hm.
  destruct m as [|[p|p|]|p]; cbn; lia.
Qed.

Lemma iter_shr_1_nonneg p :
  forall mrs, 0 <= shr_m mrs -> 0 <= shr_m (SpecFloat.iter_pos shr_1 p mrs).
Proof.
  induction p as [p IH|p IH|]; intros mrs Hm; cbn [SpecFloat.iter_pos].
  - apply IH, IH, shr_1_nonneg, Hm.
  - apply IH, IH, Hm.
  - apply shr_1_nonneg, Hm.
Qed.

Lemma shr_fexp_nonneg m e l :
  0 <= m -> 0 <= shr_m (fst (shr_fexp prec emax m e l)).
Proof.
  intros Hm. unfold shr_fexp, shr.
  assert (H0 : 0 <= shr_m (shr_record_of_loc m l)) by (destruct l as [|[]]; exact Hm).
  destruct (_ - e) as [|p|p]; cbn [fst]; [exact H0 | now apply iter_shr_1_nonneg | exact H0].
Qed.

Lemma round_nearest_even_nonneg mx lx : 0 <= mx -> 0 <= round_nearest_even mx lx.
Proof.
  intros Hm. unfold round_nearest_even.
  destruct lx as [|[]]; try destruct (Z.even mx); lia.
Qed.

(** Rounding a non-negative mantissa never gives not-a-number, and gives
    the sign it was asked for. *)
Lemma binary_round_aux_cases sx mx ex lx :
  0 <= mx ->
  let f := binary_round_aux prec emax sx mx ex lx in
  f = S754_zero sx \/ f = S754_infinity sx \/ exists m e, f = S754_finite sx m e.
Proof.
  intros Hm. cbv zeta. unfold binary_round_aux.
  pose proof (shr_fexp_nonneg mx ex lx Hm) as H1.
  destruct (shr_fexp prec emax mx ex lx) as [mrs' e']. cbn [fst] in H1.
  pose proof (shr_fexp_nonneg
                (round_nearest_even (shr_m mrs') (loc_of_shr_record mrs')) e' loc_Exact
                (round_nearest_even_nonneg _ _ H1)) as H2.
  destruct (shr_fexp prec emax _ e' loc_Exact) as [mrs'' e'']. cbn [fst] in H2.
  destruct (shr_m mrs'') as [|m|m]; [now left | | lia].
  destruct (e'' <=? emax - prec); [right; right; eauto | right; now left].
Qed.

Lemma float_of_long_cases z :
  let f := float_of_long z in
  f = S754_zero (z <? 0) \/
  f = S754_infinity (z <? 0) \/ exists m e, f = S754_finite (z <? 0) m e.
Proof.
  cbv zeta. unfold float_of_long, binary_normalize.
  destruct z as [|p|p]; [now left | |]; unfold binary_round;
    destruct (shl_align _ _ _) as [mz ez];
    [change (Z.pos p <? 0) with false | change (Z.neg p <? 0) with true];
    apply binary_round_aux_cases; lia.
Qed.

Lemma float_of_long_not_nan z : isnan (float_of_long z) = false.
Proof.
  destruct (float_of_long_cases z) as [H | [H | (m & e & H)]]; cbv zeta in H;
    rewrite H; reflexivity.
Qed.

Lemma fdiv_not_negative x m e :
  x = S754_zero false \/ x = S754_infinity false \/
  (exists mx ex, x = S754_finite false mx ex) ->
  flt (fdiv x (S754_finite false m e)) float_0 = false.
Proof.
  intros [-> | [-> | (mx & ex & ->)]]; try reflexivity.
  unfold fdiv, SFdiv.
  destruct (SFdiv_core_binary prec emax (Z.pos mx) ex (Z.pos m) e) as [[mz ez] lz] eqn:Hcore.
  assert (Hmz : 0 <= mz).
  { unfold SFdiv_core_binary in Hcore.
    match type of Hcore with
    | context [Z.div_eucl ?a ?b] =>
        pose proof (Z_div_mod a b ltac:(lia)) as Hdm;
        assert (Ha : 0 <= a)
    end.
    { destruct (_ - _ - _) as [|q|q]; [lia | | lia].
      rewrite Z.shiftl_mul_pow2 by lia. apply Z.mul_nonneg_nonneg; [lia|].
      apply Z.pow_nonneg. lia. }
    destruct (Z.div_eucl _ _) as [q r]. injection Hcore as <- _ _.
    destruct Hdm as [Heq Hr]. nia. }
  destruct (binary_round_aux_cases (xorb false false) mz ez lz Hmz)
    as [H | [H | (m' & e' & H)]]; cbv zeta in H; rewrite H; reflexivity.
Qed.

Lemma fdiv_by_zero_not_finite x s : is_finite (fdiv x (S754_zero s)) = false.
Proof. destruct x as [sx|sx| |sx mx ex]; reflexivity. Qed.

Lemma digits2_pos_bounds m :
  2 ^ (Zpos (digits2_pos m) - 1) <= Zpos m < 2 ^ Zpos (digits2_pos m).
Proof.
  induction m as [p IH|p IH|]; cbn [digits2_pos]; [| |cbn; lia];
    rewrite Pos2Z.inj_succ;
    replace (Z.succ (Zpos (digits2_pos p)) - 1) with (Z.succ (Zpos (digits2_pos p) - 1))
      by lia;
    rewrite !Z.pow_succ_r by lia; lia.
Qed.

(** A finite binary32 number in canonical form is either subnormal, with
    exponent -149, or has 24 significant bits. *)
Lemma bounded_cases m e :
  bounded prec emax m e = true ->
  (Zpos m < 2 ^ 23 /\ e = -149) \/
  (2 ^ 23 <= Zpos m < 2 ^ 24 /\ -149 <= e <= 104).
Proof.
  unfold bounded, canonical_mantissa, fexp, emin, prec, emax. intros H.
  apply andb_prop in H as [Hc He]. apply Z.eqb_eq in Hc. apply Z.leb_le in He.
  pose proof (digits2_pos_bounds m) as [Hlo Hhi].
  set (d := Zpos (digits2_pos m)) in *. assert (Hd : 0 < d) by (unfold d; lia).
  destruct (Z.le_gt_cases d 23) as [Hsmall|Hbig].
  - left. split; [|lia].
    apply Z.lt_le_trans with (2 ^ d); [assumption|]. apply Z.pow_le_mono_r; lia.
  - right. assert (d = 24) by lia. split; [|lia]. split.
    + apply Z.le_trans with (2 ^ (d - 1)); [|assumption]. apply Z.pow_le_mono_r; lia.
    + replace 24 with d by lia. assumption.
Qed.

Lemma float_of_bits_fields (s : bool) E M :
  0 <= E < 256 -> 0 <= M < 2 ^ 23 ->
  let b := (if s then 2 ^ 31 else 0) + E * 2 ^ 23 + M in
  Z.testbit b 31 = s /\ Z.land (Z.shiftr b 23) 0xFF = E /\ Z.land b 0x7FFFFF = M.
Proof.
  intros HE HM b.
  assert (Hb : b = (if s then 2 ^ 31 else 0) + E * 2 ^ 23 + M) by reflexivity.
  clearbody b. split; [|split].
  - destruct s.
    + apply Z.testbit_true; [lia|]. Z.to_euclidean_division_equations. lia.
    + apply Z.testbit_false; [lia|]. Z.to_euclidean_division_equations. lia.
  - change 0xFF with (Z.ones 8). rewrite Z.land_ones, Z.shiftr_div_pow2 by lia.
    destruct s; Z.to_euclidean_division_equations; lia.
  - change 0x7FFFFF with (Z.ones 23). rewrite Z.land_ones by lia.
    destruct s; Z.to_euclidean_division_equations; lia.
Qed.

Lemma bits_of_float_range f :
  valid_binary prec emax f = true -> 0 <= bits_of_float f < 2 ^ 32.
Proof.
  destruct f as [s|s| |s m e]; cbn [valid_binary bits_of_float].
  1-3: intros _; try destruct s; vm_compute; (split; [congruence | reflexivity]).
  intros H. apply bounded_cases in H as [[Hm He] | [Hm He]].
  - destruct (Z.ltb_spec (Zpos m) (2 ^ 23)); [|lia]. destruct s; lia.
  - destruct (Z.ltb_spec (Zpos m) (2 ^ 23)); [lia|]. destruct s; lia.
Qed.

(** Decoding the object representation of a number gives the number
    back. *)
Lemma float_of_bits_of_float f :
  valid_binary prec emax f = true -> isnan f = false ->
  float_of_bits (bits_of_float f) = f.
Proof.
  destruct f as [s|s| |s m e]; cbn [valid_binary bits_of_float isnan].
  1-2: intros _ _; destruct s; vm_compute; reflexivity.
  1: intros _ H; discriminate H.
  intros H _. apply bounded_cases in H as [[Hm He] | [Hm He]].
  - destruct (Z.ltb_spec (Zpos m) (2 ^ 23)); [|lia].
    destruct (float_of_bits_fields s 0 (Zpos m) ltac:(lia) ltac:(lia)) as (H1 & H2 & H3).
    cbv zeta in H1, H2, H3. rewrite Z.mul_0_l, Z.add_0_r in H1, H2, H3.
    unfold float_of_bits. cbv zeta. rewrite H1, H2, H3. cbn [Z.eqb]. now subst e.
  - destruct (Z.ltb_spec (Zpos m) (2 ^ 23)); [lia|].
    destruct (float_of_bits_fields s (e + 150) (Zpos m - 2 ^ 23) ltac:(lia) ltac:(lia))
      as (H1 & H2 & H3).
    cbv zeta in H1, H2, H3.
    unfold float_of_bits. cbv zeta. rewrite H1, H2, H3.
    destruct (Z.eqb_spec (e + 150) 0); [lia|].
    destruct (Z.eqb_spec (e + 150) 255); [lia|].
    replace (Zpos m - 2 ^ 23 + 2 ^ 23) with (Zpos m) by lia.
    replace (e + 150 - 150) with e by lia. reflexivity.
Qed.

(** ** Weight and calibration layer, continued *)

(** X24. With [allow_negative = false], a positive finite calibration
    factor and a zero offset of at least [-2^31 + 2^23] (so that the
    difference of the reading and the offset fits 32 bits), a weight that
    [getAverageWeight] hands out is never below zero. *)
Theorem getAverageWeight_not_negative env fuel average_size s w m e weight :
  0 < average_size <= 255 ->
  calibrationFactor s = S754_finite false m e ->
  - 2 ^ 31 + 2 ^ 23 <= zeroOffset s ->
  fst (getAverageWeight env fuel average_size false s w) = Returns (Ok weight) ->
  flt weight float_0 = false.
Proof.
  intros Hsize Hf Hz. unfold getAverageWeight.
  destruct (isCalibrated s); cbn [negb]; [|discriminate]. unfold bind.
  destruct (getAverageReading env fuel average_size w) as [o w1] eqn:Havg.
  destruct o as [[avg|err]| |]; try discriminate.
  pose proof (getAverageReading_in_range env fuel average_size w avg Hsize
                ltac:(now rewrite Havg)) as Hrange.
  cbn [ret fst negb andb]. intros [= <-]. rewrite Hf.
  apply fdiv_not_negative.
  destruct (Z.ltb_spec avg (zeroOffset s)) as [Hlt|Hge].
  - rewrite Z.sub_diag. left. reflexivity.
  - rewrite int32_small by lia.
    pose proof (float_of_long_cases (avg - zeroOffset s)) as Hc. cbv zeta in Hc.
    destruct (Z.ltb_spec (avg - zeroOffset s) 0); [lia|]. exact Hc.
Qed.

Lemma getAverageWeight_not_negative_witness :
  fst (getAverageWeight (env_weigh [0x00; 0x03; 0x84]) 5 1 false scale_1000_2 Wire0)
  = Returns (Ok float_0) /\
  flt float_0 float_0 = false.
Proof.
  assert (H : fst (getAverageWeight (env_weigh [0x00; 0x03; 0x84]) 5 1 false
                     scale_1000_2 Wire0) = Returns (Ok float_0))
    by (vm_compute; reflexivity).
  split; [exact H|].
  apply (getAverageWeight_not_negative (env_weigh [0x00; 0x03; 0x84]) 5 1 scale_1000_2
           Wire0 8388608%positive (-22) float_0);
    [lia | reflexivity | vm_compute; congruence | exact H].
Defined.

(** X25. [calculateZeroOffset] takes the average as the new zero offset,
    leaves the factor and the is-calibrated flag as they were and, when
    [useEEPROM] is set, stores the record, so that the zero offset reads
    back from its cells; when the averaging fails it returns the error,
    marks the scale not calibrated and changes neither the two fields nor
    the store. *)
Theorem calculateZeroOffset_outcomes env fuel average_size s ee w w' :
  (forall avg,
     getAverageReading env fuel average_size w = (Returns (Ok avg), w') ->
     exists s' ee',
       calculateZeroOffset env fuel average_size s ee w
       = (Returns (SCALE_OK, s', ee'), w') /\
       zeroOffset s' = avg /\ calibrationFactor s' = calibrationFactor s /\
       isCalibrated s' = isCalibrated s /\
       (useEEPROM s = true ->
        EEPROM_get_long ee' (zeroOffsetLocation s) = int32 avg) /\
       (useEEPROM s = false -> ee' = ee)) /\
  (forall err,
     getAverageReading env fuel average_size w = (Returns (Err err), w') ->
     exists s',
       calculateZeroOffset env fuel average_size s ee w = (Returns (err, s', ee), w') /\
       isCalibrated s' = false /\
       zeroOffset s' = zeroOffset s /\ calibrationFactor s' = calibrationFactor s).
Proof.
  split.
  - intros avg Havg. unfold calculateZeroOffset, bind. rewrite Havg.
    cbn [setZeroOffset useEEPROM]. eexists. eexists. split; [reflexivity|].
    repeat split.
    + intros ->. unfold storeCalibration, getZeroOffset.
      cbn [zeroOffsetLocation zeroOffset]. apply EEPROM_get_long_put_long.
    + intros ->. reflexivity.
  - intros err Havg. unfold calculateZeroOffset, bind. rewrite Havg.
    eexists. split; [reflexivity|]. repeat split.
Qed.

Lemma calculateZeroOffset_outcomes_witness :
  (exists s' ee',
     calculateZeroOffset (env_weigh [0x00; 0x03; 0x84]) 5 1 QwiicScale0 ∅ Wire0
     = (Returns (SCALE_OK, s', ee'),
        snd (getAverageReading (env_weigh [0x00; 0x03; 0x84]) 5 1 Wire0)) /\
     zeroOffset s' = 900 /\ calibrationFactor s' = float_1 /\
     isCalibrated s' = false /\
     (useEEPROM QwiicScale0 = true -> EEPROM_get_long ee' 10 = int32 900) /\
     (useEEPROM QwiicScale0 = false -> ee' = ∅)) /\
  (exists s',
     calculateZeroOffset (env_status 4) 5 1 scale_1000_2 ∅ Wire0
     = (Returns (NAU7802_I2C_ERROR, s', ∅),
        snd (getAverageReading (env_status 4) 5 1 Wire0)) /\
     isCalibrated s' = false /\
     zeroOffset s' = 1000 /\ calibrationFactor s' = float_2).
Proof.
  split.
  - apply (proj1 (calculateZeroOffset_outcomes (env_weigh [0x00; 0x03; 0x84]) 5 1
                    QwiicScale0 ∅ Wire0
                    (snd (getAverageReading (env_weigh [0x00; 0x03; 0x84]) 5 1 Wire0)))
             900).
    vm_compute. reflexivity.
  - apply (proj2 (calculateZeroOffset_outcomes (env_status 4) 5 1 scale_1000_2 ∅ Wire0
                    (snd (getAverageReading (env_status 4) 5 1 Wire0)))
             NAU7802_I2C_ERROR).
    vm_compute. reflexivity.
Defined.

(** X26. [calculateCalibrationFactor] marks the scale calibrated whatever
    factor comes out: with a reference weight of zero the factor it keeps
    is an infinity or not-a-number, and with an average equal to the zero
    offset (and a reference weight that is a non-zero number) the factor
    is zero. *)
Theorem calculateCalibrationFactor_degenerate env fuel average_size s ee w w' avg :
  getAverageReading env fuel average_size w = (Returns (Ok avg), w') ->
  (forall sign,
     exists s' ee',
       calculateCalibrationFactor env fuel (S754_zero sign) average_size s ee w
       = (Returns (SCALE_OK, s', ee'), w') /\
       isCalibrated s' = true /\ is_finite (calibrationFactor s') = false) /\
  (forall sign m e,
     avg = zeroOffset s ->
     exists s' ee',
       calculateCalibrationFactor env fuel (S754_finite sign m e) average_size s ee w
       = (Returns (SCALE_OK, s', ee'), w') /\
       isCalibrated s' = true /\ calibrationFactor s' = S754_zero sign).
Proof.
  intros Havg. split.
  - intros sign. unfold calculateCalibrationFactor, bind. rewrite Havg.
    eexists. eexists. split; [reflexivity|].
    split; [reflexivity|]. cbn [set_isCalibrated setCalibrationFactor calibrationFactor].
    apply fdiv_by_zero_not_finite.
  - intros sign m e ->. unfold calculateCalibrationFactor, bind. rewrite Havg.
    eexists. eexists. split; [reflexivity|].
    split; [reflexivity|]. cbn [set_isCalibrated setCalibrationFactor calibrationFactor].
    rewrite Z.sub_diag. reflexivity.
Qed.

Lemma calculateCalibrationFactor_degenerate_witness :
  exists s' ee',
    calculateCalibrationFactor (env_weigh [0x00; 0x0B; 0xB8]) 5 (S754_zero false) 1
      scale_1000_2 ∅ Wire0
    = (Returns (SCALE_OK, s', ee'),
       snd (getAverageReading (env_weigh [0x00; 0x0B; 0xB8]) 5 1 Wire0)) /\
    isCalibrated s' = true /\ is_finite (calibrationFactor s') = false.
Proof.
  apply (proj1 (calculateCalibrationFactor_degenerate (env_weigh [0x00; 0x0B; 0xB8]) 5 1
                  scale_1000_2 ∅ Wire0
                  (snd (getAverageReading (env_weigh [0x00; 0x0B; 0xB8]) 5 1 Wire0))
                  3000 ltac:(vm_compute; reflexivity)) false).
Defined.

Lemma readCalibration_valid s ee :
  let f := EEPROM_get_float ee (calFactorLocation s) in
  let z := EEPROM_get_long ee (zeroOffsetLocation s) in
  valid_factor f -> valid_offset z ->
  readCalibration s ee =
  (SCALE_OK,
   mkScale (useEEPROM s)
     (negb ((z =? 0) || flt (fsub f float_1) float_milli))
     (negb ((z =? 0) || flt (fsub f float_1) float_milli))
     (calFactorLocation s) (zeroOffsetLocation s) f z,
   ee).
Proof.
  intros f z [Hf1 Hf2] [Hz1 Hz2]. unfold readCalibration.
  fold f. rewrite Hf1, Hf2. cbn [orb setCalibrationFactor zeroOffsetLocation].
  fold z. rewrite Hz1, Hz2. clearbody f z.
  cbn [orb setZeroOffset setCalibrationFactor set_calibrationDetected set_isCalibrated
         zeroOffset calibrationFactor useEEPROM calibrationDetected isCalibrated
         calFactorLocation zeroOffsetLocation].
  destruct ((z =? 0) || flt (fsub f float_1) float_milli); reflexivity.
Qed.

Lemma valid_offset_iff z :
  - 2 ^ 31 <= z < 2 ^ 31 -> (valid_offset z <-> z <> -1).
Proof.
  intros Hz. unfold valid_offset. rewrite float_of_long_not_nan.
  split.
  - intros [H _] ->. discriminate H.
  - intros Hne. split; [|reflexivity]. apply Z.eqb_neq. unfold uint32.
    Z.to_euclidean_division_equations. lia.
Qed.

Lemma stored_fields s (ee : gmap Z Z) :
  fields_apart s ->
  EEPROM_get32 (storeCalibration s ee) (calFactorLocation s)
  = uint32 (bits_of_float (calibrationFactor s)) /\
  EEPROM_get_long (storeCalibration s ee) (zeroOffsetLocation s) = int32 (zeroOffset s).
Proof.
  intros Hapart. unfold storeCalibration, getZeroOffset, getCalibrationFactor. split.
  - unfold EEPROM_put_long, EEPROM_put_float.
    rewrite EEPROM_get32_put32_disjoint by (unfold fields_apart in Hapart; lia).
    apply EEPROM_get32_put32_same.
  - apply EEPROM_get_long_put_long.
Qed.

(** X27. What [storeCalibration] writes, [readCalibration] reads back:
    for fields that do not share a cell, a factor that is a binary32
    number other than 4294967296.0, and a zero offset other than -1, a
    load from the same two locations returns [SCALE_OK] with the factor
    and the zero offset that were stored, and leaves the store as it
    is. *)
Theorem store_then_read_calibration s s0 (ee : gmap Z Z) :
  calFactorLocation s0 = calFactorLocation s ->
  zeroOffsetLocation s0 = zeroOffsetLocation s ->
  fields_apart s ->
  valid_binary prec emax (calibrationFactor s) = true ->
  valid_factor (calibrationFactor s) ->
  - 2 ^ 31 <= zeroOffset s < 2 ^ 31 ->
  zeroOffset s <> -1 ->
  exists s',
    readCalibration s0 (storeCalibration s ee) = (SCALE_OK, s', storeCalibration s ee) /\
    calibrationFactor s' = calibrationFactor s /\
    zeroOffset s' = zeroOffset s.
Proof.
  intros Hcf Hzo Hapart Hvalid Hfactor Hrange Hne.
  destruct (stored_fields s ee Hapart) as [Hf Hz].
  assert (Hf' : EEPROM_get_float (storeCalibration s ee) (calFactorLocation s0)
                = calibrationFactor s).
  { unfold EEPROM_get_float. rewrite Hcf, Hf.
    rewrite uint32_small by now apply bits_of_float_range.
    apply float_of_bits_of_float; [assumption | apply Hfactor]. }
  assert (Hz' : EEPROM_get_long (storeCalibration s ee) (zeroOffsetLocation s0)
                = zeroOffset s).
  { rewrite Hzo, Hz. now apply int32_small. }
  pose proof (readCalibration_valid s0 (storeCalibration s ee)) as Hread.
  cbv zeta in Hread. rewrite Hf', Hz' in Hread.
  rewrite (Hread Hfactor (proj2 (valid_offset_iff _ Hrange) Hne)).
  eexists. split; [reflexivity|]. split; reflexivity.
Qed.

Lemma store_then_read_calibration_witness :
  exists s',
    readCalibration QwiicScale0 (storeCalibration scale_1000_2 ∅)
    = (SCALE_OK, s', storeCalibration scale_1000_2 ∅) /\
    calibrationFactor s' = float_2 /\ zeroOffset s' = 1000.
Proof.
  apply (store_then_read_calibration scale_1000_2 QwiicScale0 ∅);
    try reflexivity.
  - left. vm_compute. congruence.
  - split; reflexivity.
  - split; [vm_compute; congruence | reflexivity].
  - vm_compute. congruence.
Defined.



Lemma erased_get32 (ee : gmap Z Z) a :
  erased_at ee a -> EEPROM_get32 ee a = 0xFFFFFFFF.
Proof.
  intros H. unfold EEPROM_get32.
  pose proof (H 0 ltac:(lia)) as H0. rewrite Z.add_0_r in H0.
  rewrite H0, (H 1), (H 2), (H 3) by lia. reflexivity.
Qed.

Lemma readCalibration_bad_factor s (ee : gmap Z Z) :
  feq (EEPROM_get_float ee (calFactorLocation s)) (float_of_long 0xFFFFFFFF)
  || isnan (EEPROM_get_float ee (calFactorLocation s)) = true ->
  readCalibration s ee =
  (SCALE_EEPROM_READ_CAL_ERROR,
   mkScale (useEEPROM s) false false (calFactorLocation s) (zeroOffsetLocation s) float_1 0,
   EEPROM_put_float (calFactorLocation s) float_1 ee).
Proof. intros H. unfold readCalibration. rewrite H. reflexivity. Qed.

(** X29. On erased cells (every byte 0xFF) with fields that do not share
    a cell, the first load fails with [SCALE_EEPROM_READ_CAL_ERROR] and
    repairs only the factor, the second fails with
    [SCALE_EEPROM_READ_OFFSET_ERROR] and repairs both fields, and only the
    third returns [SCALE_OK], with the defaults and not calibrated, and
    leaves the store as it is. *)
Theorem readCalibration_erased_cells s (ee : gmap Z Z) :
  fields_apart s ->
  erased_at ee (calFactorLocation s) ->
  erased_at ee (zeroOffsetLocation s) ->
  exists s' ee1 ee2,
    readCalibration s ee = (SCALE_EEPROM_READ_CAL_ERROR, s', ee1) /\
    readCalibration s' ee1 = (SCALE_EEPROM_READ_OFFSET_ERROR, s', ee2) /\
    readCalibration s' ee2 = (SCALE_OK, s', ee2) /\
    isCalibrated s' = false /\ calibrationFactor s' = float_1 /\ zeroOffset s' = 0.
Proof.
  intros Hapart Hcf Hzo. unfold fields_apart in Hapart.
  apply erased_get32 in Hcf. apply erased_get32 in Hzo.
  set (s' := mkScale (useEEPROM s) false false (calFactorLocation s)
               (zeroOffsetLocation s) float_1 0).
  set (ee1 := EEPROM_put_float (calFactorLocation s) float_1 ee).
  set (ee2 := EEPROM_put_float (calFactorLocation s) float_1
                (EEPROM_put_long (zeroOffsetLocation s) 0 ee1)).
  exists s', ee1, ee2.
  assert (Hone : float_of_bits (uint32 (bits_of_float float_1)) = float_1)
    by (vm_compute; reflexivity).
  assert (Hnan : isnan (float_of_bits 4294967295) = true)
    by (vm_compute; reflexivity).
  assert (Hgood : valid_factor float_1) by (split; vm_compute; reflexivity).
  assert (Hgood' : valid_offset 0) by (split; vm_compute; reflexivity).
  assert (Hf1 : EEPROM_get_float ee1 (calFactorLocation s') = float_1).
  { unfold ee1, EEPROM_get_float, EEPROM_put_float. cbn [s' calFactorLocation].
    now rewrite EEPROM_get32_put32_same. }
  assert (Hz1 : EEPROM_get_long ee1 (zeroOffsetLocation s') = -1).
  { unfold ee1, EEPROM_get_long, EEPROM_put_float. cbn [s' zeroOffsetLocation].
    rewrite EEPROM_get32_put32_disjoint by lia. rewrite Hzo.
    vm_compute. reflexivity. }
  assert (Hf2 : EEPROM_get_float ee2 (calFactorLocation s') = float_1).
  { unfold ee2, EEPROM_get_float, EEPROM_put_float. cbn [s' calFactorLocation].
    now rewrite EEPROM_get32_put32_same. }
  assert (Hz2 : EEPROM_get_long ee2 (zeroOffsetLocation s') = 0).
  { unfold ee2, EEPROM_get_long, EEPROM_put_float, EEPROM_put_long.
    cbn [s' zeroOffsetLocation].
    rewrite EEPROM_get32_put32_disjoint by lia.
    rewrite EEPROM_get32_put32_same. vm_compute. reflexivity. }
  split; [|split; [|split; [|repeat split]]].
  - apply readCalibration_bad_factor. unfold EEPROM_get_float.
    rewrite Hcf, Hnan. apply orb_true_r.
  - pose proof (readCalibration_bad_offset_rewrites_both s' ee1) as H.
    cbv zeta in H. rewrite Hf1, Hz1 in H.
    apply (H Hgood). vm_compute. reflexivity.
  - pose proof (readCalibration_valid s' ee2) as H.
    cbv zeta in H. rewrite Hf2, Hz2 in H.
    apply (H Hgood Hgood').
Qed.

Lemma readCalibration_erased_cells_witness :
  exists s' ee1 ee2,
    readCalibration QwiicScale0 ∅ = (SCALE_EEPROM_READ_CAL_ERROR, s', ee1) /\
    readCalibration s' ee1 = (SCALE_EEPROM_READ_OFFSET_ERROR, s', ee2) /\
    readCalibration s' ee2 = (SCALE_OK, s', ee2) /\
    isCalibrated s' = false /\ calibrationFactor s' = float_1 /\ zeroOffset s' = 0.
Proof.
  apply (readCalibration_erased_cells QwiicScale0 ∅).
  - left. vm_compute. congruence.
  - intros i _. reflexivity.
  - intros i _. reflexivity.
Defined.

(** ** [begin] *)

(** X30. [begin] probes the address with an empty frame, a second time
    when the first is not acknowledged. When neither probe is
    acknowledged it returns [NAU7802_I2C_ERROR] after these two frames,
    whatever [initialize] is; with [initialize = false] and one of the
    probes acknowledged it returns [NAU7802_OK] and sends nothing but the
    probes. *)
Theorem begin_probes env fuel initialize w :
  let probed n :=
    mkWire [] (rxBuffer w) (n_end w + n)%nat (n_req w) (n_millis w)
      (repeat [] n ++ sent w) (slept w) in
  (status_after env w 0 <> 0 -> status_after env w 1 <> 0 ->
   begin env fuel initialize w = (Returns NAU7802_I2C_ERROR, probed 2%nat)) /\
  (status_after env w 0 = 0 ->
   begin env fuel false w = (Returns NAU7802_OK, probed 1%nat)) /\
  (status_after env w 0 <> 0 -> status_after env w 1 = 0 ->
   begin env fuel false w = (Returns NAU7802_OK, probed 2%nat)).
Proof.
  cbv zeta. unfold status_after.
  replace (n_end w + 0)%nat with (n_end w) by lia.
  replace (n_end w + 1)%nat with (S (n_end w)) by lia.
  replace (n_end w + 2)%nat with (S (S (n_end w))) by lia.
  unfold begin, isConnected.
  cbn [bind beginTransmission endTransmission ret txBuffer rxBuffer n_end n_req
         n_millis sent slept repeat app].
  split; [|split].
  - intros H0 H1. apply Z.eqb_neq in H0, H1. rewrite H0.
    cbn [bind beginTransmission endTransmission ret txBuffer rxBuffer n_end n_req
           n_millis sent slept negb].
    rewrite H1. reflexivity.
  - intros H0. apply Z.eqb_eq in H0. rewrite H0. reflexivity.
  - intros H0 H1. apply Z.eqb_neq in H0. apply Z.eqb_eq in H1. rewrite H0.
    cbn [bind beginTransmission endTransmission ret txBuffer rxBuffer n_end n_req
           n_millis sent slept negb].
    rewrite H1. reflexivity.
Qed.

Lemma begin_probes_witness :
  begin (env_present_from 2) 200 true Wire0
  = (Returns NAU7802_I2C_ERROR, mkWire [] [] 2 0 0 [[]; []] 0) /\
  begin (env_present_from 0) 200 false Wire0
  = (Returns NAU7802_OK, mkWire [] [] 1 0 0 [[]] 0) /\
  begin (env_present_from 1) 200 false Wire0
  = (Returns NAU7802_OK, mkWire [] [] 2 0 0 [[]; []] 0).
Proof.
  split; [|split].
  - apply (proj1 (begin_probes (env_present_from 2) 200 true Wire0));
      vm_compute; congruence.
  - apply (proj1 (proj2 (begin_probes (env_present_from 0) 200 false Wire0))).
    reflexivity.
  - apply (proj2 (proj2 (begin_probes (env_present_from 1) 200 false Wire0)));
      [vm_compute; congruence | reflexivity].
Defined.
